(** * Neo Shop: the product pipeline of the catalog, embedded in Rocq

    The development follows the two scripts of the shop:

    - the API service (class [ApiService]): [parsePrice], [transformProduct],
      [isValidProduct], [fetchProducts], [fetchProductById],
      [searchProducts], [testConnection];
    - the catalog controller (class [ProductCatalog], assets/js/app.js):
      [loadProducts], [loadProductsFromJSON], [validateProductsData],
      [renderProducts], [createProductCard], [sanitizeProductData],
      [escapeHtml], [handleSearch], [clearSearch], [clearAllFilters],
      [openProductModal].

    Module [JS] holds the part of the JavaScript language the two scripts
    rely on: values, numbers (IEEE 754 binary64, through [spec_float]),
    strings, the conversions [ToBoolean], [ToString], [parseInt],
    [parseFloat], and [Array.prototype.sort]. *)

From Stdlib Require Import ZArith List String Ascii Bool Lia.
From Stdlib Require Import Floats.SpecFloat.
From Stdlib Require Import Sorting.Permutation Sorting.Sorted.
Import ListNotations.

Set Implicit Arguments.
Set Warnings "-register-all".

(* ================================================================== *)
(** * The JavaScript fragment                                          *)
(* ================================================================== *)

Module JS.

(** ** Numbers

    A JavaScript number is a binary64 float.  [spec_float] is the
    Standard Library's specification of IEEE 754 floats over [Z]; the
    numbers of the language are its elements that satisfy [valid_binary]
    at precision 53 and maximal exponent 1024. *)

Definition prec : Z := 53.
Definition emax : Z := 1024.

Definition number : Type := spec_float.

Definition nan : number := S754_nan.
Definition zero : number := S754_zero false.
Definition infinity (neg : bool) : number := S754_infinity neg.

Definition valid (x : number) : bool := valid_binary prec emax x.

Definition isNaN (x : number) : bool :=
  match x with S754_nan => true | _ => false end.

(** [x < y], [x <= y], [x > y], [x >= y] and [x - y] on numbers. *)
Definition lt (x y : number) : bool := SFltb x y.
Definition le (x y : number) : bool := SFleb x y.
Definition gt (x y : number) : bool := SFltb y x.
Definition ge (x y : number) : bool := SFleb y x.
Definition sub (x y : number) : number := SFsub prec emax x y.

(** [ToBoolean] on a number: [0], [-0] and [NaN] are falsy. *)
Definition num_truthy (x : number) : bool :=
  match x with
  | S754_zero _ | S754_nan => false
  | _ => true
  end.

(** The number nearest to the integer [z] (ties to even). *)
Definition of_Z (z : Z) : number := binary_normalize prec emax z 0 false.

(** The number nearest to [m * 10^e10] (ties to even), with sign [neg]:
    the rounding of a decimal literal.  A non-negative exponent gives an
    integer, rounded from its binary digits; a negative one gives a
    quotient of two integers, rounded once from the truncated quotient and
    the position of the remainder. *)
Definition of_decimal (neg : bool) (m : positive) (e10 : Z) : number :=
  match e10 with
  | Zneg k =>
      let '(q, e2, l) :=
        SFdiv_core_binary prec emax (Zpos m) 0 (Zpos (10 ^ k)) 0 in
      binary_round_aux prec emax neg q e2 l
  | Z0 => binary_round prec emax neg m 0
  | Zpos k => binary_round prec emax neg (m * 10 ^ k) 0
  end.

(** ** Strings

    A string is a sequence of code units; the model covers the code units
    below 256, one [ascii] each. *)

Local Open Scope string_scope.

Definition code (c : ascii) : N := N_of_ascii c.

(** White space and line terminators, as [trim] and the numeric parsers
    skip them: TAB, LF, VT, FF, CR, SP and NBSP. *)
Definition is_ws (c : ascii) : bool :=
  let n := code c in
  ((9 <=? n) && (n <=? 13) || (n =? 32) || (n =? 160))%N.

Fixpoint trimStart (s : string) : string :=
  match s with
  | String c r => if is_ws c then trimStart r else s
  | EmptyString => EmptyString
  end.

Fixpoint trimEnd (s : string) : string :=
  match s with
  | EmptyString => EmptyString
  | String c r =>
      match trimEnd r with
      | EmptyString => if is_ws c then EmptyString else String c EmptyString
      | r' => String c r'
      end
  end.

(** [s.trim()] *)
Definition trim (s : string) : string := trimEnd (trimStart s).

(** Lower-casing of one code unit: A-Z, and the upper-case letters of the
    Latin-1 block (U+00C0..U+00DE but the multiplication sign U+00D7). *)
Definition lower_char (c : ascii) : ascii :=
  let n := code c in
  if ((65 <=? n) && (n <=? 90) ||
      (192 <=? n) && (n <=? 222) && negb (n =? 215))%N
  then ascii_of_N (n + 32) else c.

(** [s.toLowerCase()] *)
Fixpoint toLowerCase (s : string) : string :=
  match s with
  | EmptyString => EmptyString
  | String c r => String (lower_char c) (toLowerCase r)
  end.

(** [s.startsWith(t)] *)
Fixpoint startsWith (s t : string) {struct t} : bool :=
  match t, s with
  | EmptyString, _ => true
  | String _ _, EmptyString => false
  | String b t', String a s' => Ascii.eqb a b && startsWith s' t'
  end.

(** [s.includes(t)] *)
Fixpoint includes (s t : string) : bool :=
  startsWith s t ||
  match s with
  | EmptyString => false
  | String _ r => includes r t
  end.

(** [s.replace(a, b)] for one-character strings [a] and [b]: only the
    first occurrence is replaced. *)
Fixpoint replace_first (a b : ascii) (s : string) : string :=
  match s with
  | EmptyString => EmptyString
  | String c r => if Ascii.eqb c a then String b r
                  else String c (replace_first a b r)
  end.

(** [s.length > 0] *)
Definition nonempty (s : string) : bool :=
  match s with EmptyString => false | String _ _ => true end.

(** ** Numeric literals in strings *)

Definition digit_of (c : ascii) : option Z :=
  let n := code c in
  if ((48 <=? n) && (n <=? 57))%N then Some (Z.of_N n - 48)%Z else None.

Definition hex_digit_of (c : ascii) : option Z :=
  let n := code c in
  if ((48 <=? n) && (n <=? 57))%N then Some (Z.of_N n - 48)%Z
  else if ((97 <=? n) && (n <=? 102))%N then Some (Z.of_N n - 87)%Z
  else if ((65 <=? n) && (n <=? 70))%N then Some (Z.of_N n - 55)%Z
  else None.

(** The longest prefix of digits of [s] in base [radix]: the value it adds
    to [acc], the number of digits read, and the rest of the string. *)
Fixpoint scan_digits (digit : ascii -> option Z) (radix : Z)
    (s : string) (acc : Z) (n : Z) : Z * Z * string :=
  match s with
  | String c r =>
      match digit c with
      | Some d => scan_digits digit radix r (radix * acc + d)%Z (n + 1)%Z
      | None => (acc, n, s)
      end
  | EmptyString => (acc, n, s)
  end.

(** An optional sign. *)
Definition scan_sign (s : string) : bool * string :=
  match s with
  | String c r =>
      if Ascii.eqb c "-" then (true, r)
      else if Ascii.eqb c "+" then (false, r)
      else (false, s)
  | EmptyString => (false, s)
  end.

(** The exponent part [e[+-]ddd] of a decimal literal, 0 when the string
    does not start with a complete one. *)
Definition scan_exponent (s : string) : Z :=
  match s with
  | String c r =>
      if Ascii.eqb c "e" || Ascii.eqb c "E" then
        let '(eneg, r') := scan_sign r in
        let '(ev, ne, _) := scan_digits digit_of 10 r' 0%Z 0%Z in
        if (ne =? 0)%Z then 0%Z else if eneg then (- ev)%Z else ev
      else 0%Z
  | EmptyString => 0%Z
  end.

(** [parseFloat] on a string: leading white space is skipped and the
    longest prefix that is a decimal literal (or [Infinity]) is read; no
    such prefix gives [NaN]. *)
Definition parseFloat_str (s : string) : number :=
  let '(neg, s1) := scan_sign (trimStart s) in
  if startsWith s1 "Infinity" then infinity neg else
  let '(ip, ni, r1) := scan_digits digit_of 10 s1 0%Z 0%Z in
  let '(m, nf, r2) :=
    match r1 with
    | String c r =>
        if Ascii.eqb c "." then scan_digits digit_of 10 r ip 0%Z
        else (ip, 0%Z, r1)
    | EmptyString => (ip, 0%Z, r1)
    end in
  if (ni + nf =? 0)%Z then nan else
  match m with
  | Zpos p => of_decimal neg p (scan_exponent r2 - nf)
  | _ => S754_zero neg
  end.

(** [parseInt] on a string, no radix given: leading white space is
    skipped, a [0x] prefix selects base 16, and the longest prefix of
    digits is read; no digit gives [NaN]. *)
Definition parseInt_str (s : string) : number :=
  let '(neg, s1) := scan_sign (trimStart s) in
  let '(v, n, _) :=
    if startsWith s1 "0x" || startsWith s1 "0X" then
      match s1 with
      | String _ (String _ r) => scan_digits hex_digit_of 16 r 0%Z 0%Z
      | _ => (0%Z, 0%Z, s1)
      end
    else scan_digits digit_of 10 s1 0%Z 0%Z in
  if (n =? 0)%Z then nan else
  match v with
  | Zpos p => binary_round prec emax neg p 0
  | _ => S754_zero neg
  end.

(** ** Number to string

    [Number::toString] gives the shortest decimal literal that reads back
    as the same number: digits [s] (with [k] of them, [k] least) and a
    decimal position [n] with [s * 10^(n-k)] rounding to the number. *)

Local Open Scope Z_scope.

(** A positive rational as numerator and denominator. *)
Definition ratio : Type := (Z * Z)%type.

Definition ratio_of (m : positive) (e : Z) : ratio :=
  match e with
  | Zneg k => (Zpos m, 2 ^ Zpos k)
  | _ => (Zpos m * 2 ^ e, 1)
  end.

Definition scale10 (r : ratio) (j : Z) : ratio :=
  let (a, b) := r in
  match j with
  | Zneg k => (a, b * 10 ^ Zpos k)
  | _ => (a * 10 ^ j, b)
  end.

(** The least [n], from [n0] on, with [r < 10^n]. *)
Fixpoint mag10_from (fuel : nat) (r : ratio) (n0 : Z) : Z :=
  match fuel with
  | O => n0
  | S f =>
      let (a, b) := scale10 r (- n0) in
      if a <? b then n0 else mag10_from f r (n0 + 1)
  end.

(** The least [n] with [m * 2^e < 10^n].  The search starts below it:
    with [E] the binary exponent ([2^E <= m * 2^e < 2^(E+1)]) and
    [log 2 / log 10] between 0.30102 and 0.30103, [10^n0 <= 2^E] for the
    [n0] below, and the [n] sought is at most [n0 + 3]. *)
Definition mag10 (m : positive) (e : Z) : Z :=
  let E := Zdigits2 (Zpos m) + e - 1 in
  let n0 := (E * (if 0 <=? E then 30102 else 30103)) / 100000 in
  mag10_from 4 (ratio_of m e) n0.

(** The digits [s] and position [n] of the number [x] of exact value [r],
    trying [k], [k+1], ... digits. *)
Fixpoint shortest (fuel : nat) (x : number) (r : ratio) (n k : Z) : Z * Z :=
  match fuel with
  | O => (0, n)
  | S f =>
      let (a, b) := scale10 r (k - n) in
      let lo := a / b in
      let hi := lo + 1 in
      let reads s :=
        match s with
        | Zpos p => SFeqb (of_decimal false p (n - k)) x
        | _ => false
        end in
      let pick :=
        match reads lo, reads hi with
        | true, true =>
            match 2 * a ?= (2 * lo + 1) * b with
            | Lt => lo
            | Gt => hi
            | Eq => if Z.even lo then lo else hi
            end
        | true, false => lo
        | false, true => hi
        | false, false => 0
        end in
      if pick =? 0 then shortest f x r n (k + 1)
      else if pick =? 10 ^ k then (10 ^ (k - 1), n + 1)
      else (pick, n)
  end.

Fixpoint digits_from (fuel : nat) (z : Z) (acc : string) : string :=
  match fuel with
  | O => acc
  | S f =>
      let acc' := String (ascii_of_N (Z.to_N (48 + z mod 10))) acc in
      if z <? 10 then acc' else digits_from f (z / 10) acc'
  end.

(** The decimal digits of a natural number. *)
Definition digits (z : Z) : string :=
  digits_from (S (Z.to_nat (Z.log2 z))) z EmptyString.

Fixpoint zeros (n : nat) : string :=
  match n with O => EmptyString | S k => String "0" (zeros k) end.

Definition Number_toString (x : number) : string :=
  match x with
  | S754_nan => "NaN"
  | S754_zero _ => "0"
  | S754_infinity neg => if neg then "-Infinity" else "Infinity"
  | S754_finite neg m e =>
      let r := ratio_of m e in
      let '(s, n) := shortest 17 (S754_finite false m e) r (mag10 m e) 1 in
      let ds := digits s in
      let k := Z.of_nat (String.length ds) in
      let body :=
        if (k <=? n) && (n <=? 21) then
          ds ++ zeros (Z.to_nat (n - k))
        else if (0 <? n) && (n <=? 21) then
          substring 0 (Z.to_nat n) ds ++ "." ++
          substring (Z.to_nat n) (Z.to_nat (k - n)) ds
        else if (-6 <? n) && (n <=? 0) then
          "0." ++ zeros (Z.to_nat (- n)) ++ ds
        else
          let ex := n - 1 in
          let es := (if ex <? 0 then "-" else "+") ++ digits (Z.abs ex) in
          match ds with
          | String d EmptyString => String d ("e" ++ es)
          | String d rest => String d ("." ++ rest ++ "e" ++ es)
          | EmptyString => EmptyString
          end in
      (if neg then "-" else "") ++ body
  end.

Local Close Scope Z_scope.

(** ** Values

    The values that reach the two scripts come out of [response.json()]:
    [null], booleans, numbers, strings, arrays and plain objects; reading
    a property adds [undefined].  An object is the list of its own
    properties, the first entry of a key being the one read. *)

Inductive value : Type :=
| VUndefined
| VNull
| VBool (b : bool)
| VNum (x : number)
| VStr (s : string)
| VArr (items : list value)
| VObj (props : list (string * value)).

(** Exceptions: the [TypeError] of the engine, and [new Error(message)]. *)
Inductive error : Type :=
| TypeError
| Error (message : string).

Inductive result (A : Type) : Type :=
| Ok (a : A)
| Throw (e : error).
Arguments Ok {A} a.
Arguments Throw {A} e.

(** [error.message]; the text of a [TypeError] is the engine's own. *)
Definition message_of (e : error) : string :=
  match e with
  | TypeError => "TypeError"
  | Error m => m
  end.

(** [ToBoolean] *)
Definition truthy (v : value) : bool :=
  match v with
  | VUndefined | VNull => false
  | VBool b => b
  | VNum x => num_truthy x
  | VStr s => nonempty s
  | VArr _ | VObj _ => true
  end.

Fixpoint lookup (k : string) (props : list (string * value)) : value :=
  match props with
  | [] => VUndefined
  | (k', v) :: rest => if String.eqb k k' then v else lookup k rest
  end.

(** [v.k] for one of the property names the scripts read (none of them is
    a property of a prototype): a [TypeError] on [undefined] and [null],
    [undefined] on primitives, arrays and objects without it. *)
Definition get (v : value) (k : string) : result value :=
  match v with
  | VUndefined | VNull => Throw TypeError
  | VObj props => Ok (lookup k props)
  | _ => Ok VUndefined
  end.

Definition isArray (v : value) : bool :=
  match v with VArr _ => true | _ => false end.

Definition is_string (v : value) : bool :=
  match v with VStr _ => true | _ => false end.

Definition is_number (v : value) : bool :=
  match v with VNum _ => true | _ => false end.

Definition is_undefined (v : value) : bool :=
  match v with VUndefined => true | _ => false end.

(** Whether the object has a property [k] of its own. *)
Fixpoint has_key (k : string) (props : list (string * value)) : bool :=
  match props with
  | [] => false
  | (k', _) :: rest => String.eqb k k' || has_key k rest
  end.

(** [ToString], the conversion behind [String(v)], [parseInt(v)],
    [parseFloat(v)], a template literal and the parameters of a URL.  An
    array joins its elements with commas, [null] and [undefined] elements
    giving the empty string.  An object without a [toString] of its own
    inherits the one of [Object.prototype]; a property [toString] of its
    own is a value of the data and not a function, the inherited
    [valueOf] gives the object back, and the conversion throws a
    [TypeError]. *)
Fixpoint ToString (v : value) : result string :=
  match v with
  | VUndefined => Ok "undefined"
  | VNull => Ok "null"
  | VBool b => Ok (if b then "true" else "false")
  | VNum x => Ok (Number_toString x)
  | VStr s => Ok s
  | VArr items =>
      (fix join (l : list value) : result string :=
         match l with
         | [] => Ok ""
         | a :: r =>
             match (match a with
                    | VUndefined | VNull => Ok ""
                    | _ => ToString a
                    end) with
             | Throw e => Throw e
             | Ok sa =>
                 match r with
                 | [] => Ok sa
                 | _ => match join r with
                        | Throw e => Throw e
                        | Ok rest => Ok (sa ++ "," ++ rest)
                        end
                 end
             end
         end) items
  | VObj props =>
      if has_key "toString" props then Throw TypeError
      else Ok "[object Object]"
  end%string.

(** [parseFloat(v)] and [parseInt(v)] read the string of their argument. *)
Definition parseFloat (v : value) : result number :=
  match ToString v with
  | Ok s => Ok (parseFloat_str s)
  | Throw e => Throw e
  end.

Definition parseInt (v : value) : result number :=
  match ToString v with
  | Ok s => Ok (parseInt_str s)
  | Throw e => Throw e
  end.

(** ** Array.prototype.sort

    [a.sort(comparefn)] is a stable sort: an element moves behind another
    one only when the comparison of the two is positive, a [NaN] or zero
    comparison leaving them in their order.  For a consistent comparison
    function the result does not depend on the algorithm; it is written
    here as an insertion sort. *)

Section Sort.
Variable A : Type.
Variable comparefn : A -> A -> number.

Fixpoint insert (x : A) (l : list A) : list A :=
  match l with
  | [] => [x]
  | y :: r => if gt (comparefn x y) zero then y :: insert x r
              else x :: y :: r
  end.

Definition sort (l : list A) : list A := fold_right insert [] l.
End Sort.

End JS.

Import JS.
Local Open Scope string_scope.

(* ================================================================== *)
(** * Effects: the network, the page and the controller's fields       *)
(* ================================================================== *)

Module Runtime.

(** A GET request: the address and the query parameters appended to it. *)
Record Request : Type := {
  url : string;
  query : list (string * string)
}.

(** What [await fetch(...)] and [await response.json()] give: the fetch
    itself may reject; a response has a status ([response.ok] is a status
    from 200 to 299) and a body that parses as JSON or does not. *)
Record Response : Type := {
  status : Z;
  statusText : string;
  body : option value
}.

Inductive Outcome : Type :=
| NetworkFailure
| Answer (response : Response).

Definition Network : Type := Request -> Outcome.

(** The methods whose calls are recorded. *)
Inductive Method : Type :=
| MTestConnection
| MFetchProducts
| MFetchProductById
| MLoadProductsFromJSON.

(** What a run does to the outside: requests, calls, and changes of the
    page. *)
Inductive Event : Type :=
| EvCall (m : Method)
| EvFetch (req : Request)
| EvShowLoading
| EvShowProducts
| EvShowError (message : string)
| EvShowApiWarning (apiError : string)
| EvRender (shown : list value)
| EvUpdateResultsInfo
| EvClearSearchHidden (hidden : bool)
| EvShowNoResults.

(** The fields of the controller ([this.products], ...), and the events so
    far. *)
Record Store : Type := {
  products : list value;
  filteredProducts : list value;
  isLoading : bool;
  currentSearchTerm : string;
  trace : list Event
}.

Definition initial : Store :=
  {| products := []; filteredProducts := []; isLoading := false;
     currentSearchTerm := ""; trace := [] |}.

(** A computation changes the store and returns or throws. *)
Definition M (A : Type) : Type := Store -> result A * Store.

Definition ret {A} (a : A) : M A := fun s => (Ok a, s).

Definition bind {A B} (c : M A) (k : A -> M B) : M B :=
  fun s =>
    match c s with
    | (Ok a, s') => k a s'
    | (Throw e, s') => (Throw e, s')
    end.

Definition throw {A} (e : error) : M A := fun s => (Throw e, s).

(** [try { body } catch (e) { handler }] *)
Definition try_catch {A} (body : M A) (handler : error -> M A) : M A :=
  fun s =>
    match body s with
    | (Ok a, s') => (Ok a, s')
    | (Throw e, s') => handler e s'
    end.

(** [try { body } finally { final }] *)
Definition try_finally {A} (body : M A) (final : M unit) : M A :=
  fun s =>
    let (r, s') := body s in
    match final s' with
    | (Ok _, s'') => (r, s'')
    | (Throw e, s'') => (Throw e, s'')
    end.

(** A computation without effects that may throw. *)
Definition lift {A} (r : result A) : M A := fun s => (r, s).

Definition emit (e : Event) : M unit :=
  fun s => (Ok tt, {| products := products s;
                      filteredProducts := filteredProducts s;
                      isLoading := isLoading s;
                      currentSearchTerm := currentSearchTerm s;
                      trace := trace s ++ [e] |}).

Definition set_products (l : list value) : M unit :=
  fun s => (Ok tt, {| products := l;
                      filteredProducts := filteredProducts s;
                      isLoading := isLoading s;
                      currentSearchTerm := currentSearchTerm s;
                      trace := trace s |}).

Definition set_filteredProducts (l : list value) : M unit :=
  fun s => (Ok tt, {| products := products s;
                      filteredProducts := l;
                      isLoading := isLoading s;
                      currentSearchTerm := currentSearchTerm s;
                      trace := trace s |}).

Definition set_isLoading (b : bool) : M unit :=
  fun s => (Ok tt, {| products := products s;
                      filteredProducts := filteredProducts s;
                      isLoading := b;
                      currentSearchTerm := currentSearchTerm s;
                      trace := trace s |}).

Definition set_currentSearchTerm (t : string) : M unit :=
  fun s => (Ok tt, {| products := products s;
                      filteredProducts := filteredProducts s;
                      isLoading := isLoading s;
                      currentSearchTerm := t;
                      trace := trace s |}).

Definition read {A} (f : Store -> A) : M A := fun s => (Ok (f s), s).

(** [response.ok] *)
Definition ok (response : Response) : bool :=
  ((200 <=? status response) && (status response <=? 299))%Z.

(** [await fetch(req)]: the request is recorded; a network failure
    rejects. *)
Definition fetch (net : Network) (req : Request) : M Response :=
  bind (emit (EvFetch req))
       (fun _ => match net req with
                 | NetworkFailure => throw TypeError
                 | Answer response => ret response
                 end).

(** [await response.json()] *)
Definition json (response : Response) : M value :=
  match body response with
  | Some v => ret v
  | None => throw (Error "SyntaxError")
  end.

End Runtime.

Import Runtime.

Declare Scope eff_scope.
Delimit Scope eff_scope with eff.
Notation "x <- c ;; k" := (bind c (fun x => k))
  (at level 61, c at next level, right associativity) : eff_scope.
Notation "c ;; k" := (bind c (fun _ => k))
  (at level 61, right associativity) : eff_scope.

(** The same for computations that only return or throw. *)
Definition and_then {A B} (r : result A) (k : A -> result B) : result B :=
  match r with
  | Ok a => k a
  | Throw e => Throw e
  end.

Declare Scope result_scope.
Delimit Scope result_scope with result.
Notation "x <- c ;; k" := (and_then c (fun x => k))
  (at level 61, c at next level, right associativity) : result_scope.

(** [items.map(f)] for an [f] that may throw. *)
Fixpoint map_result {A B} (f : A -> result B) (l : list A) : result (list B) :=
  match l with
  | [] => Ok []
  | a :: r =>
      (b <- f a ;; bs <- map_result f r ;; Ok (b :: bs))%result
  end.

(* ================================================================== *)
(** * The API service                                                  *)
(* ================================================================== *)

Module ApiService.

(** The object [transformProduct] builds. *)
Record Product : Type := {
  id : number;
  title : string;
  subtitle : option string;
  description : string;
  gallery : list value;
  price : option number;
  promotionalPrice : option number;
  public : bool;
  rating : option number;
  order : number
}.

Definition opt_value {A} (f : A -> value) (o : option A) : value :=
  match o with Some a => f a | None => VNull end.

(** The product as the object the controller reads later. *)
Definition as_value (p : Product) : value :=
  VObj [ ("id", VNum (id p));
         ("title", VStr (title p));
         ("subtitle", opt_value VStr (subtitle p));
         ("description", VStr (description p));
         ("gallery", VArr (gallery p));
         ("price", opt_value VNum (price p));
         ("promotionalPrice", opt_value VNum (promotionalPrice p));
         ("public", VBool (public p));
         ("rating", opt_value VNum (rating p));
         ("order", VNum (order p)) ].

Definition baseUrl : string :=
  "https://api.baserow.io/api/database/rows/table/659848/".

(** [parsePrice(price)]: [None] is [null]. *)
Definition parsePrice (price : value) : result (option number) :=
  if negb (truthy price)
     || match price with VStr s => String.eqb s "0.00" | _ => false end
  then Ok None
  else
    (numericPrice <-
       match price with
       | VStr s => Ok (parseFloat_str (replace_first "," "." s))
       | _ => parseFloat price
       end ;;
     Ok (if isNaN numericPrice || le numericPrice zero then None
         else Some numericPrice))%result.

(** [isValidProduct(product)], conjunct by conjunct; the [typeof] tests and
    [Array.isArray(product.gallery)] hold of every [Product]. *)
Definition isValidProduct (product : Product) : bool :=
  gt (id product) zero &&
  nonempty (title product) &&
  nonempty (description product) &&
  match price product with
  | Some p => gt p zero
  | None => false
  end &&
  Bool.eqb (public product) true.

(** [x || 0] on a number. *)
Definition or_zero (x : number) : number :=
  if num_truthy x then x else zero.

(** [x || null] on a number. *)
Definition or_null (x : number) : option number :=
  if num_truthy x then Some x else None.

(** The body of the [try] of [transformProduct] up to the object
    literal. *)
Definition transformed (apiProduct : value) : result Product :=
  (g <- get apiProduct "gallery" ;;
   gallery <- match g with
              | VArr images =>
                  map_result
                    (fun image =>
                       u <- get image "url" ;;
                       Ok (if truthy u then u else image))
                    images
              | _ => Ok []
              end ;;
   vid <- get apiProduct "id" ;;
   nid <- parseInt vid ;;
   vtitle <- get apiProduct "title" ;;
   ttitle <- ToString (if truthy vtitle then vtitle else VStr "") ;;
   vsubtitle <- get apiProduct "subtitle" ;;
   tsubtitle <- (if truthy vsubtitle
                 then t <- ToString vsubtitle ;; Ok (Some (trim t))
                 else Ok None) ;;
   vdescription <- get apiProduct "description" ;;
   tdescription <- ToString (if truthy vdescription then vdescription
                             else VStr "") ;;
   vprice <- get apiProduct "price" ;;
   nprice <- parsePrice vprice ;;
   vpromo <- get apiProduct "promotionalPrice" ;;
   npromo <- parsePrice vpromo ;;
   vpublic <- get apiProduct "Public" ;;
   vrating <- get apiProduct "Rating" ;;
   nrating <- parseInt vrating ;;
   vorder <- get apiProduct "order" ;;
   norder <- parseFloat vorder ;;
   Ok {| id := or_zero nid;
         title := trim ttitle;
         subtitle := tsubtitle;
         description := trim tdescription;
         gallery := gallery;
         price := nprice;
         promotionalPrice := npromo;
         public := truthy vpublic;
         rating := or_null nrating;
         order := or_zero norder |})%result.

(** [transformProduct(apiProduct)]: [None] is [null].  The messages of
    [console.warn] and [console.error] are left out. *)
Definition transformProduct (apiProduct : value) : option Product :=
  match transformed apiProduct with
  | Ok transformedProduct =>
      if negb (isValidProduct transformedProduct) then None
      else Some transformedProduct
  | Throw _ => None
  end.

Section Service.
Variable net : Network.

Local Open Scope eff_scope.

(** The extra parameters of [fetchProducts(filters)]: the entries that
    are neither [null] nor [undefined], each appended as a string. *)
Fixpoint filter_params (filters : list (string * value))
    : result (list (string * string)) :=
  match filters with
  | [] => Ok []
  | (k, v) :: r =>
      match v with
      | VNull | VUndefined => filter_params r
      | _ => (text <- ToString v ;;
              rest <- filter_params r ;;
              Ok ((k, text) :: rest))%result
      end
  end.

Definition http_error (response : Response) : error :=
  Error ("Erro HTTP: " ++ Number_toString (of_Z (status response))
         ++ " - " ++ statusText response).

(** The address [fetchProducts] builds: the public rows, with the
    names of the fields, and the extra parameters. *)
Definition products_request (params : list (string * string)) : Request :=
  {| url := baseUrl;
     query := [("user_field_names", "true");
               ("filter__Public__equal", "true")]
              ++ params |}.

(** [fetchProducts(filters)] *)
Definition fetchProducts (filters : list (string * value))
    : M (list (option Product)) :=
  emit (EvCall MFetchProducts) ;;
  try_catch
    (params <- lift (filter_params filters) ;;
     response <- fetch net (products_request params) ;;
     if negb (ok response) then throw (http_error response)
     else
       data <- json response ;;
       results <- lift (get data "results") ;;
       match results with
       | VArr records => ret (map transformProduct records)
       | _ =>
           throw (Error
             "Resposta da API não contém array de produtos válido")
       end)
    (fun error =>
       throw (Error ("Falha ao carregar produtos: " ++ message_of error))).

(** The address of one row, from the text of its id. *)
Definition by_id_request (productId : string) : Request :=
  {| url := baseUrl ++ productId ++ "/?user_field_names=true";
     query := [] |}.

(** [fetchProductById(productId)] *)
Definition fetchProductById (productId : value) : M (option Product) :=
  emit (EvCall MFetchProductById) ;;
  try_catch
    (text <- lift (ToString productId) ;;
     response <- fetch net (by_id_request text) ;;
     if negb (ok response) then
       if (status response =? 404)%Z then ret None
       else throw (http_error response)
     else
       apiProduct <- json response ;;
       match transformProduct apiProduct with
       | None => ret None
       | Some transformedProduct =>
           if negb (public transformedProduct) then ret None
           else ret (Some transformedProduct)
       end)
    (fun error => ret None).

(** The address of the connection test: one row only. *)
Definition connection_request : Request :=
  {| url := baseUrl;
     query := [("user_field_names", "true"); ("size", "1")] |}.

(** [testConnection()] *)
Definition testConnection : M bool :=
  emit (EvCall MTestConnection) ;;
  try_catch
    (response <- fetch net connection_request ;;
     ret (ok response))
    (fun error => ret false).

End Service.

End ApiService.

(* ================================================================== *)
(** * The catalog controller                                           *)
(* ================================================================== *)

Module ProductCatalog.

Import ApiService.

(** [items.every(f)] and [items.filter(f)] for an [f] that may throw. *)
Fixpoint every (f : value -> result bool) (l : list value) : result bool :=
  match l with
  | [] => Ok true
  | a :: r => (b <- f a ;; if b then every f r else Ok false)%result
  end.

Fixpoint filter_result (f : value -> result bool) (l : list value)
    : result (list value) :=
  match l with
  | [] => Ok []
  | a :: r =>
      (b <- f a ;; rest <- filter_result f r ;;
       Ok (if b then a :: rest else rest))%result
  end.

(** [v.toLowerCase()]: a method of strings only. *)
Definition call_toLowerCase (v : value) : result string :=
  match v with
  | VStr s => Ok (toLowerCase s)
  | _ => Throw TypeError
  end.

(** The callback of [every] in [validateProductsData]. *)
Definition valid_entry (product : value) : result bool :=
  if negb (truthy product) then Ok false else
  (vid <- get product "id" ;;
   if is_undefined vid then Ok false else
   vtitle <- get product "title" ;;
   if negb (is_string vtitle) then Ok false else
   vdescription <- get product "description" ;;
   if negb (is_string vdescription) then Ok false else
   vgallery <- get product "gallery" ;;
   if negb (isArray vgallery) then Ok false else
   vprice <- get product "price" ;;
   match vprice with
   | VNum x => Ok (ge x zero)
   | _ => Ok false
   end)%result.

(** [validateProductsData(data)] *)
Definition validateProductsData (data : value) : result bool :=
  if negb (truthy data) then Ok false else
  (ps <- get data "products" ;;
   match ps with
   | VArr entries => every valid_entry entries
   | _ => Ok false
   end)%result.

(** [data.products], an array once the data are validated. *)
Definition products_of (data : value) : list value :=
  match get data "products" with
  | Ok (VArr entries) => entries
  | _ => []
  end.

(** The callback of [filter] in [loadProducts], on what [fetchProducts]
    returns: [null] or a product. *)
Definition is_displayable (product : option Product) : bool :=
  match product with
  | None => false
  | Some p =>
      Bool.eqb (public p) true &&
      nonempty (title p) &&
      nonempty (description p) &&
      match price p with
      | Some x => gt x zero
      | None => false
      end
  end.

(** [apiProducts.filter(...)]: the products kept. *)
Fixpoint filter_valid (apiProducts : list (option Product)) : list Product :=
  match apiProducts with
  | [] => []
  | product :: rest =>
      match product with
      | Some p => if is_displayable product then p :: filter_valid rest
                  else filter_valid rest
      | None => filter_valid rest
      end
  end.

(** [(a, b) => (a.order || 0) - (b.order || 0)] *)
Definition by_order (a b : Product) : number :=
  sub (or_zero (order a)) (or_zero (order b)).

(** The callback of [filter] in [handleSearch]. *)
Definition matches (term : string) (product : value) : result bool :=
  (vtitle <- get product "title" ;;
   t <- call_toLowerCase vtitle ;;
   if includes t term then Ok true else
   vsubtitle <- get product "subtitle" ;;
   in_subtitle <- (if truthy vsubtitle
                   then s <- call_toLowerCase vsubtitle ;;
                        Ok (includes s term)
                   else Ok false) ;;
   if in_subtitle then Ok true else
   vdescription <- get product "description" ;;
   d <- call_toLowerCase vdescription ;;
   Ok (includes d term))%result.

(** The serialisation of one character of a text node. *)
Definition escape_char (c : ascii) : string :=
  let n := code c in
  if (n =? 38)%N then "&amp;"
  else if (n =? 60)%N then "&lt;"
  else if (n =? 62)%N then "&gt;"
  else if (n =? 160)%N then "&nbsp;"
  else String c EmptyString.

(** [escapeHtml(text)]: the text becomes the content of an element
    ([div.textContent = text]) and is read back as markup
    ([div.innerHTML]); the serialisation of a text node replaces [&], [<],
    [>] and the no-break space by their entities and copies every other
    character. *)
Fixpoint escapeHtml (text : string) : string :=
  match text with
  | EmptyString => EmptyString
  | String c r => escape_char c ++ escapeHtml r
  end.

(** The object [sanitizeProductData] builds. *)
Module Safe.
Record t : Type := {
  id : number;
  title : string;
  subtitle : option string;
  description : string;
  gallery : list string;
  price : number;
  promotionalPrice : option number
}.
End Safe.

(** [sanitizeProductData(product)], field by field in the order of the
    object literal; each conversion to a string or a number may throw. *)
Definition sanitizeProductData (product : value) : result Safe.t :=
  (vid <- get product "id" ;;
   nid <- parseInt vid ;;
   vtitle <- get product "title" ;;
   ttitle <- ToString (if truthy vtitle then vtitle else VStr "") ;;
   vsubtitle <- get product "subtitle" ;;
   tsubtitle <- (if truthy vsubtitle
                 then t <- ToString vsubtitle ;; Ok (Some (escapeHtml t))
                 else Ok None) ;;
   vdescription <- get product "description" ;;
   tdescription <- ToString (if truthy vdescription then vdescription
                             else VStr "") ;;
   vgallery <- get product "gallery" ;;
   urls <- match vgallery with
           | VArr urls => map_result ToString urls
           | _ => Ok []
           end ;;
   vprice <- get product "price" ;;
   nprice <- parseFloat vprice ;;
   vpromo <- get product "promotionalPrice" ;;
   npromo <- (if truthy vpromo
              then x <- parseFloat vpromo ;; Ok (Some x)
              else Ok None) ;;
   Ok {| Safe.id := or_zero nid;
         Safe.title := escapeHtml ttitle;
         Safe.subtitle := tsubtitle;
         Safe.description := escapeHtml tdescription;
         Safe.gallery := urls;
         Safe.price := or_zero nprice;
         Safe.promotionalPrice := npromo |})%result.

(** [createProductCard(product)], as far as it can fail: the product is
    sanitised first, and the markup is built from the sanitised fields,
    strings and numbers, which does not throw. *)
Definition createProductCard (product : value) : result Safe.t :=
  sanitizeProductData product.

Section Controller.
(** [window.ApiService] is defined: the script of the service ran. *)
Variable apiServiceDefined : bool.
Variable net : Network.

Local Open Scope eff_scope.

Definition showLoading : M unit := emit EvShowLoading.
Definition showProducts : M unit := emit EvShowProducts.
Definition showError (message : string) : M unit :=
  emit (EvShowError message).
Definition showApiWarning (apiError : string) : M unit :=
  emit (EvShowApiWarning apiError).
Definition updateResultsInfo : M unit := emit EvUpdateResultsInfo.
Definition showNoResults : M unit := emit EvShowNoResults.

(** [renderProducts()]: a card is built for each of the filtered
    products, and the cards replace the grid; a product whose card cannot
    be built stops the render before the grid changes.  The page provides
    the elements the controller looks up. *)
Definition renderProducts : M unit :=
  shown <- read filteredProducts ;;
  lift (map_result createProductCard shown) ;;
  emit (EvRender shown) ;;
  showProducts.

(** The address of the local file. *)
Definition file_request : Request :=
  {| url := "./data/products.json"; query := [] |}.

(** The body of the [try] of [loadProductsFromJSON]: the products of
    the local file, validated and shown. *)
Definition load_from_file (apiError : string) : M unit :=
  response <- fetch net file_request ;;
  if negb (ok response) then
    throw (Error ("HTTP error! status: "
                  ++ Number_toString (of_Z (status response))))
  else
    data <- json response ;;
    valid <- lift (validateProductsData data) ;;
    if negb valid then
      throw (Error "Dados do arquivo JSON são inválidos")
    else
      set_products (products_of data) ;;
      all <- read products ;;
      set_filteredProducts all ;;
      renderProducts ;;
      updateResultsInfo ;;
      showApiWarning apiError.

(** [loadProductsFromJSON(apiError)] *)
Definition loadProductsFromJSON (apiError : string) : M unit :=
  emit (EvCall MLoadProductsFromJSON) ;;
  try_catch (load_from_file apiError)
    (fun jsonError =>
       showError ("API indisponível: " ++ apiError
                  ++ ". Arquivo local também falhou: "
                  ++ message_of jsonError)).

(** The body of the [try] of [loadProducts]: the products of the API,
    checked, sorted and shown.  [Array.isArray(apiProducts)] holds of
    what [fetchProducts] returns; the sort is in place, on the array that
    becomes [this.products]. *)
Definition load_from_api : M unit :=
  (if negb apiServiceDefined
   then throw (Error "Serviço da API não está disponível")
   else ret tt) ;;
  connectionTest <- testConnection net ;;
  (if negb connectionTest
   then throw (Error
     "Não foi possível conectar com a API. Verifique sua conexão ou configuração.")
   else ret tt) ;;
  apiProducts <- fetchProducts net [] ;;
  (if (List.length apiProducts =? 0)%nat
   then throw (Error "Nenhum produto público encontrado na API")
   else ret tt) ;;
  let validProducts := filter_valid apiProducts in
  (if (List.length validProducts =? 0)%nat
   then throw (Error "Nenhum produto válido encontrado")
   else ret tt) ;;
  let validProducts := sort by_order validProducts in
  set_products (map as_value validProducts) ;;
  all <- read products ;;
  set_filteredProducts all ;;
  renderProducts ;;
  updateResultsInfo.

(** [loadProducts()] *)
Definition loadProducts : M unit :=
  loading <- read isLoading ;;
  if loading then ret tt else
  set_isLoading true ;;
  showLoading ;;
  try_finally
    (try_catch load_from_api
       (fun error => loadProductsFromJSON (message_of error)))
    (set_isLoading false).

(** [handleSearch(searchTerm)] *)
Definition handleSearch (searchTerm : string) : M unit :=
  set_currentSearchTerm (toLowerCase (trim searchTerm)) ;;
  term <- read currentSearchTerm ;;
  all <- read products ;;
  (if negb (nonempty term) then
     set_filteredProducts all ;;
     emit (EvClearSearchHidden true)
   else
     found <- lift (filter_result (matches term) all) ;;
     set_filteredProducts found ;;
     emit (EvClearSearchHidden false)) ;;
  renderProducts ;;
  updateResultsInfo ;;
  shown <- read filteredProducts ;;
  if (List.length shown =? 0)%nat && nonempty term
  then showNoResults else ret tt.

End Controller.

End ProductCatalog.

Import ApiService ProductCatalog.

(* ================================================================== *)
(** * Statements of the specification                                  *)
(* ================================================================== *)

Module Spec.

(** A string has a numeric prefix when, leading white space and one sign
    skipped, it starts with a digit, with a dot and a digit, or with
    [Infinity]: what follows the prefix is not looked at. *)
Definition starts_with_digit (s : string) : bool :=
  match s with
  | String c _ => match digit_of c with Some _ => true | None => false end
  | EmptyString => false
  end.

Definition numeric_prefix (s : string) : bool :=
  let s1 := snd (scan_sign (trimStart s)) in
  startsWith s1 "Infinity" ||
  starts_with_digit s1 ||
  match s1 with
  | String c r => Ascii.eqb c "." && starts_with_digit r
  | EmptyString => false
  end.

(** A numeric string, as the specification words it: white space around
    it apart, an optional sign, digits, and at most one decimal separator
    (a dot or a comma) among them, and nothing else. *)
Definition number_text (s : string) : bool :=
  let '(_, ni, r1) :=
    scan_digits digit_of 10 (snd (scan_sign (trim s))) 0%Z 0%Z in
  match r1 with
  | EmptyString => (0 <? ni)%Z
  | String c r =>
      (Ascii.eqb c "." || Ascii.eqb c ",") &&
      let '(_, nf, r2) := scan_digits digit_of 10 r 0%Z 0%Z in
      (0 <? ni + nf)%Z && negb (nonempty r2)
  end.

(** The invariants of a product, on the object [transformProduct]
    builds. *)
Definition product_invariant (p : Product) : Prop :=
  gt (id p) zero = true /\
  title p <> "" /\
  description p <> "" /\
  (exists x, price p = Some x /\ gt x zero = true) /\
  public p = true.

(** The invariant of a displayed product, on an object of the stored
    list: a title and a description that are not empty, a positive price
    and the public flag. *)
Definition displayed_invariant (v : value) : Prop :=
  (exists t, get v "title" = Ok (VStr t) /\ t <> "") /\
  (exists d, get v "description" = Ok (VStr d) /\ d <> "") /\
  (exists x, get v "price" = Ok (VNum x) /\ gt x zero = true) /\
  get v "public" = Ok (VBool true).

(** What the validation of the local file asks of an entry: an id, a
    title and a description that are strings, a gallery that is an array,
    and a price that is a number and not negative. *)
Definition file_invariant (v : value) : Prop :=
  (exists i, get v "id" = Ok i /\ i <> VUndefined) /\
  (exists t, get v "title" = Ok (VStr t)) /\
  (exists d, get v "description" = Ok (VStr d)) /\
  (exists g, get v "gallery" = Ok (VArr g)) /\
  (exists x, get v "price" = Ok (VNum x) /\ ge x zero = true).

(** [t] occurs in [s]. *)
Definition Substring (t s : string) : Prop :=
  exists before after, s = before ++ t ++ after.

(** [t] occurs in [s], letter case apart. *)
Definition SubstringNoCase (t s : string) : Prop :=
  Substring (toLowerCase t) (toLowerCase s).

(** A product the search can read: an object with a string title, a
    string description, and a subtitle that is a string or falsy
    ([null], absent, empty). *)
Definition searchable (p : value) : Prop :=
  (exists t, get p "title" = Ok (VStr t)) /\
  (exists d, get p "description" = Ok (VStr d)) /\
  (exists v, get p "subtitle" = Ok v /\
             (truthy v = false \/ exists s, v = VStr s)).

(** The title, the subtitle or the description of [p] contains [term],
    letter case apart. *)
Definition found_in (term : string) (p : value) : Prop :=
  exists field s,
    In field ["title"; "subtitle"; "description"] /\
    get p field = Ok (VStr s) /\
    SubstringNoCase term s.

(** The place of a number on the line of the integers: its value times
    [2^1074] (an integer for every number of the format), the infinities
    beyond every finite number. *)
Definition rank (x : number) : Z :=
  match x with
  | S754_zero _ | S754_nan => 0
  | S754_infinity neg => if neg then - 2 ^ 2100 else 2 ^ 2100
  | S754_finite neg m e =>
      if neg then - (Zpos m * 2 ^ (e + 1074)) else Zpos m * 2 ^ (e + 1074)
  end%Z.

(** The sort key of a product: [product.order || 0]. *)
Definition key (p : Product) : number := or_zero (order p).

(** ** Properties of computations *)

(** [c] does not change the field [f] of the store. *)
Definition keeps {A X : Type} (f : Store -> X) (c : M A) : Prop :=
  forall s, f (snd (c s)) = f s.

(** [c] only adds events to the trace, and events of [P] only. *)
Definition appends {A : Type} (P : Event -> Prop) (c : M A) : Prop :=
  forall s, exists evs, trace (snd (c s)) = (trace s ++ evs)%list /\ Forall P evs.

(** [c] returns. *)
Definition returns {A : Type} (c : M A) : Prop :=
  forall s, exists a, fst (c s) = Ok a.

(** An event that is neither the call of [fetchProducts] nor its
    request. *)
Definition no_products_fetch (e : Event) : Prop :=
  e <> EvCall MFetchProducts /\ e <> EvFetch (products_request []).

(** An event that is not the call of the fallback. *)
Definition no_fallback (e : Event) : Prop :=
  e <> EvCall MLoadProductsFromJSON.

End Spec.

Import Spec.

(* ================================================================== *)
(** * Sample records and networks                                      *)
(* ================================================================== *)

Module Samples.

Definition mug_record : value :=
  VObj [("id", VNum (of_Z 1)); ("title", VStr "Red Mug");
        ("description", VStr "A red mug"); ("price", VStr "10,50");
        ("Public", VBool true); ("gallery", VArr [])].

Definition untitled_record : value :=
  VObj [("id", VNum (of_Z 2)); ("title", VStr "");
        ("description", VStr "No title"); ("price", VStr "5");
        ("Public", VBool true); ("gallery", VArr [])].

Definition answer (data : value) : Outcome :=
  Answer {| status := 200; statusText := "OK"; body := Some data |}.

Definition one_bad_net : Network :=
  fun _ => answer (VObj [("results", VArr [mug_record; untitled_record])]).


(** No network at all. *)
Definition offline_net : Network := fun _ => NetworkFailure.

(** An entry of the local file with an empty title, an empty
    description, the price 0 and no public flag. *)
Definition blank_entry : value :=
  VObj [("id", VNum (of_Z 1)); ("title", VStr "");
        ("description", VStr ""); ("gallery", VArr []);
        ("price", VNum zero)].

(** No API, and a local file with [entries]. *)
Definition file_only_net (entries : list value) : Network :=
  fun req =>
    if String.eqb (url req) "./data/products.json"
    then answer (VObj [("products", VArr entries)])
    else NetworkFailure.

(** The two mugs of the scenario of the specification, as the API
    delivers them. *)
Definition red_mug_record : value :=
  VObj [("id", VNum (of_Z 1)); ("title", VStr "Red Mug");
        ("description", VStr "A red mug"); ("price", VStr "12.00");
        ("Public", VBool true); ("gallery", VArr []);
        ("order", VNum (of_Z 2))].

Definition blue_mug_record : value :=
  VObj [("id", VNum (of_Z 2)); ("title", VStr "Blue Mug");
        ("description", VStr "A blue mug"); ("price", VStr "9,50");
        ("Public", VBool true); ("gallery", VArr []);
        ("order", VNum (of_Z 1))].

Definition mugs_net : Network :=
  fun _ => answer (VObj [("results",
                          VArr [red_mug_record; blue_mug_record])]).

(** The store after the load of the two mugs. *)
Definition mugs_store : Store := snd (loadProducts true mugs_net initial).

(** A valid record of the API with a title and, or not, an order. *)
Definition titled (n : Z) (t : string) (o : option value) : value :=
  VObj ([("id", VNum (of_Z n)); ("title", VStr t);
         ("description", VStr "A product"); ("price", VNum (of_Z 5));
         ("Public", VBool true); ("gallery", VArr [])]
        ++ match o with Some v => [("order", v)] | None => [] end).

(** Five records, three of them with the key 0: no order, the order "0"
    and an order that is not a number. *)
Definition ties_net : Network :=
  fun _ => answer (VObj [("results",
    VArr [titled 1 "A" (Some (VNum (of_Z 2)));
          titled 2 "B" None;
          titled 3 "C" (Some (VStr "0"));
          titled 4 "D" (Some (VNum (of_Z 1)));
          titled 5 "E" (Some (VStr "soon"))])]).

(** The titles of a list of stored products. *)
Definition titles (l : list value) : list value :=
  map (fun p => lookup "title" (match p with VObj props => props | _ => [] end))
      l.

End Samples.

Import Samples.

(* ================================================================== *)
(** * The rest of the service and of the controller                    *)
(* ================================================================== *)

(** ** The search of the service *)

Module ServiceSearch.

Import ApiService.

(** [v.trim()]: a method of strings only. *)
Definition call_trim (v : value) : result string :=
  match v with
  | VStr s => Ok (trim s)
  | _ => Throw TypeError
  end.

(** [!searchTerm || searchTerm.trim().length === 0] *)
Definition is_blank (searchTerm : value) : result bool :=
  if negb (truthy searchTerm) then Ok true
  else (t <- call_trim searchTerm ;; Ok (negb (nonempty t)))%result.

Section Search.
Variable net : Network.

Local Open Scope eff_scope.

(** [searchProducts(searchTerm)] *)
Definition searchProducts (searchTerm : value)
    : M (list (option Product)) :=
  blank <- lift (is_blank searchTerm) ;;
  if blank then fetchProducts net []
  else
    try_catch
      (t <- lift (call_trim searchTerm) ;;
       fetchProducts net [("search", VStr t)])
      (fun error => throw error).

End Search.

End ServiceSearch.

(** ** The page: cards, modal and the clearing of the search *)

Module CatalogView.

Import ApiService ProductCatalog.

(** [v === n] for a number [n]: [v] is a number equal to [n] ([NaN] is
    equal to nothing, [0] to [-0]). *)
Definition strict_equal_number (v : value) (n : number) : bool :=
  match v with
  | VNum x => SFeqb x n
  | _ => false
  end.

(** [items.find(f)] for an [f] that may throw. *)
Fixpoint find_result (f : value -> result bool) (l : list value)
    : result (option value) :=
  match l with
  | [] => Ok None
  | a :: r => (b <- f a ;; if b then Ok (Some a) else find_result f r)%result
  end.

Local Open Scope eff_scope.

(** [clearSearch()]; the search field of the page, emptied and focused,
    is left out. *)
Definition clearSearch : M unit :=
  set_currentSearchTerm "" ;;
  all <- read products ;;
  set_filteredProducts all ;;
  emit (EvClearSearchHidden true) ;;
  renderProducts ;;
  updateResultsInfo.

(** [clearAllFilters()] *)
Definition clearAllFilters : M unit := clearSearch.

(** [openProductModal(productId)]: the value returned stands for the
    content handed to [renderProductModal], [None] when no product is
    found and the modal stays closed. *)
Definition openProductModal (productId : number) : M (option Safe.t) :=
  all <- read products ;;
  product <- lift (find_result
                     (fun p => (vid <- get p "id" ;;
                                Ok (strict_equal_number vid productId))%result)
                     all) ;;
  match product with
  | None => ret None
  | Some found =>
      safeProduct <- lift (sanitizeProductData found) ;;
      ret (Some safeProduct)
  end.

End CatalogView.

Import ServiceSearch CatalogView.

(** ** Statements about them *)

Module SpecView.

(** The first and the last character of a string. *)
Definition first_char (s : string) : option ascii :=
  match s with
  | EmptyString => None
  | String c _ => Some c
  end.

Fixpoint last_char (s : string) : option ascii :=
  match s with
  | EmptyString => None
  | String c EmptyString => Some c
  | String _ r => last_char r
  end.

(** No white space at either end. *)
Definition trimmed (s : string) : Prop :=
  (forall c, first_char s = Some c -> is_ws c = false) /\
  (forall c, last_char s = Some c -> is_ws c = false).

(** White space only. *)
Fixpoint all_ws (s : string) : bool :=
  match s with
  | EmptyString => true
  | String c r => is_ws c && all_ws r
  end.

(** The character [c] occurs in [s]. *)
Fixpoint occurs (c : ascii) (s : string) : bool :=
  match s with
  | EmptyString => false
  | String a r => Ascii.eqb a c || occurs c r
  end.

(** No character that opens or closes a tag. *)
Definition no_tag (s : string) : Prop :=
  occurs "<" s = false /\ occurs ">" s = false.

(** A character the serialisation of a text node copies. *)
Definition plain_char (c : ascii) : bool :=
  negb ((code c =? 38) || (code c =? 60) || (code c =? 62)
        || (code c =? 160))%N.

(** The same fields of the controller, the events apart. *)
Definition same_fields (s s' : Store) : Prop :=
  products s = products s' /\
  filteredProducts s = filteredProducts s' /\
  isLoading s = isLoading s' /\
  currentSearchTerm s = currentSearchTerm s'.

(** A whole number: zero, or a finite number whose value [m * 2^e] is an
    integer. *)
Definition whole (x : number) : Prop :=
  match x with
  | S754_zero _ => True
  | S754_finite _ m e => exists z : Z, (Zpos m * 2 ^ (e + 1074) = z * 2 ^ 1074)%Z
  | _ => False
  end.

(** The messages with which the primary path of a load fails. *)
Definition api_failure_text (m : string) : Prop :=
  m = "Serviço da API não está disponível"%string \/
  m = "Não foi possível conectar com a API. Verifique sua conexão ou configuração."%string \/
  m = "Nenhum produto público encontrado na API"%string \/
  m = "Nenhum produto válido encontrado"%string \/
  exists cause, m = ("Falha ao carregar produtos: " ++ cause)%string.

(** The store [s] after the events [evs]. *)
Definition add_events (s : Store) (evs : list Event) : Store :=
  {| products := products s;
     filteredProducts := filteredProducts s;
     isLoading := isLoading s;
     currentSearchTerm := currentSearchTerm s;
     trace := trace s ++ evs |}.

(** The store [s] after the list [l] is adopted and shown whole, with the
    events [evs]. *)
Definition adopt (s : Store) (l : list value) (evs : list Event) : Store :=
  {| products := l;
     filteredProducts := l;
     isLoading := isLoading s;
     currentSearchTerm := currentSearchTerm s;
     trace := trace s ++ evs |}.

(** The events of the primary path of a load up to the answer of the
    API. *)
Definition api_events : list Event :=
  [EvCall MTestConnection; EvFetch connection_request;
   EvCall MFetchProducts; EvFetch (products_request [])].

(** The events that show the list [l]. *)
Definition show_events (l : list value) : list Event :=
  [EvRender l; EvShowProducts; EvUpdateResultsInfo].

(** The message of the error panel when both paths of a load fail. *)
Definition both_failed_text (apiError jsonError : string) : string :=
  ("API indisponível: " ++ apiError
   ++ ". Arquivo local também falhou: " ++ jsonError)%string.

(** The store [s] after a search: the term, the list found, the events
    [evs]. *)
Definition searched (s : Store) (term : string) (found : list value)
    (evs : list Event) : Store :=
  {| products := products s;
     filteredProducts := found;
     isLoading := isLoading s;
     currentSearchTerm := term;
     trace := trace s ++ evs |}.

(** The search term as [handleSearch] stores it. *)
Definition normal (searchTerm : string) : string :=
  toLowerCase (trim searchTerm).

(** [null] and [undefined]: the values whose properties cannot be
    read. *)
Definition nullish (v : value) : bool :=
  match v with
  | VNull | VUndefined => true
  | _ => false
  end.

(** The store [s] with the list [l] stored and no card shown. *)
Definition with_lists (s : Store) (l : list value) : Store :=
  {| products := l;
     filteredProducts := l;
     isLoading := isLoading s;
     currentSearchTerm := currentSearchTerm s;
     trace := trace s |}.

(** The list the primary path of a load stores: the valid products of
    the fetched sequence, sorted. *)
Definition api_list (net : Network) (l : list value) : Prop :=
  exists fetched,
    (forall s, fst (fetchProducts net [] s) = Ok fetched) /\
    filter_valid fetched <> [] /\
    l = map as_value (sort by_order (filter_valid fetched)).

(** The list the fallback stores: the products of the local file, when
    the file is there and passes the validation. *)
Definition file_list (net : Network) (l : list value) : Prop :=
  exists response data,
    net file_request = Answer response /\
    ok response = true /\
    body response = Some data /\
    validateProductsData data = Ok true /\
    l = products_of data.

(** The cards of the list [l] can all be built; one of them cannot. *)
Definition renders (l : list value) : Prop :=
  exists cards, map_result createProductCard l = Ok cards.

Definition render_fails (l : list value) : Prop :=
  map_result createProductCard l = Throw TypeError.


(** The end of a search on the store [s], its filtered list assigned: the
    render, the products panel, the counter and the events [extra]; or
    the error of the render, the page as it was. *)
Definition render_outcome (s : Store) (extra : list Event)
    : result unit * Store :=
  match map_result createProductCard (filteredProducts s) with
  | Ok _ => (Ok tt, add_events s (show_events (filteredProducts s) ++ extra))
  | Throw e => (Throw e, s)
  end.

(** An event of the service: a call or a request, the page unchanged. *)
Definition service_event (e : Event) : Prop :=
  match e with
  | EvCall _ | EvFetch _ => True
  | _ => False
  end.

End SpecView.

Import SpecView.

(** ** More samples *)

Module ViewSamples.

(** A record of the API with white space around its texts, two images, a
    promotional price and an order written as strings. *)
Definition padded_record : value :=
  VObj [("id", VStr "7"); ("title", VStr "  Red Mug ");
        ("subtitle", VStr " large "); ("description", VStr " A red mug  ");
        ("price", VStr "10,50"); ("promotionalPrice", VStr "8");
        ("Public", VBool true);
        ("gallery", VArr [VObj [("url", VStr "a.png")]; VStr "b.png"]);
        ("order", VStr "1.5")].

(** Its transform. *)
Definition padded_product : Product :=
  {| id := of_Z 7; title := "Red Mug"; subtitle := Some "large"%string;
     description := "A red mug";
     gallery := [VStr "a.png"; VStr "b.png"];
     price := Some (parseFloat_str "10.5");
     promotionalPrice := Some (of_Z 8);
     public := true; rating := None;
     order := parseFloat_str "1.5" |}.

(** The red mug with one image that is [null]. *)
Definition null_image_record : value :=
  VObj [("id", VNum (of_Z 1)); ("title", VStr "Red Mug");
        ("description", VStr "A red mug"); ("price", VStr "10,50");
        ("Public", VBool true);
        ("gallery", VArr [VStr "a.png"; VNull])].

(** An entry of the local file that passes the validation with a
    subtitle that is a number. *)
Definition numbered_entry : value :=
  VObj [("id", VNum (of_Z 1)); ("title", VStr "Mug");
        ("subtitle", VNum (of_Z 3)); ("description", VStr "A mug");
        ("gallery", VArr []); ("price", VNum (of_Z 5))].

(** The store after the load of that file. *)
Definition numbered_store : Store :=
  snd (loadProducts true (file_only_net [numbered_entry]) initial).

(** An entry of the local file whose id is a string, and the store after
    the load of that file. *)
Definition string_id_entry : value :=
  VObj [("id", VStr "1"); ("title", VStr "Mug");
        ("description", VStr "A mug"); ("gallery", VArr []);
        ("price", VNum (of_Z 5))].

Definition string_id_store : Store :=
  snd (loadProducts true (file_only_net [string_id_entry]) initial).



(** A product of the page with markup in its title and in the address of
    its image. *)
Definition markup_entry : value :=
  VObj [("id", VNum (of_Z 1)); ("title", VStr "<b>Mug</b> & co");
        ("description", VStr "A mug");
        ("gallery", VArr [VStr "x.png?a=1&b=<2>"]);
        ("price", VNum (of_Z 5))].

(** A record of the API whose one image is an object with a key
    [toString] and no address, and a network that delivers it, without a
    local file. *)
Definition keyed_image_record : value :=
  VObj [("id", VNum (of_Z 1)); ("title", VStr "Mug");
        ("description", VStr "A mug"); ("price", VStr "5");
        ("Public", VBool true);
        ("gallery", VArr [VObj [("toString", VNum (of_Z 1))]])].

Definition keyed_image_net : Network :=
  fun req =>
    if String.eqb (url req) "./data/products.json"
    then NetworkFailure
    else answer (VObj [("results", VArr [keyed_image_record])]).

End ViewSamples.

Import ViewSamples.

(* ================================================================== *)
(** * Properties                                                       *)
(* ================================================================== *)

Local Open Scope list_scope.

(** ** Numbers *)

Lemma gt_zero_of_not_le (x : number) :
  isNaN x = false -> le x zero = false -> gt x zero = true.
Proof.
  destruct x as [s | s | | s m e]; try destruct s; cbv; congruence.
Qed.

Lemma gt_zero_not_le (x : number) :
  gt x zero = true -> le x zero = false /\ isNaN x = false.
Proof.
  destruct x as [s | s | | s m e]; try destruct s; cbv;
    intuition congruence.
Qed.

(** ** Strings *)

Lemma nonempty_true (s : string) : nonempty s = true <-> s <> "".
Proof.
  destruct s; simpl; split; intros; congruence.
Qed.

Lemma scan_digits_stop (digit : ascii -> option Z) radix s acc n :
  match s with
  | String c _ => digit c = None
  | EmptyString => True
  end ->
  scan_digits digit radix s acc n = (acc, n, s).
Proof.
  destruct s as [|c r]; simpl; intros H; [reflexivity | now rewrite H].
Qed.

Lemma not_digit_stop (s : string) :
  starts_with_digit s = false ->
  match s with
  | String c _ => digit_of c = None
  | EmptyString => True
  end.
Proof.
  destruct s as [|c r]; simpl; [trivial|].
  destruct (digit_of c); congruence.
Qed.

(** A string without a numeric prefix has no number to read. *)
Lemma parseFloat_str_no_prefix (s : string) :
  numeric_prefix s = false -> parseFloat_str s = nan.
Proof.
  unfold numeric_prefix, parseFloat_str.
  destruct (scan_sign (trimStart s)) as [neg s1]; simpl.
  intros H.
  apply orb_false_iff in H as [H Hdot].
  apply orb_false_iff in H as [Hinf Hdig].
  rewrite Hinf.
  rewrite (scan_digits_stop digit_of 10 s1 0 0 (not_digit_stop s1 Hdig)).
  destruct s1 as [|c r]; [reflexivity|].
  destruct (Ascii.eqb c ".") eqn:Hc; [|reflexivity].
  simpl in Hdot.
  rewrite (scan_digits_stop digit_of 10 r 0 0 (not_digit_stop r Hdot)).
  reflexivity.
Qed.

(** ** Binary64: digits and shifts *)

Local Open Scope Z_scope.

Lemma digits2_pos_size (p : positive) : digits2_pos p = Pos.size p.
Proof. induction p; simpl; congruence. Qed.

Lemma Zdigits2_log2 (m : Z) : 0 < m -> Zdigits2 m = Z.log2 m + 1.
Proof.
  destruct m as [|p|p]; try lia. intros _. simpl.
  rewrite digits2_pos_size. destruct p; simpl; lia.
Qed.

Lemma Zdigits2_nonneg (m : Z) : 0 <= Zdigits2 m.
Proof. destruct m; simpl; lia. Qed.

Lemma Zdigits2_pos (m : Z) : 0 < m -> 0 < Zdigits2 m.
Proof. destruct m; simpl; lia. Qed.

Lemma Zdigits2_bounds (m : Z) :
  0 < m -> 2 ^ (Zdigits2 m - 1) <= m < 2 ^ Zdigits2 m.
Proof.
  intros H. rewrite (Zdigits2_log2 H).
  replace (Z.log2 m + 1 - 1) with (Z.log2 m) by lia.
  apply Z.log2_spec, H.
Qed.

Lemma Zdigits2_ge (m k : Z) : 0 <= k -> 2 ^ k <= m -> k + 1 <= Zdigits2 m.
Proof.
  intros Hk H.
  assert (0 < m) by (pose proof (Z.pow_pos_nonneg 2 k); lia).
  rewrite Zdigits2_log2 by assumption.
  apply Z.log2_le_pow2 in H; lia.
Qed.

Lemma Zdigits2_shiftr (m n : Z) :
  0 <= m -> 0 <= n -> Zdigits2 (m / 2 ^ n) = Z.max 0 (Zdigits2 m - n).
Proof.
  intros Hm Hn.
  assert (Hp : 0 < 2 ^ n) by (apply Z.pow_pos_nonneg; lia).
  destruct (Z.eq_dec m 0) as [-> | Hm0].
  { rewrite Z.div_0_l by lia. simpl. lia. }
  assert (Hpos : 0 < m) by lia.
  rewrite (Zdigits2_log2 Hpos).
  destruct (Z_lt_le_dec m (2 ^ n)) as [Hlt | Hle].
  - rewrite Z.div_small by lia. simpl.
    apply Z.log2_lt_pow2 in Hlt; lia.
  - assert (Hq : 0 < m / 2 ^ n).
    { apply Z.div_str_pos. lia. }
    rewrite (Zdigits2_log2 Hq), <- Z.shiftr_div_pow2, Z.log2_shiftr by lia.
    apply Z.log2_le_pow2 in Hle; lia.
Qed.

Lemma Zdigits2_succ (m : Z) :
  0 <= m -> Zdigits2 m <= Zdigits2 (m + 1) <= Zdigits2 m + 1.
Proof.
  intros Hm. destruct (Z.eq_dec m 0) as [-> | Hm0]; [simpl; lia|].
  rewrite !Zdigits2_log2 by lia.
  pose proof (Z.log2_succ_le m). pose proof (Z.log2_le_mono m (m + 1)).
  unfold Z.succ in *. lia.
Qed.

Lemma shr_1_m (r : shr_record) :
  0 <= shr_m r -> shr_m (shr_1 r) = shr_m r / 2.
Proof.
  destruct r as [m b s]. simpl. intros Hm.
  rewrite <- Z.div2_div.
  destruct m as [|[p|p|]|p]; try reflexivity; lia.
Qed.

Lemma iter_pos_shr_1_m (p : positive) (r : shr_record) :
  0 <= shr_m r ->
  shr_m (iter_pos shr_1 p r) = shr_m r / 2 ^ Zpos p.
Proof.
  revert r. induction p as [p IH | p IH |]; intros r Hr; simpl iter_pos.
  - assert (H1 : 0 <= shr_m (shr_1 r))
      by (rewrite shr_1_m by assumption; apply Z.div_pos; lia).
    assert (Hp : 0 < 2 ^ Zpos p) by (apply Z.pow_pos_nonneg; lia).
    assert (H2 : 0 <= shr_m (iter_pos shr_1 p (shr_1 r)))
      by (rewrite IH by assumption; apply Z.div_pos; lia).
    rewrite IH, IH, shr_1_m by assumption.
    rewrite !Z.div_div by lia.
    f_equal.
    replace (Zpos p~1) with (Z.succ (2 * Zpos p)) by lia.
    rewrite Z.pow_succ_r, Z.pow_twice_r by lia. reflexivity.
  - assert (Hp : 0 < 2 ^ Zpos p) by (apply Z.pow_pos_nonneg; lia).
    assert (H2 : 0 <= shr_m (iter_pos shr_1 p r))
      by (rewrite IH by assumption; apply Z.div_pos; lia).
    rewrite IH, IH by assumption.
    rewrite !Z.div_div by lia.
    f_equal.
    replace (Zpos p~0) with (2 * Zpos p) by lia.
    rewrite Z.pow_twice_r. reflexivity.
  - rewrite shr_1_m by assumption. reflexivity.
Qed.

(** A shift to the right by [n] places, when [n] is positive. *)
Lemma shr_spec (r : shr_record) (e n : Z) :
  0 <= shr_m r ->
  shr_m (fst (shr r e n)) = shr_m r / 2 ^ Z.max 0 n /\
  snd (shr r e n) = e + Z.max 0 n.
Proof.
  intros Hr. destruct n as [|p|p]; simpl.
  - rewrite Z.div_1_r. lia.
  - rewrite iter_pos_shr_1_m by assumption. split; reflexivity.
  - rewrite Z.div_1_r. lia.
Qed.

Lemma shr_record_of_loc_m (m : Z) (l : location) :
  shr_m (shr_record_of_loc m l) = m.
Proof. destruct l as [|[]]; reflexivity. Qed.

Lemma round_nearest_even_bounds (m : Z) (l : location) :
  round_nearest_even m l = m \/ round_nearest_even m l = m + 1.
Proof.
  destruct l as [|[]]; simpl; auto. destruct (Z.even m); auto.
Qed.

(** ** Binary64: rounding *)

Lemma fexp_eq (z : Z) : fexp prec emax z = Z.max (z - 53) (-1074).
Proof. reflexivity. Qed.

(** The rounding of [mx * 2^ex] (with a position [l] of the rest) when
    the exponent is not above the one of the format: the result is a
    number of the format with the sign [s], and not zero when the value
    is at least the least positive number. *)
Lemma binary_round_aux_cases (s : bool) (mx ex : Z) (l : location) :
  0 <= mx ->
  ex <= fexp prec emax (Zdigits2 mx + ex) ->
  valid (binary_round_aux prec emax s mx ex l) = true /\
  (binary_round_aux prec emax s mx ex l = S754_zero s \/
   binary_round_aux prec emax s mx ex l = S754_infinity s \/
   exists m e, binary_round_aux prec emax s mx ex l = S754_finite s m e) /\
  (-1074 < Zdigits2 mx + ex ->
   binary_round_aux prec emax s mx ex l <> S754_zero s).
Proof.
  intros Hmx Hex.
  unfold binary_round_aux, shr_fexp.
  rewrite fexp_eq in Hex.
  (* first shift *)
  pose proof (@shr_spec (shr_record_of_loc mx l) ex
                (fexp prec emax (Zdigits2 mx + ex) - ex)) as H1.
  rewrite shr_record_of_loc_m in H1. specialize (H1 Hmx).
  destruct (shr (shr_record_of_loc mx l) ex
              (fexp prec emax (Zdigits2 mx + ex) - ex)) as [mrs1 e1].
  cbn [fst snd] in H1. destruct H1 as [Hm1 He1].
  rewrite fexp_eq in Hm1, He1.
  set (n1 := Z.max 0 (Z.max (Zdigits2 mx + ex - 53) (-1074) - ex)) in *.
  assert (Hn1 : 0 <= n1) by lia.
  assert (Hm1pos : 0 <= shr_m mrs1)
    by (rewrite Hm1; apply Z.div_pos; [lia | apply Z.pow_pos_nonneg; lia]).
  pose proof (Zdigits2_shiftr Hmx Hn1) as Hd1. rewrite <- Hm1 in Hd1.
  (* rounding *)
  set (m2 := round_nearest_even (shr_m mrs1) (loc_of_shr_record mrs1)).
  assert (Hm2 : m2 = shr_m mrs1 \/ m2 = shr_m mrs1 + 1)
    by apply round_nearest_even_bounds.
  assert (Hm2pos : 0 <= m2) by lia.
  assert (Hd2 : Zdigits2 (shr_m mrs1) <= Zdigits2 m2
                <= Zdigits2 (shr_m mrs1) + 1).
  { destruct Hm2 as [-> | ->]; [lia | now apply Zdigits2_succ]. }
  (* second shift *)
  pose proof (@shr_spec (shr_record_of_loc m2 loc_Exact) e1
                (fexp prec emax (Zdigits2 m2 + e1) - e1)) as H3.
  rewrite shr_record_of_loc_m in H3. specialize (H3 Hm2pos).
  destruct (shr (shr_record_of_loc m2 loc_Exact) e1
              (fexp prec emax (Zdigits2 m2 + e1) - e1)) as [mrs3 e3].
  cbn [fst snd] in H3. destruct H3 as [Hm3 He3].
  rewrite fexp_eq in Hm3, He3.
  set (n3 := Z.max 0 (Z.max (Zdigits2 m2 + e1 - 53) (-1074) - e1)) in *.
  assert (Hn3 : 0 <= n3) by lia.
  pose proof (Zdigits2_shiftr Hm2pos Hn3) as Hd3. rewrite <- Hm3 in Hd3.
  assert (Hm3pos : 0 <= shr_m mrs3)
    by (rewrite Hm3; apply Z.div_pos; [lia | apply Z.pow_pos_nonneg; lia]).
  pose proof (Zdigits2_nonneg mx) as Hd0.
  destruct (shr_m mrs3) as [|m3|m3] eqn:Em3; [| |lia].
  - (* zero *)
    split; [reflexivity|]. split; [auto|].
    intros Hbig _. simpl in Hd3. lia.
  - destruct (e3 <=? emax - prec) eqn:Ee3.
    + split; [|split; [eauto | discriminate]].
      unfold valid, valid_binary, bounded, canonical_mantissa.
      rewrite Ee3, andb_true_r. apply Z.eqb_eq.
      rewrite fexp_eq. change (Zpos (digits2_pos m3)) with (Zdigits2 (Zpos m3)).
      pose proof (Zdigits2_pos (m := Zpos m3) eq_refl).
      lia.
    + split; [reflexivity|]. split; [auto | discriminate].
Qed.

Lemma iter_xO_value (m d : positive) :
  Zpos (Pos.iter xO m d) = Zpos m * 2 ^ Zpos d.
Proof.
  induction d as [|d IH] using Pos.peano_ind.
  - simpl. lia.
  - rewrite Pos.iter_succ, Pos2Z.inj_xO, IH, Pos2Z.inj_succ,
      Z.pow_succ_r by lia. lia.
Qed.

Lemma Zdigits2_mul_pow2 (m n : Z) :
  0 < m -> 0 <= n -> Zdigits2 (m * 2 ^ n) = Zdigits2 m + n.
Proof.
  intros Hm Hn.
  assert (0 < m * 2 ^ n)
    by (apply Z.mul_pos_pos; [lia | apply Z.pow_pos_nonneg; lia]).
  rewrite !Zdigits2_log2, Z.log2_mul_pow2 by lia. lia.
Qed.

(** The mantissa aligned on a lower exponent has the same value. *)
Lemma shl_align_value (m : positive) (e e' : Z) :
  e' <= e ->
  Zpos (fst (shl_align m e e')) = Zpos m * 2 ^ (e - e') /\
  snd (shl_align m e e') = e'.
Proof.
  intros H. unfold shl_align.
  destruct (e' - e) as [|d|d] eqn:Hd; cbn [fst snd]; try lia.
  - replace (e - e') with 0 by lia. split; lia.
  - rewrite iter_xO_value. replace (e - e') with (Zpos d) by lia.
    split; reflexivity.
Qed.

(** The rounding of [p * 2^e]: a number of the format, not zero when
    [e] is an exponent of the format. *)
Lemma binary_round_cases (s : bool) (p : positive) (e : Z) :
  valid (binary_round prec emax s p e) = true /\
  (binary_round prec emax s p e = S754_zero s \/
   binary_round prec emax s p e = S754_infinity s \/
   exists m e', binary_round prec emax s p e = S754_finite s m e') /\
  (-1074 <= e -> binary_round prec emax s p e <> S754_zero s).
Proof.
  unfold binary_round.
  change (Zpos (digits2_pos p)) with (Zdigits2 (Zpos p)).
  pose proof (Zdigits2_pos (m := Zpos p) eq_refl) as Hd.
  destruct (Z_lt_le_dec (fexp prec emax (Zdigits2 (Zpos p) + e)) e)
    as [Hlt | Hle].
  - pose proof (@shl_align_value p e
                  (fexp prec emax (Zdigits2 (Zpos p) + e)) ltac:(lia))
      as [Hv He].
    destruct (shl_align p e (fexp prec emax (Zdigits2 (Zpos p) + e)))
      as [mz ez]. cbn [fst snd] in Hv, He. subst ez.
    assert (Hdz : Zdigits2 (Zpos mz)
                  = Zdigits2 (Zpos p)
                    + (e - fexp prec emax (Zdigits2 (Zpos p) + e))).
    { rewrite Hv. apply Zdigits2_mul_pow2; lia. }
    destruct (@binary_round_aux_cases s (Zpos mz)
                (fexp prec emax (Zdigits2 (Zpos p) + e)) loc_Exact)
      as (H1 & H2 & H3); [lia | |].
    { rewrite Hdz.
      replace (Zdigits2 (Zpos p)
               + (e - fexp prec emax (Zdigits2 (Zpos p) + e))
               + fexp prec emax (Zdigits2 (Zpos p) + e))
        with (Zdigits2 (Zpos p) + e) by lia.
      lia. }
    split; [exact H1|]. split; [exact H2|].
    intros He. apply H3. rewrite Hdz. lia.
  - assert (Hal : shl_align p e (fexp prec emax (Zdigits2 (Zpos p) + e))
                  = (p, e)).
    { unfold shl_align.
      destruct (fexp prec emax (Zdigits2 (Zpos p) + e) - e) eqn:E;
        try reflexivity; lia. }
    rewrite Hal.
    destruct (@binary_round_aux_cases s (Zpos p) e loc_Exact)
      as (H1 & H2 & H3); [lia | exact Hle |].
    split; [exact H1|]. split; [exact H2|].
    intros He. apply H3. lia.
Qed.

(** The quotient of two integers, as the division prepares it for the
    rounding. *)
Lemma div_core_cases (m y : positive) :
  0 <= fst (fst (SFdiv_core_binary prec emax (Zpos m) 0 (Zpos y) 0)) /\
  snd (fst (SFdiv_core_binary prec emax (Zpos m) 0 (Zpos y) 0))
  <= fexp prec emax
       (Zdigits2 (fst (fst (SFdiv_core_binary prec emax
                              (Zpos m) 0 (Zpos y) 0)))
        + snd (fst (SFdiv_core_binary prec emax (Zpos m) 0 (Zpos y) 0))).
Proof.
  unfold SFdiv_core_binary.
  set (d1 := Zdigits2 (Zpos m)). set (d2 := Zdigits2 (Zpos y)).
  pose proof (Zdigits2_bounds (m := Zpos m) eq_refl) as Hb1.
  pose proof (Zdigits2_bounds (m := Zpos y) eq_refl) as Hb2.
  pose proof (Zdigits2_pos (m := Zpos m) eq_refl) as Hp1.
  pose proof (Zdigits2_pos (m := Zpos y) eq_refl) as Hp2.
  fold d1 in Hb1, Hp1. fold d2 in Hb2, Hp2.
  replace (d1 + 0 - (d2 + 0)) with (d1 - d2) by lia.
  rewrite fexp_eq. cbn [Z.sub Z.opp Z.add].
  set (e' := Z.min (Z.max (d1 - d2 - 53) (-1074)) 0).
  set (sh := - e').
  assert (Hsh : 0 <= sh) by lia.
  set (m' := match sh with
             | 0 => Zpos m
             | Zpos _ => Z.shiftl (Zpos m) sh
             | Zneg _ => 0
             end).
  assert (Hm' : m' = Zpos m * 2 ^ sh).
  { subst m'. destruct sh eqn:E; try lia.
    rewrite Z.shiftl_mul_pow2 by lia. reflexivity. }
  pose proof (Z.pow_pos_nonneg 2 sh ltac:(lia) Hsh) as Hpow.
  assert (Hq : Z.div_eucl m' (Zpos y) = (m' / Zpos y, m' mod Zpos y)).
  { unfold Z.div, Z.modulo. now destruct (Z.div_eucl m' (Zpos y)). }
  rewrite Hq. cbn [fst snd].
  assert (Hq0 : 0 <= m' / Zpos y) by (apply Z.div_pos; nia).
  split; [exact Hq0|].
  rewrite fexp_eq.
  assert (Hdq : d1 - d2 + sh <= Zdigits2 (m' / Zpos y)).
  { pose proof (Zdigits2_nonneg (m' / Zpos y)).
    destruct (Z_le_gt_dec (d1 - d2 + sh) 0) as [|Hk]; [lia|].
    replace (d1 - d2 + sh) with ((d1 - d2 + sh - 1) + 1) by lia.
    apply Zdigits2_ge; [lia|].
    apply Z.div_le_lower_bound; [lia|].
    rewrite Hm'.
    assert (Hy : Zpos y * 2 ^ (d1 - d2 + sh - 1)
                 <= 2 ^ d2 * 2 ^ (d1 - d2 + sh - 1)).
    { apply Z.mul_le_mono_nonneg_r; [|lia].
      apply Z.lt_le_incl, Z.pow_pos_nonneg; lia. }
    rewrite <- Z.pow_add_r in Hy by lia.
    replace (d2 + (d1 - d2 + sh - 1)) with ((d1 - 1) + sh) in Hy by lia.
    rewrite Z.pow_add_r in Hy by lia.
    nia. }
  lia.
Qed.

(** The rounding of a decimal literal is a number of the format. *)
Lemma of_decimal_valid (neg : bool) (m : positive) (e10 : Z) :
  valid (of_decimal neg m e10) = true.
Proof.
  unfold of_decimal. destruct e10 as [|k|k].
  - apply binary_round_cases.
  - apply binary_round_cases.
  - pose proof (div_core_cases m (10 ^ k)) as [H0 H1].
    destruct (SFdiv_core_binary prec emax (Zpos m) 0 (Zpos (10 ^ k)) 0)
      as [[q e2] l].
    cbn [fst snd] in H0, H1.
    now apply binary_round_aux_cases.
Qed.

Lemma parseFloat_str_valid (s : string) : valid (parseFloat_str s) = true.
Proof.
  unfold parseFloat_str.
  repeat match goal with
         | |- context [match ?x with _ => _ end] => destruct x
         end;
    try reflexivity; apply of_decimal_valid.
Qed.

(** ** Binary64: the order of the numbers *)

Lemma valid_finite (s : bool) (m : positive) (e : Z) :
  valid (S754_finite s m e) = true ->
  -1074 <= e <= 971 /\
  Zdigits2 (Zpos m) <= 53 /\
  (e = -1074 \/ Zdigits2 (Zpos m) = 53).
Proof.
  unfold valid, valid_binary, bounded, canonical_mantissa.
  rewrite andb_true_iff, Z.eqb_eq, Z.leb_le, fexp_eq.
  change (Zpos (digits2_pos m)) with (Zdigits2 (Zpos m)).
  change (emax - prec) with 971.
  pose proof (Zdigits2_pos (m := Zpos m) eq_refl). lia.
Qed.

Lemma pow2_split (a b : Z) : 0 <= a -> 0 <= b -> 2 ^ (a + b) = 2 ^ a * 2 ^ b.
Proof. intros. apply Z.pow_add_r; assumption. Qed.

(** The value of a finite number of the format, times [2^1074]. *)
Lemma finite_rank_bounds (s : bool) (m : positive) (e : Z) :
  valid (S754_finite s m e) = true ->
  0 < Zpos m * 2 ^ (e + 1074) < 2 ^ 2100.
Proof.
  intros H. apply valid_finite in H as (He & Hd & _).
  pose proof (Zdigits2_bounds (m := Zpos m) eq_refl) as [_ Hm].
  assert (Hm53 : Zpos m < 2 ^ 53).
  { eapply Z.lt_le_trans; [exact Hm|]. apply Z.pow_le_mono_r; lia. }
  assert (Hk : 0 < 2 ^ (e + 1074)) by (apply Z.pow_pos_nonneg; lia).
  split; [lia|].
  assert (Hk2 : 2 ^ (e + 1074) <= 2 ^ 2045)
    by (apply Z.pow_le_mono_r; lia).
  assert (H2100 : 2 ^ 2100 = 2 ^ 53 * 2 ^ 2045 * 2 ^ 2).
  { rewrite <- !pow2_split by lia. reflexivity. }
  rewrite H2100.
  assert (0 < 2 ^ 53) by (apply Z.pow_pos_nonneg; lia).
  assert (0 < 2 ^ 2045) by (apply Z.pow_pos_nonneg; lia).
  change (2 ^ 2) with 4. nia.
Qed.

Lemma switch_Eq_Eq (c : comparison) : Pos.switch_Eq Eq c = c.
Proof. now destruct c. Qed.

(** Two positive numbers of the format compare as their exponents, then
    as their mantissas. *)
Lemma canonical_compare (s1 s2 : bool) (m1 m2 : positive) (e1 e2 : Z) :
  valid (S754_finite s1 m1 e1) = true ->
  valid (S754_finite s2 m2 e2) = true ->
  match e1 ?= e2 with
  | Lt => Lt
  | Gt => Gt
  | Eq => Pos.compare_cont Eq m1 m2
  end
  = (Zpos m1 * 2 ^ (e1 + 1074) ?= Zpos m2 * 2 ^ (e2 + 1074)).
Proof.
  intros H1 H2.
  apply valid_finite in H1 as (He1 & Hd1 & Hn1).
  apply valid_finite in H2 as (He2 & Hd2 & Hn2).
  pose proof (Zdigits2_bounds (m := Zpos m1) eq_refl) as [Hl1 Hu1].
  pose proof (Zdigits2_bounds (m := Zpos m2) eq_refl) as [Hl2 Hu2].
  assert (Hlt : forall ma mb ea eb,
             -1074 <= ea -> ea < eb ->
             Zpos ma < 2 ^ Zdigits2 (Zpos ma) ->
             Zdigits2 (Zpos ma) <= 53 ->
             2 ^ (Zdigits2 (Zpos mb) - 1) <= Zpos mb ->
             Zdigits2 (Zpos mb) = 53 ->
             Zpos ma * 2 ^ (ea + 1074) < Zpos mb * 2 ^ (eb + 1074)).
  { intros ma mb ea eb Hea Hab Hua Hda Hlb Hdb.
    rewrite Hdb in Hlb. change (53 - 1) with 52 in Hlb.
    assert (Hma : Zpos ma < 2 ^ 53).
    { eapply Z.lt_le_trans; [exact Hua|]. apply Z.pow_le_mono_r; lia. }
    replace (eb + 1074) with ((ea + 1074) + (eb - ea)) by lia.
    rewrite (@pow2_split (ea + 1074) (eb - ea)) by lia.
    assert (Hk : 0 < 2 ^ (ea + 1074)) by (apply Z.pow_pos_nonneg; lia).
    assert (Hg : 2 ^ 1 <= 2 ^ (eb - ea)) by (apply Z.pow_le_mono_r; lia).
    change (2 ^ 1) with 2 in Hg.
    assert (H53 : 2 ^ 53 = 2 * 2 ^ 52) by reflexivity.
    rewrite H53 in Hma.
    assert (H52 : 0 < 2 ^ 52) by (apply Z.pow_pos_nonneg; lia).
    generalize dependent (2 ^ 52). intros P Hlb Hma HP.
    generalize dependent (2 ^ (ea + 1074)). intros K HK.
    generalize dependent (2 ^ (eb - ea)). intros G HG.
    assert (Zpos ma * K < 2 * P * K) by nia.
    assert (P * K <= Zpos mb * K) by nia.
    assert (2 * (Zpos mb * K) <= G * (Zpos mb * K)) by nia.
    replace (Zpos mb * (K * G)) with (G * (Zpos mb * K)) by ring.
    lia. }
  destruct (Z.compare_spec e1 e2) as [-> | Hc | Hc].
  - rewrite Pos.compare_cont_spec, switch_Eq_Eq, Pos2Z.inj_compare.
    apply Zmult_compare_compat_r.
    assert (0 < 2 ^ (e2 + 1074)) by (apply Z.pow_pos_nonneg; lia). lia.
  - symmetry. apply Z.compare_lt_iff. apply Hlt; lia.
  - symmetry. apply Z.compare_gt_iff. apply Hlt; lia.
Qed.

Ltac cmp_solve :=
  f_equal;
  try (symmetry;
       first [ apply Z.compare_eq_iff; lia
             | apply Z.compare_lt_iff; lia
             | apply Z.compare_gt_iff; lia ]).

(** On the numbers of the format that are not [NaN], the comparison is
    the comparison of the ranks. *)
Lemma compare_rank (x y : number) :
  valid x = true -> valid y = true ->
  isNaN x = false -> isNaN y = false ->
  SFcompare x y = Some (rank x ?= rank y).
Proof.
  intros Hx Hy Nx Ny.
  assert (Hinf : 0 < 2 ^ 2100) by (apply Z.pow_pos_nonneg; lia).
  destruct x as [sx | sx | | sx mx ex]; try discriminate;
  destruct y as [sy | sy | | sy my ey]; try discriminate;
  try pose proof (@finite_rank_bounds _ _ _ Hx) as Bx;
  try pose proof (@finite_rank_bounds _ _ _ Hy) as By;
  cbn [SFcompare rank].
  - reflexivity.
  - destruct sy; cmp_solve.
  - destruct sy; cmp_solve.
  - destruct sx; cmp_solve.
  - destruct sx, sy; cmp_solve.
  - destruct sx, sy; cmp_solve.
  - destruct sx; cmp_solve.
  - destruct sx, sy; cmp_solve.
  - pose proof (@canonical_compare _ _ _ _ _ _ Hx Hy) as Hc.
    destruct sx, sy; f_equal.
    + rewrite Z.compare_opp, (Z.compare_antisym _ (Zpos my * _)), <- Hc.
      destruct (ex ?= ey); try reflexivity.
    + symmetry. apply Z.compare_lt_iff. lia.
    + symmetry. apply Z.compare_gt_iff. lia.
    + exact Hc.
Qed.

Lemma gt_zero_cases (z : number) :
  gt z zero
  = match z with
    | S754_infinity false | S754_finite false _ _ => true
    | _ => false
    end.
Proof. destruct z as [[]|[]| |[] m e]; reflexivity. Qed.

(** The difference of two numbers of the format is positive exactly when
    the first one is the greater: the rounding of a difference that is
    not zero is not zero. *)
Lemma sub_rank (x y : number) :
  valid x = true -> valid y = true ->
  isNaN x = false -> isNaN y = false ->
  gt (sub x y) zero = (rank y <? rank x).
Proof.
  intros Hx Hy Nx Ny.
  assert (Hinf : 0 < 2 ^ 2100) by (apply Z.pow_pos_nonneg; lia).
  rewrite gt_zero_cases.
  destruct x as [sx | sx | | sx mx ex]; try discriminate;
  destruct y as [sy | sy | | sy my ey]; try discriminate;
  try pose proof (@finite_rank_bounds _ _ _ Hx) as Bx;
  try pose proof (@finite_rank_bounds _ _ _ Hy) as By;
  cbn [sub SFsub rank].
  - destruct sx, sy; reflexivity.
  - destruct sy; cbn [negb]; symmetry;
      [apply Z.ltb_lt | apply Z.ltb_ge]; lia.
  - destruct sy; cbn [negb]; symmetry;
      [apply Z.ltb_lt | apply Z.ltb_ge]; lia.
  - destruct sx; symmetry; [apply Z.ltb_ge | apply Z.ltb_lt]; lia.
  - destruct sx, sy; symmetry;
      first [apply Z.ltb_ge; lia | apply Z.ltb_lt; lia].
  - destruct sx, sy; symmetry;
      first [apply Z.ltb_ge; lia | apply Z.ltb_lt; lia].
  - destruct sx; symmetry; [apply Z.ltb_ge | apply Z.ltb_lt]; lia.
  - destruct sx, sy; cbn [negb]; symmetry;
      first [apply Z.ltb_ge; lia | apply Z.ltb_lt; lia].
  - apply valid_finite in Hx as (Hex & _). apply valid_finite in Hy as (Hey & _).
    set (ez := Z.min ex ey).
    destruct (@shl_align_value mx ex ez ltac:(lia)) as [Ha _].
    destruct (@shl_align_value my ey ez ltac:(lia)) as [Hb _].
    rewrite Ha, Hb.
    set (K := 2 ^ (ez + 1074)).
    assert (HK : 0 < K) by (apply Z.pow_pos_nonneg; lia).
    assert (Hrx : Zpos mx * 2 ^ (ex + 1074) = Zpos mx * 2 ^ (ex - ez) * K).
    { unfold K. rewrite <- Z.mul_assoc, <- pow2_split by lia.
      do 2 f_equal. lia. }
    assert (Hry : Zpos my * 2 ^ (ey + 1074) = Zpos my * 2 ^ (ey - ez) * K).
    { unfold K. rewrite <- Z.mul_assoc, <- pow2_split by lia.
      do 2 f_equal. lia. }
    rewrite Hrx, Hry.
    set (A := Zpos mx * 2 ^ (ex - ez)). set (B := Zpos my * 2 ^ (ey - ez)).
    assert (Hd : ((if sy then - (B * K) else B * K)
                  <? (if sx then - (A * K) else A * K))
                 = (0 <? cond_Zopp sx A - cond_Zopp sy B)).
    { clearbody A B K.
      destruct sx, sy; cbn [cond_Zopp]; apply Bool.eq_true_iff_eq;
        rewrite !Z.ltb_lt; split; nia. }
    rewrite Hd.
    destruct (cond_Zopp sx A - cond_Zopp sy B) as [|p|p];
      cbn [binary_normalize].
    + reflexivity.
    + destruct (binary_round_cases false p ez) as (_ & Hc & Hnz).
      specialize (Hnz ltac:(lia)).
      destruct Hc as [Hc | [Hc | (m & e & Hc)]]; rewrite Hc in *;
        [congruence | reflexivity | reflexivity].
    + destruct (binary_round_cases true p ez) as (_ & Hc & _).
      destruct Hc as [Hc | [Hc | (m & e & Hc)]]; rewrite Hc; reflexivity.
Qed.

Lemma le_rank (x y : number) :
  valid x = true -> valid y = true ->
  isNaN x = false -> isNaN y = false ->
  le x y = (rank x <=? rank y).
Proof.
  intros Hx Hy Nx Ny. unfold le, SFleb.
  rewrite (@compare_rank x y Hx Hy Nx Ny), Z.leb_compare.
  now destruct (rank x ?= rank y).
Qed.

(** Two equal numbers have the same rank. *)
Lemma eqb_rank (a k : number) : SFeqb a k = true -> rank a = rank k.
Proof.
  unfold SFeqb.
  destruct a as [sa | sa | | sa ma ea], k as [sk | sk | | sk mk ek];
    cbn [SFcompare rank]; try discriminate;
    try (destruct sa; discriminate); try (destruct sk; discriminate);
    try reflexivity.
  - destruct sa, sk; try discriminate; reflexivity.
  - destruct sa, sk; try discriminate;
      destruct (Z.compare_spec ea ek) as [-> | |]; try discriminate;
      rewrite Pos.compare_cont_spec, switch_Eq_Eq;
      destruct (Pos.compare_spec ma mk) as [-> | |]; try discriminate;
      reflexivity.
Qed.

Lemma or_zero_good (x : number) :
  valid x = true ->
  valid (or_zero x) = true /\ isNaN (or_zero x) = false.
Proof.
  intros H. unfold or_zero.
  destruct x as [s | s | | s m e]; cbn [num_truthy]; auto.
Qed.

Lemma or_zero_not_nan (x : number) : isNaN (or_zero x) = false.
Proof. unfold or_zero. now destruct x. Qed.

Lemma of_decimal_not_nan (neg : bool) (m : positive) (e10 : Z) :
  isNaN (of_decimal neg m e10) = false.
Proof.
  assert (H : of_decimal neg m e10 = S754_zero neg \/
              of_decimal neg m e10 = S754_infinity neg \/
              exists m' e', of_decimal neg m e10 = S754_finite neg m' e').
  { unfold of_decimal. destruct e10 as [|k|k].
    - apply binary_round_cases.
    - apply binary_round_cases.
    - pose proof (div_core_cases m (10 ^ k)) as [H0 H1].
      destruct (SFdiv_core_binary prec emax (Zpos m) 0 (Zpos (10 ^ k)) 0)
        as [[q e2] l].
      cbn [fst snd] in H0, H1.
      now apply binary_round_aux_cases. }
  destruct H as [-> | [-> | (m' & e' & ->)]]; reflexivity.
Qed.

Lemma scan_digits_count (digit : ascii -> option Z) radix s acc n :
  n <= snd (fst (scan_digits digit radix s acc n)) /\
  (starts_with_digit s = true -> digit = digit_of ->
   n < snd (fst (scan_digits digit radix s acc n))).
Proof.
  revert acc n. induction s as [|c r IH]; intros acc n; cbn [scan_digits].
  - cbn. split; [lia | discriminate].
  - destruct (digit c) as [d|] eqn:Hd.
    + destruct (IH (radix * acc + d) (n + 1)) as [Hle _].
      split; [lia | intros; lia].
    + cbn [fst snd]. split; [lia|].
      intros Hs ->. cbn in Hs. now rewrite Hd in Hs.
Qed.

(** A string with a numeric prefix has a number to read: with the lemma
    on the strings without one, [numeric_prefix] is the domain of
    [parseFloat]. *)
Lemma parseFloat_str_numeric (s : string) :
  isNaN (parseFloat_str s) = negb (numeric_prefix s).
Proof.
  destruct (numeric_prefix s) eqn:Hn;
    [|now rewrite (parseFloat_str_no_prefix _ Hn)].
  cbn [negb]. revert Hn. unfold numeric_prefix, parseFloat_str.
  destruct (scan_sign (trimStart s)) as [neg s1]. cbn [snd].
  destruct (startsWith s1 "Infinity"); [reflexivity|]. cbn [orb].
  intros Hn.
  pose proof (scan_digits_count digit_of 10 s1 0 0) as [Hi0 Hi1].
  destruct (scan_digits digit_of 10 s1 0 0) as [[ip ni] r1] eqn:Hscan.
  cbn [fst snd] in Hi0, Hi1.
  assert (Hcount : forall m nf r2,
             0 <= nf -> 0 < ni + nf ->
             isNaN (if ni + nf =? 0 then nan
                    else match m with
                         | Zpos p => of_decimal neg p (scan_exponent r2 - nf)
                         | _ => S754_zero neg
                         end) = false).
  { intros m nf r2 H0 H1.
    destruct (Z.eqb_spec (ni + nf) 0); [lia|].
    destruct m; try reflexivity. apply of_decimal_not_nan. }
  destruct (starts_with_digit s1) eqn:Hd.
  - specialize (Hi1 eq_refl eq_refl).
    destruct r1 as [|c r];
      [apply Hcount; lia|].
    destruct (Ascii.eqb c ".").
    + pose proof (scan_digits_count digit_of 10 r ip 0) as [Hf0 _].
      destruct (scan_digits digit_of 10 r ip 0) as [[m nf] r2].
      cbn [fst snd] in Hf0. apply Hcount; lia.
    + apply Hcount; lia.
  - cbn [orb] in Hn.
    destruct s1 as [|c r]; [discriminate|].
    apply andb_true_iff in Hn as [Hc Hr].
    rewrite (scan_digits_stop digit_of 10 (String c r) 0 0
               (not_digit_stop _ Hd)) in Hscan.
    injection Hscan as <- <- <-. rewrite Hc.
    pose proof (scan_digits_count digit_of 10 r 0 0) as [_ Hf1].
    specialize (Hf1 Hr eq_refl).
    destruct (scan_digits digit_of 10 r 0 0) as [[m nf] r2].
    cbn [fst snd] in Hf1. apply Hcount; lia.
Qed.

Local Close Scope Z_scope.

(** ** Conversions *)

(** A conversion to a string throws nothing but a [TypeError]. *)
Lemma ToString_throws : forall (v : value) (e : error),
  ToString v = Throw e -> e = TypeError.
Proof.
  fix IH 1. intros v e. destruct v as [| |b|x|s|items|props];
    cbn [ToString]; try discriminate.
  - revert e. revert items. fix IHr 1. intros items e.
    destruct items as [|a r]; [discriminate|].
    destruct (match a with
              | VUndefined | VNull => Ok ""%string
              | _ => ToString a
              end) as [sa|ea] eqn:Ha.
    + pose proof (IHr r) as Hrec.
      destruct r as [|b r']; [discriminate|].
      match goal with
      | |- match ?j with _ => _ end = _ -> _ =>
          destruct j as [rest|er] eqn:Hj; [discriminate|]
      end.
      intros [= <-]. now apply Hrec.
    + pose proof (IH a) as Hrec.
      intros [= <-]. destruct a; try discriminate; now apply Hrec.
  - destruct (has_key "toString" props); congruence.
Qed.

Lemma parseFloat_throws (v : value) (e : error) :
  parseFloat v = Throw e -> ToString v = Throw e /\ e = TypeError.
Proof.
  unfold parseFloat. destruct (ToString v) eqn:H; [discriminate|].
  intros [= <-]. split; [reflexivity | now apply (ToString_throws v)].
Qed.

Lemma parseInt_throws (v : value) (e : error) :
  parseInt v = Throw e -> ToString v = Throw e /\ e = TypeError.
Proof.
  unfold parseInt. destruct (ToString v) eqn:H; [discriminate|].
  intros [= <-]. split; [reflexivity | now apply (ToString_throws v)].
Qed.

Lemma parseFloat_valid (v : value) (x : number) :
  parseFloat v = Ok x -> valid x = true.
Proof.
  unfold parseFloat. destruct (ToString v); [|discriminate].
  intros [= <-]. apply parseFloat_str_valid.
Qed.

(** ** parsePrice *)

Lemma parsePrice_positive (price : value) (x : number) :
  parsePrice price = Ok (Some x) -> gt x zero = true.
Proof.
  unfold parsePrice.
  destruct (negb (truthy price) || _); [discriminate|].
  match goal with
  | |- and_then ?r _ = _ -> _ => destruct r as [n|]; [|discriminate]
  end.
  cbn [and_then].
  destruct (isNaN n) eqn:Hn; destruct (le n zero) eqn:Hl; simpl;
    try discriminate; intros [= <-]; now apply gt_zero_of_not_le.
Qed.

Lemma parsePrice_valid (price : value) (x : number) :
  parsePrice price = Ok (Some x) -> valid x = true.
Proof.
  unfold parsePrice.
  destruct (negb (truthy price) || _); [discriminate|].
  destruct price; cbn [and_then];
    try (destruct (parseFloat _) as [n|] eqn:Hp; cbn [and_then];
         [|discriminate];
         destruct (isNaN n || le n zero); [discriminate|];
         intros [= <-]; now apply parseFloat_valid in Hp).
  destruct (isNaN _ || le _ zero); [discriminate|].
  intros [= <-]. apply parseFloat_str_valid.
Qed.

(** Against C3: a string that starts with a number and goes on with other
    text is not a numeric string, and [parsePrice] reads the number at its
    start: 12 from "12abc", 10 from "10 reais", and 1.234 from
    "1.234,56", where the comma is the decimal separator. *)
Lemma parsePrice_reads_numeric_prefix :
  number_text "12abc" = false /\
  parsePrice (VStr "12abc") = Ok (Some (of_Z 12)) /\
  number_text "10 reais" = false /\
  parsePrice (VStr "10 reais") = Ok (Some (of_Z 10)) /\
  number_text "1.234,56" = false /\
  parsePrice (VStr "1.234,56") = Ok (Some (parseFloat_str "1.234")) /\
  ~ (forall s, number_text s = false -> parsePrice (VStr s) = Ok None).
Proof.
  split; [reflexivity|].
  split; [vm_compute; reflexivity|].
  split; [reflexivity|].
  split; [vm_compute; reflexivity|].
  split; [reflexivity|].
  split; [vm_compute; reflexivity|].
  intros H. specialize (H "12abc"%string eq_refl).
  vm_compute in H. discriminate.
Qed.

(** C3, amended.  [parsePrice] reads "10,50" as 10.5 = 21/2; the number
    0, the string "0.00", and every value that reads as a number at most
    0 give [null], so that the result is never 0; a string without a
    numeric prefix, the first comma read as a dot, gives [null], as "abc"
    does.  A string is read up to the end of its numeric prefix: the
    result for a string is decided by the number [parseFloat] finds at
    its start, whatever follows.  It throws on the values that have no
    conversion to a string, and on these only. *)
Theorem parsePrice_spec :
  parsePrice (VStr "10,50")
    = Ok (Some (SFdiv prec emax (of_Z 21) (of_Z 2))) /\
  parsePrice (VNum zero) = Ok None /\
  parsePrice (VStr "0.00") = Ok None /\
  (forall s, le (parseFloat_str (replace_first "," "." s)) zero = true ->
             parsePrice (VStr s) = Ok None) /\
  (forall price x, is_string price = false ->
                   parseFloat price = Ok x ->
                   le x zero = true ->
                   parsePrice price = Ok None) /\
  (forall price x, parsePrice price = Ok (Some x) ->
                   gt x zero = true /\ x <> zero) /\
  (forall s, numeric_prefix (replace_first "," "." s) = false ->
             parsePrice (VStr s) = Ok None) /\
  parsePrice (VStr "abc") = Ok None /\
  (forall s, nonempty s = true -> s <> "0.00"%string ->
             parsePrice (VStr s)
             = Ok (let x := parseFloat_str (replace_first "," "." s) in
                   if isNaN x || le x zero then None else Some x)) /\
  (forall price e, parsePrice price = Throw e ->
                   is_string price = false /\ ToString price = Throw e).
Proof.
  split; [vm_compute; reflexivity|].
  split; [reflexivity|].
  split; [reflexivity|].
  split.
  { intros s H. unfold parsePrice. cbn [and_then].
    rewrite H, orb_true_r. now destruct (negb _ || _). }
  split.
  { intros price x Hs Hx H. unfold parsePrice.
    destruct (negb _ || _); [reflexivity|].
    destruct price; try discriminate; rewrite Hx; cbn [and_then];
      now rewrite H, orb_true_r. }
  split.
  { intros price x H. pose proof (parsePrice_positive _ H) as Hx.
    split; [exact Hx|]. intros ->. discriminate. }
  split.
  { intros s H. unfold parsePrice. cbn [and_then].
    rewrite (parseFloat_str_no_prefix _ H). simpl.
    now destruct (negb _ || _). }
  split; [reflexivity|].
  split.
  { intros s Hs Hne. unfold parsePrice. cbn [truthy]. rewrite Hs.
    cbn [negb orb].
    destruct (String.eqb_spec s "0.00") as [->|_]; [now elim Hne|].
    reflexivity. }
  intros price e. unfold parsePrice.
  destruct (negb (truthy price) || _); [discriminate|].
  destruct price; cbn [and_then is_string];
    try (destruct (parseFloat _) as [n|e'] eqn:Hp; cbn [and_then];
         [discriminate|]; intros [= <-];
         apply parseFloat_throws in Hp as [Hp _]; now split).
  discriminate.
Qed.

(** ** transformProduct *)

Lemma isValidProduct_iff (p : Product) :
  isValidProduct p = true <-> product_invariant p.
Proof.
  unfold isValidProduct, product_invariant.
  rewrite !andb_true_iff, !nonempty_true, eqb_true_iff.
  split.
  - intros [[[[Hid Ht] Hd] Hp] Hpub]. repeat split; trivial.
    destruct (price p) as [x|]; [|discriminate]. now exists x.
  - intros (Hid & Ht & Hd & (x & Hx & Hpos) & Hpub).
    rewrite Hx. now repeat split.
Qed.

Lemma transformProduct_Some (apiProduct : value) (p : Product) :
  transformProduct apiProduct = Some p <->
  transformed apiProduct = Ok p /\ product_invariant p.
Proof.
  unfold transformProduct. rewrite <- isValidProduct_iff.
  destruct (transformed apiProduct) as [t|e].
  - destruct (isValidProduct t) eqn:Hv; simpl; split.
    + intros [= <-]. now split.
    + now intros [[= <-] _].
    + discriminate.
    + intros [[= <-] H]. congruence.
  - split; [discriminate | now intros [? _]].
Qed.

(** The steps of a transform that succeeds, each with its equation. *)
Ltac open_transformed H :=
  unfold transformed in H;
  repeat match type of H with
         | and_then ?r _ = Ok _ =>
             let E := fresh "G" in
             destruct r eqn:E; cbn [and_then] in H; [|discriminate]
         end;
  injection H as H.

(** C7.  [transformProduct] returns [null] for every record whose
    transformed object breaks an invariant of products: an id that is not
    positive, an empty title or description, a price that is absent or
    not positive, or a public flag that is not [true] (the id is a number
    and the gallery an array by construction); so it does when building
    the object throws.  Being a function into [option], it never raises,
    and what it returns otherwise is the transformed object, with every
    invariant. *)
Theorem transformProduct_discards_invalid (apiProduct : value) :
  (forall t, transformed apiProduct = Ok t ->
     (gt (id t) zero = false \/ title t = "" \/ description t = "" \/
      price t = None \/ (exists x, price t = Some x /\ gt x zero = false) \/
      public t = false) ->
     transformProduct apiProduct = None) /\
  (forall e, transformed apiProduct = Throw e ->
     transformProduct apiProduct = None) /\
  (forall p, transformProduct apiProduct = Some p ->
     transformed apiProduct = Ok p /\ product_invariant p).
Proof.
  split; [|split].
  - intros t Ht Hbad.
    destruct (transformProduct apiProduct) as [p|] eqn:Hp; [|reflexivity].
    apply transformProduct_Some in Hp as [Hp Hinv].
    rewrite Ht in Hp. injection Hp as <-.
    destruct Hinv as (Hid & Htitle & Hdesc & (x & Hx & Hpos) & Hpub).
    destruct Hbad as [H | [H | [H | [H | [(y & Hy & H) | H]]]]];
      congruence.
  - intros e He. unfold transformProduct. now rewrite He.
  - intros p Hp. now apply transformProduct_Some.
Qed.

(** ** Running the service *)

Ltac run :=
  unfold try_finally, try_catch, bind, ret, throw, lift, read, emit,
    set_products, set_filteredProducts, set_isLoading,
    set_currentSearchTerm, fetch, json;
  cbn [fst snd negb andb orb
       products filteredProducts isLoading currentSearchTerm trace].

Lemma fetchProducts_ok net filters params st response data records :
  filter_params filters = Ok params ->
  net (products_request params) = Answer response ->
  ok response = true ->
  body response = Some data ->
  get data "results" = Ok (VArr records) ->
  fst (fetchProducts net filters st) = Ok (map transformProduct records).
Proof.
  intros Hparams Hnet Hok Hbody Hres.
  unfold fetchProducts. run. rewrite Hparams. run.
  rewrite Hnet. run. rewrite Hok. run. rewrite Hbody. run.
  rewrite Hres. reflexivity.
Qed.

Lemma is_displayable_transformProduct (r : value) (p : Product) :
  transformProduct r = Some p -> is_displayable (Some p) = true.
Proof.
  intros H. apply transformProduct_Some in H as [_ H].
  destruct H as (_ & Ht & Hd & (x & Hx & Hpos) & Hpub).
  unfold is_displayable.
  rewrite Hx, Hpos, Hpub.
  apply nonempty_true in Ht, Hd. now rewrite Ht, Hd.
Qed.

(** The filter of [loadProducts] keeps the entries that are not [null]. *)
Lemma filter_valid_transformed (records : list value) (p : Product) :
  In p (filter_valid (map transformProduct records)) <->
  exists r, In r records /\ transformProduct r = Some p.
Proof.
  induction records as [|r rs IH]; simpl.
  - split; [tauto | now intros (r & [] & _)].
  - destruct (transformProduct r) as [q|] eqn:Hq.
    + rewrite (is_displayable_transformProduct _ Hq). simpl.
      rewrite IH. split.
      * intros [<- | (r' & Hin & Hr')]; [exists r | exists r']; auto.
      * intros (r' & [<- | Hin] & Hr');
          [left; congruence | right; now exists r'].
    + rewrite IH. split.
      * intros (r' & Hin & Hr'). exists r'; auto.
      * intros (r' & [<- | Hin] & Hr'); [congruence | now exists r'].
Qed.

(** Against C2: with a record without title after a valid one,
    [fetchProducts] returns two entries, the second one [null]. *)
Lemma fetchProducts_returns_null_entries :
  exists p,
    fst (fetchProducts one_bad_net [] initial) = Ok [Some p; None] /\
    transformProduct untitled_record = None /\
    ~ (forall out, fst (fetchProducts one_bad_net [] initial) = Ok out ->
                   Forall (fun entry => entry <> None) out).
Proof.
  eexists. split; [vm_compute; reflexivity|].
  split; [vm_compute; reflexivity|].
  intros H.
  specialize (H _ ltac:(vm_compute; reflexivity)).
  inversion H as [|? ? _ H2]. inversion H2 as [|? ? Hnone _].
  now apply Hnone.
Qed.

(** C2, amended.  On a response with a [results] array to the request
    built from the filters, [fetchProducts] does not abort on a bad
    record: it returns one entry per record, in
    the order of the records, the entry of a record being its transform:
    [null] for a record that breaks an invariant, the product for a valid
    one.  The [null] entries are dropped later, by the filter of
    [loadProducts], which keeps every product. *)
Theorem fetchProducts_entry_per_record
    net filters params st response data records :
  filter_params filters = Ok params ->
  net (products_request params) = Answer response ->
  ok response = true ->
  body response = Some data ->
  get data "results" = Ok (VArr records) ->
  exists out,
    fst (fetchProducts net filters st) = Ok out /\
    List.length out = List.length records /\
    (forall i r, nth_error records i = Some r ->
                 nth_error out i = Some (transformProduct r)) /\
    (forall p, In p (filter_valid out) <->
               exists r, In r records /\ transformProduct r = Some p).
Proof.
  intros Hparams Hnet Hok Hbody Hres.
  exists (map transformProduct records).
  split; [now apply fetchProducts_ok with params response data|].
  split; [apply length_map|].
  split; [|apply filter_valid_transformed].
  intros i r Hi. now rewrite nth_error_map, Hi.
Qed.

Lemma fetchProducts_entry_per_record_witness :
  exists out,
    fst (fetchProducts one_bad_net [] initial) = Ok out /\
    List.length out = 2%nat /\
    (forall i r, nth_error [mug_record; untitled_record] i = Some r ->
                 nth_error out i = Some (transformProduct r)) /\
    (forall p, In p (filter_valid out) <->
               exists r, In r [mug_record; untitled_record] /\
                         transformProduct r = Some p).
Proof.
  apply (@fetchProducts_entry_per_record one_bad_net [] [] initial
           {| status := 200; statusText := "OK";
              body := Some (VObj [("results",
                        VArr [mug_record; untitled_record])]) |}
           (VObj [("results", VArr [mug_record; untitled_record])])
           [mug_record; untitled_record]);
    reflexivity.
Defined.


(** ** fetchProductById *)





(** ** What a computation leaves alone, and what it appends *)

Section Keeps.
Context {X : Type} (f : Store -> X).

Lemma keeps_ret A (a : A) : keeps f (ret a).
Proof. now intros s. Qed.

Lemma keeps_throw A e : keeps f (@throw A e).
Proof. now intros s. Qed.

Lemma keeps_lift A (r : result A) : keeps f (lift r).
Proof. now intros s. Qed.

Lemma keeps_read A (g : Store -> A) : keeps f (read g).
Proof. now intros s. Qed.

Lemma keeps_bind A B (c : M A) (k : A -> M B) :
  keeps f c -> (forall a, keeps f (k a)) -> keeps f (bind c k).
Proof.
  intros Hc Hk s. unfold bind. specialize (Hc s).
  destruct (c s) as [[a|e] s']; simpl in *; [|exact Hc].
  now rewrite Hk.
Qed.

Lemma keeps_try_catch A (c : M A) (h : error -> M A) :
  keeps f c -> (forall e, keeps f (h e)) -> keeps f (try_catch c h).
Proof.
  intros Hc Hh s. unfold try_catch. specialize (Hc s).
  destruct (c s) as [[a|e] s']; simpl in *; [exact Hc|].
  now rewrite Hh.
Qed.
End Keeps.

Lemma keeps_products_emit e : keeps products (emit e).
Proof. now intros s. Qed.

Lemma keeps_products_set_filteredProducts l :
  keeps products (set_filteredProducts l).
Proof. now intros s. Qed.

Lemma keeps_products_set_currentSearchTerm t :
  keeps products (set_currentSearchTerm t).
Proof. now intros s. Qed.

Lemma keeps_products_set_isLoading b : keeps products (set_isLoading b).
Proof. now intros s. Qed.

Ltac keeps_products :=
  repeat first
    [ apply keeps_ret | apply keeps_throw | apply keeps_lift
    | apply keeps_read | apply keeps_products_emit
    | apply keeps_products_set_filteredProducts
    | apply keeps_products_set_currentSearchTerm
    | apply keeps_products_set_isLoading
    | apply keeps_bind; [|intros]
    | apply keeps_try_catch; [|intros]
    | match goal with
      | |- keeps _ (if ?b then _ else _) => destruct b
      | |- keeps _ (match ?x with _ => _ end) => destruct x
      end ].

Lemma keeps_products_renderProducts : keeps products renderProducts.
Proof. unfold renderProducts, showProducts. keeps_products. Qed.

(** C9.  [handleSearch] leaves the full list [this.products] as it is,
    for every store and every search term, also when the filter throws:
    it only assigns the search term and the filtered list. *)
Theorem handleSearch_keeps_products (searchTerm : string) (st : Store) :
  products (snd (handleSearch searchTerm st)) = products st.
Proof.
  revert st. change (keeps products (handleSearch searchTerm)).
  unfold handleSearch, updateResultsInfo, showNoResults.
  keeps_products; apply keeps_products_renderProducts.
Qed.

Section Appends.
Variable P : Event -> Prop.

Lemma appends_ret A (a : A) : appends P (ret a).
Proof. intros s. exists []. now rewrite app_nil_r. Qed.

Lemma appends_throw A e : appends P (@throw A e).
Proof. intros s. exists []. now rewrite app_nil_r. Qed.

Lemma appends_lift A (r : result A) : appends P (lift r).
Proof. intros s. exists []. now rewrite app_nil_r. Qed.

Lemma appends_read A (g : Store -> A) : appends P (read g).
Proof. intros s. exists []. now rewrite app_nil_r. Qed.

Lemma appends_set_products l : appends P (set_products l).
Proof. intros s. exists []. simpl. now rewrite app_nil_r. Qed.

Lemma appends_set_filteredProducts l : appends P (set_filteredProducts l).
Proof. intros s. exists []. simpl. now rewrite app_nil_r. Qed.

Lemma appends_set_isLoading b : appends P (set_isLoading b).
Proof. intros s. exists []. simpl. now rewrite app_nil_r. Qed.

Lemma appends_set_currentSearchTerm t :
  appends P (set_currentSearchTerm t).
Proof. intros s. exists []. simpl. now rewrite app_nil_r. Qed.

Lemma appends_emit e : P e -> appends P (emit e).
Proof. intros He s. exists [e]. simpl. auto. Qed.

Lemma appends_bind A B (c : M A) (k : A -> M B) :
  appends P c -> (forall a, appends P (k a)) -> appends P (bind c k).
Proof.
  intros Hc Hk s. unfold bind. destruct (Hc s) as (evs & He & HP).
  destruct (c s) as [[a|e] s']; simpl in *; [|now exists evs].
  destruct (Hk a s') as (evs' & He' & HP').
  exists (evs ++ evs'). rewrite He', He, app_assoc. split; [reflexivity|].
  now apply Forall_app.
Qed.

Lemma appends_try_catch A (c : M A) (h : error -> M A) :
  appends P c -> (forall e, appends P (h e)) -> appends P (try_catch c h).
Proof.
  intros Hc Hh s. unfold try_catch. destruct (Hc s) as (evs & He & HP).
  destruct (c s) as [[a|e] s']; simpl in *; [now exists evs|].
  destruct (Hh e s') as (evs' & He' & HP').
  exists (evs ++ evs'). rewrite He', He, app_assoc. split; [reflexivity|].
  now apply Forall_app.
Qed.

Lemma appends_try_finally A (c : M A) (final : M unit) :
  appends P c -> appends P final -> appends P (try_finally c final).
Proof.
  intros Hc Hf s. unfold try_finally. destruct (Hc s) as (evs & He & HP).
  destruct (c s) as [r s']; simpl in *.
  destruct (Hf s') as (evs' & He' & HP').
  exists (evs ++ evs'). rewrite app_assoc, <- He.
  destruct (final s') as [[u|e] s'']; simpl in *;
    (split; [assumption | now apply Forall_app]).
Qed.
End Appends.

Ltac appends_step :=
  first
    [ apply appends_ret | apply appends_throw | apply appends_lift
    | apply appends_read | apply appends_set_products
    | apply appends_set_filteredProducts | apply appends_set_isLoading
    | apply appends_set_currentSearchTerm
    | apply appends_bind; [|intros]
    | apply appends_try_catch; [|intros]
    | apply appends_try_finally
    | match goal with
      | |- appends _ (if ?b then _ else _) => destruct b
      | |- appends _ (match ?x with _ => _ end) => destruct x
      end ].

Lemma appends_fetch P net req : P (EvFetch req) -> appends P (fetch net req).
Proof.
  intros H. unfold fetch. repeat appends_step. now apply appends_emit.
Qed.

(** ** The events of the service and of the controller *)

Ltac event_ok :=
  first [ exact I
        | split; intro; discriminate
        | intro; discriminate ].

Ltac appends_auto :=
  repeat first [ appends_step
               | apply appends_fetch; event_ok
               | apply appends_emit; event_ok ].

Lemma appends_weaken A (P Q : Event -> Prop) (c : M A) :
  (forall e, P e -> Q e) -> appends P c -> appends Q c.
Proof.
  intros HPQ Hc s. destruct (Hc s) as (evs & He & HP).
  exists evs. split; [exact He|]. eapply Forall_impl; eauto.
Qed.

Lemma testConnection_no_products_fetch net :
  appends no_products_fetch (testConnection net).
Proof. unfold testConnection, no_products_fetch. appends_auto. Qed.

Lemma renderProducts_no_products_fetch :
  appends no_products_fetch renderProducts.
Proof.
  unfold renderProducts, showProducts, no_products_fetch. appends_auto.
Qed.

Lemma load_from_file_no_products_fetch net apiError :
  appends no_products_fetch (load_from_file net apiError).
Proof.
  unfold load_from_file, json, updateResultsInfo, showApiWarning.
  appends_auto; try apply renderProducts_no_products_fetch;
    unfold no_products_fetch; appends_auto.
Qed.

Lemma loadProductsFromJSON_trace net apiError s :
  exists evs,
    trace (snd (loadProductsFromJSON net apiError s))
    = trace s ++ EvCall MLoadProductsFromJSON :: evs /\
    Forall no_products_fetch evs.
Proof.
  unfold loadProductsFromJSON.
  unfold bind at 1. cbn [emit].
  match goal with
  | |- context [try_catch ?b ?h ?s1] =>
      assert (Hc : appends no_products_fetch (try_catch b h))
        by (unfold showError, no_products_fetch;
            apply appends_try_catch;
            [apply load_from_file_no_products_fetch | intros; appends_auto]);
      destruct (Hc s1) as (evs & He & HP)
  end.
  exists evs. split; [|exact HP].
  rewrite He. cbn [trace]. now rewrite <- app_assoc.
Qed.

(** A load that is not ignored: the flag is raised, the loading panel
    shown, the API tried, the fallback on a failure, and the flag lowered
    at the end. *)
Lemma loadProducts_run apiDef net st :
  isLoading st = false ->
  loadProducts apiDef net st
  = let s1 := snd (showLoading (snd (set_isLoading true st))) in
    let rs := try_catch (load_from_api apiDef net)
                (fun error => loadProductsFromJSON net (message_of error))
                s1 in
    (fst rs, snd (set_isLoading false (snd rs))).
Proof.
  intros H. unfold loadProducts, bind, read, try_finally. rewrite H.
  cbn [set_isLoading showLoading emit fst snd].
  match goal with |- context [try_catch ?b ?h ?s] =>
    destruct (try_catch b h s) as [r s2] end.
  reflexivity.
Qed.

Lemma loadProducts_ignored apiDef net st :
  isLoading st = true -> loadProducts apiDef net st = (Ok tt, st).
Proof.
  intros H. unfold loadProducts, bind, read. now rewrite H.
Qed.

(** C8.  When the connection test gives [false], a load that runs never
    calls [fetchProducts] (nor sends its request) and calls the fallback
    [loadProductsFromJSON]. *)
Theorem loadProducts_offline_uses_fallback apiDef net st :
  isLoading st = false ->
  (forall s, fst (testConnection net s) = Ok false) ->
  exists evs,
    trace (snd (loadProducts apiDef net st)) = trace st ++ evs /\
    ~ In (EvCall MFetchProducts) evs /\
    ~ In (EvFetch (products_request [])) evs /\
    In (EvCall MLoadProductsFromJSON) evs.
Proof.
  intros Hload Hconn.
  rewrite (@loadProducts_run apiDef net st Hload). cbn zeta.
  set (s1 := snd (showLoading (snd (set_isLoading true st)))).
  assert (Hs1 : trace s1 = trace st ++ [EvShowLoading]) by reflexivity.
  assert (Hfallback : exists s2 evs2 msg,
             try_catch (load_from_api apiDef net)
               (fun error => loadProductsFromJSON net (message_of error)) s1
             = loadProductsFromJSON net msg s2 /\
             trace s2 = trace s1 ++ evs2 /\
             Forall no_products_fetch evs2).
  { unfold try_catch, load_from_api.
    destruct apiDef; cbn [negb].
    - unfold bind at 1. cbn [ret]. unfold bind at 1.
      destruct (testConnection_no_products_fetch net s1) as (evs & He & HP).
      specialize (Hconn s1).
      destruct (testConnection net s1) as [[b|e] s2]; cbn [fst snd] in *;
        [|discriminate].
      injection Hconn as ->. cbn [negb]. unfold bind at 1. cbn [throw].
      eauto 6.
    - unfold bind at 1. cbn [throw].
      exists s1, []. eexists. rewrite app_nil_r. eauto. }
  destruct Hfallback as (s2 & evs2 & msg & -> & Hs2 & HP2).
  destruct (loadProductsFromJSON_trace net msg s2) as (evs3 & He3 & HP3).
  exists ([EvShowLoading] ++ evs2 ++ EvCall MLoadProductsFromJSON :: evs3).
  assert (HP : Forall no_products_fetch
                 ([EvShowLoading] ++ evs2
                  ++ EvCall MLoadProductsFromJSON :: evs3)).
  { apply Forall_app. split; [repeat constructor; discriminate|].
    apply Forall_app. split; [exact HP2|].
    constructor; [split; discriminate | exact HP3]. }
  rewrite Forall_forall in HP.
  repeat split.
  - cbn [snd set_isLoading trace]. rewrite He3, Hs2, Hs1.
    now rewrite <- !app_assoc.
  - intros Hin. now destruct (HP _ Hin) as [Hne _].
  - intros Hin. now destruct (HP _ Hin) as [_ Hne].
  - apply in_or_app. right. apply in_or_app. right. now left.
Qed.

Lemma loadProducts_offline_uses_fallback_witness :
  exists evs,
    trace (snd (loadProducts true offline_net initial))
    = trace initial ++ evs /\
    ~ In (EvCall MFetchProducts) evs /\
    ~ In (EvFetch (products_request [])) evs /\
    In (EvCall MLoadProductsFromJSON) evs.
Proof.
  apply (@loadProducts_offline_uses_fallback true offline_net initial).
  - reflexivity.
  - intros s. reflexivity.
Defined.

(** ** Completion of a load *)

Lemma returns_emit e : returns (emit e).
Proof. intros s. now exists tt. Qed.

Lemma returns_bind A B (c : M A) (k : A -> M B) :
  returns c -> (forall a, returns (k a)) -> returns (bind c k).
Proof.
  intros Hc Hk s. unfold bind. destruct (Hc s) as [a Ha].
  destruct (c s) as [[a'|e] s']; simpl in *; [apply Hk | discriminate].
Qed.

Lemma returns_try_catch A (c : M A) (h : error -> M A) :
  (forall e, returns (h e)) -> returns (try_catch c h).
Proof.
  intros Hh s. unfold try_catch.
  destruct (c s) as [[a|e] s']; [now exists a | apply Hh].
Qed.

Lemma loadProductsFromJSON_returns net apiError :
  returns (loadProductsFromJSON net apiError).
Proof.
  unfold loadProductsFromJSON.
  apply returns_bind; [apply returns_emit | intros _].
  apply returns_try_catch. intros e. apply returns_emit.
Qed.

Lemma loadProducts_shows_loading apiDef net st :
  isLoading st = false ->
  exists evs,
    trace (snd (loadProducts apiDef net st))
    = trace st ++ EvShowLoading :: evs.
Proof.
  intros H. rewrite (@loadProducts_run apiDef net st H). cbn zeta.
  set (s1 := snd (showLoading (snd (set_isLoading true st)))).
  assert (Hc : appends (fun _ => True)
                 (try_catch (load_from_api apiDef net)
                    (fun error =>
                       loadProductsFromJSON net (message_of error)))).
  { unfold load_from_api, loadProductsFromJSON, load_from_file,
      testConnection, fetchProducts, renderProducts, showProducts,
      updateResultsInfo, showApiWarning, showError, json.
    appends_auto. }
  destruct (Hc s1) as (evs & He & _).
  exists evs. cbn [snd set_isLoading trace]. rewrite He.
  subst s1. cbn [snd showLoading emit set_isLoading trace].
  now rewrite <- app_assoc.
Qed.

(** C10.  A load that runs (the flag [isLoading] down when it starts)
    completes without raising and with the flag down again, whatever the
    network answers: on the success of the API, on the success of the
    fallback and on the failure of both.  A later request therefore runs
    too: it shows the loading panel. *)
Theorem loadProducts_lowers_isLoading apiDef net st :
  isLoading st = false ->
  fst (loadProducts apiDef net st) = Ok tt /\
  isLoading (snd (loadProducts apiDef net st)) = false /\
  forall apiDef' net',
  exists evs,
    trace (snd (loadProducts apiDef' net' (snd (loadProducts apiDef net st))))
    = trace (snd (loadProducts apiDef net st)) ++ EvShowLoading :: evs.
Proof.
  intros H.
  assert (Hflag : isLoading (snd (loadProducts apiDef net st)) = false).
  { rewrite (@loadProducts_run apiDef net st H). reflexivity. }
  split; [|split; [exact Hflag|]].
  - rewrite (@loadProducts_run apiDef net st H). cbn zeta. cbn [fst].
    match goal with |- fst (try_catch ?c ?h ?s) = _ =>
      destruct (@returns_try_catch _ c h
                  (fun e => loadProductsFromJSON_returns net (message_of e))
                  s) as [[] Hu]
    end.
    exact Hu.
  - intros apiDef' net'. now apply loadProducts_shows_loading.
Qed.

Lemma loadProducts_lowers_isLoading_witness :
  fst (loadProducts true offline_net initial) = Ok tt /\
  isLoading (snd (loadProducts true offline_net initial)) = false /\
  forall apiDef' net',
  exists evs,
    trace (snd (loadProducts apiDef' net'
                  (snd (loadProducts true offline_net initial))))
    = trace (snd (loadProducts true offline_net initial))
      ++ EvShowLoading :: evs.
Proof.
  apply (@loadProducts_lowers_isLoading true offline_net initial).
  reflexivity.
Defined.

(** ** Array.prototype.sort: the elements *)

Lemma insert_perm A (cmp : A -> A -> number) (x : A) (l : list A) :
  Permutation (insert cmp x l) (x :: l).
Proof.
  induction l as [|y r IH]; simpl; [reflexivity|].
  destruct (gt (cmp x y) zero); [|reflexivity].
  rewrite IH. apply perm_swap.
Qed.

Lemma sort_perm A (cmp : A -> A -> number) (l : list A) :
  Permutation (sort cmp l) l.
Proof.
  induction l as [|x r IH]; simpl; [reflexivity|].
  rewrite insert_perm. now constructor.
Qed.

(** ** The runs of the service and of the render *)

Lemma add_events_nil (s : Store) : add_events s [] = s.
Proof. destruct s. unfold add_events. cbn. now rewrite app_nil_r. Qed.

Lemma add_events_app (s : Store) (a b : list Event) :
  add_events (add_events s a) b = add_events s (a ++ b).
Proof. unfold add_events. cbn. now rewrite app_assoc. Qed.

Lemma emit_run (e : Event) (s : Store) : emit e s = (Ok tt, add_events s [e]).
Proof. reflexivity. Qed.

Lemma testConnection_run net s :
  testConnection net s
  = (Ok (match net connection_request with
         | Answer response => ok response
         | NetworkFailure => false
         end),
     add_events s [EvCall MTestConnection; EvFetch connection_request]).
Proof.
  unfold testConnection. run. run.
  destruct (net connection_request); run; unfold add_events;
    now rewrite <- app_assoc.
Qed.

(** A call of [fetchProducts]: one request when the filters convert to
    strings, none otherwise; every failure is an [Error] of the
    service. *)
Lemma fetchProducts_run net filters s :
  match filter_params filters with
  | Ok params =>
      exists r,
        fetchProducts net filters s
        = (r, add_events s [EvCall MFetchProducts;
                            EvFetch (products_request params)]) /\
        ((exists fetched, r = Ok fetched) \/
         (exists cause,
            r = Throw (Error ("Falha ao carregar produtos: "
                              ++ cause)%string)))
  | Throw e =>
      fetchProducts net filters s
      = (Throw (Error ("Falha ao carregar produtos: "
                       ++ message_of e)%string),
         add_events s [EvCall MFetchProducts])
  end.
Proof.
  assert (Hs : forall a b,
             {| products := products s;
                filteredProducts := filteredProducts s;
                isLoading := isLoading s;
                currentSearchTerm := currentSearchTerm s;
                trace := (trace s ++ [a]) ++ [b] |}
             = add_events s [a; b])
    by (intros; unfold add_events; now rewrite <- app_assoc).
  unfold fetchProducts. run.
  destruct (filter_params filters) as [params|e]; run; [|reflexivity].
  run.
  destruct (net (products_request params)) as [|r]; run;
    [rewrite Hs; eauto|].
  destruct (ok r); run; [|rewrite Hs; eauto].
  destruct (body r) as [data|]; run; [|rewrite Hs; eauto].
  destruct (get data "results") as [results|e]; run; [|rewrite Hs; eauto].
  destruct results; run; rewrite Hs; eauto.
Qed.

(** A call of [fetchProductById]: it returns, after one request when the
    id converts to a string, after none otherwise. *)
Lemma fetchProductById_run net productId s :
  exists found,
    fetchProductById net productId s
    = (Ok found,
       add_events s
         (EvCall MFetchProductById
          :: match ToString productId with
             | Ok text => [EvFetch (by_id_request text)]
             | Throw _ => []
             end)).
Proof.
  assert (Hs : forall a b,
             {| products := products s;
                filteredProducts := filteredProducts s;
                isLoading := isLoading s;
                currentSearchTerm := currentSearchTerm s;
                trace := (trace s ++ [a]) ++ [b] |}
             = add_events s [a; b])
    by (intros; unfold add_events; now rewrite <- app_assoc).
  unfold fetchProductById. run.
  destruct (ToString productId) as [text|e]; run; [|eauto].
  run.
  destruct (net (by_id_request text)) as [|r]; run;
    [rewrite Hs; eauto|].
  destruct (ok r); run.
  - destruct (body r) as [data|]; run; [|rewrite Hs; eauto].
    destruct (transformProduct data) as [p|]; run; [|rewrite Hs; eauto].
    destruct (public p); run; rewrite Hs; eauto.
  - destruct (status r =? 404)%Z; run; rewrite Hs; eauto.
Qed.

(** What [fetchProducts] returns depends on the network only. *)
Lemma fetchProducts_result net filters s s' :
  fst (fetchProducts net filters s) = fst (fetchProducts net filters s').
Proof.
  unfold fetchProducts. run.
  destruct (filter_params filters) as [params|e]; run; [|reflexivity].
  run.
  destruct (net _) as [|r]; run; [reflexivity|].
  destruct (ok r); run; [|reflexivity].
  destruct (body r) as [data|]; run; [|reflexivity].
  destruct (get data "results") as [[]|]; reflexivity.
Qed.

Lemma map_result_throws A B (f : A -> result B) (l : list A) (e : error) :
  map_result f l = Throw e -> exists a, In a l /\ f a = Throw e.
Proof.
  induction l as [|a r IH]; cbn [map_result]; [discriminate|].
  destruct (f a) as [b|e'] eqn:Ha; cbn [and_then].
  - destruct (map_result f r) as [bs|e'']; cbn [and_then]; [discriminate|].
    intros [= ->]. destruct (IH eq_refl) as (x & Hin & Hx).
    exists x. split; [now right | exact Hx].
  - intros [= ->]. exists a. split; [now left | exact Ha].
Qed.

Lemma get_throws (v : value) (k : string) (e : error) :
  get v k = Throw e -> e = TypeError.
Proof. destruct v; cbn; congruence. Qed.

Ltac solve_throw E :=
  first
    [ now apply get_throws in E
    | apply parseInt_throws in E as [_ E]; exact E
    | apply parseFloat_throws in E as [_ E]; exact E
    | now apply ToString_throws in E
    | match type of E with
      | (if ?b then _ else _) = _ => destruct b; [|discriminate]
      end;
      match type of E with
      | and_then ?r _ = _ =>
          let E' := fresh "E" in
          destruct r eqn:E'; cbn [and_then] in E; [discriminate|];
          injection E as ->; solve_throw E'
      end
    | match type of E with
      | match ?g with _ => _ end = _ => destruct g; try discriminate
      end;
      apply map_result_throws in E as (? & _ & E);
      now apply ToString_throws in E ].

Ltac throws_TypeError H :=
  repeat match type of H with
         | and_then ?r _ = Throw _ =>
             let E := fresh "E" in
             destruct r eqn:E; cbn [and_then] in H;
             [|injection H as ->; solve_throw E]
         end;
  try discriminate.

(** The building of a card throws nothing but a [TypeError]. *)
Lemma sanitizeProductData_throws (product : value) (e : error) :
  sanitizeProductData product = Throw e -> e = TypeError.
Proof.
  intros H. unfold sanitizeProductData in H. throws_TypeError H.
Qed.

Lemma render_throws (l : list value) (e : error) :
  map_result createProductCard l = Throw e -> e = TypeError.
Proof.
  intros H. apply map_result_throws in H as (p & _ & Hp).
  now apply sanitizeProductData_throws in Hp.
Qed.

(** The render: the cards built, the grid replaced and the products
    panel shown; or the error of the first card that cannot be built, the
    page untouched. *)
Lemma renderProducts_run (s : Store) :
  renderProducts s
  = match map_result createProductCard (filteredProducts s) with
    | Ok _ =>
        (Ok tt, add_events s [EvRender (filteredProducts s); EvShowProducts])
    | Throw e => (Throw e, s)
    end.
Proof.
  unfold renderProducts, showProducts. run.
  destruct (map_result createProductCard (filteredProducts s)); run.
  - unfold add_events. now rewrite <- app_assoc.
  - reflexivity.
Qed.

(** The primary path of a load: the list of the API stored and shown; or
    stored and not shown, a card failing; or nothing stored, with one of
    the five messages. *)
Lemma load_from_api_cases apiDef net s :
  (exists fetched l,
     fst (fetchProducts net [] s) = Ok fetched /\
     filter_valid fetched <> [] /\
     l = map as_value (sort by_order (filter_valid fetched)) /\
     ((exists cards,
         map_result createProductCard l = Ok cards /\
         load_from_api apiDef net s
         = (Ok tt, adopt s l (api_events ++ show_events l)))
      \/
      (map_result createProductCard l = Throw TypeError /\
       load_from_api apiDef net s = (Throw TypeError, adopt s l api_events))))
  \/
  (exists m evs,
     api_failure_text m /\ Forall service_event evs /\
     load_from_api apiDef net s = (Throw (Error m), add_events s evs)).
Proof.
  destruct (load_from_api apiDef net s) as [out s'] eqn:E.
  unfold load_from_api in E.
  destruct apiDef; cbn [negb] in E.
  2:{ injection E as <- <-. right. eexists; exists [].
      rewrite add_events_nil.
      split; [left; reflexivity|]. split; [constructor|]. reflexivity. }
  unfold bind at 1 in E. cbn [ret] in E. unfold bind at 1 in E.
  rewrite testConnection_run in E.
  assert (E1 : Forall service_event
                 [EvCall MTestConnection; EvFetch connection_request])
    by (repeat constructor).
  destruct (match net connection_request with
            | NetworkFailure => false
            | Answer response => ok response
            end); cbn [negb] in E.
  2:{ injection E as <- <-. right. eexists; eexists.
      split; [right; left; reflexivity|]. split; [exact E1|]. reflexivity. }
  unfold bind at 1 in E. cbn [ret] in E. unfold bind at 1 in E.
  pose proof (fetchProducts_run net []
                (add_events s [EvCall MTestConnection;
                               EvFetch connection_request])) as Hrun.
  pose proof (fetchProducts_run net [] s) as Hrun0.
  cbn [filter_params] in Hrun, Hrun0.
  destruct Hrun as (r & Hrun & Hr). destruct Hrun0 as (r0 & Hrun0 & _).
  assert (Hr0 : r0 = r).
  { pose proof (fetchProducts_result net []
                  s (add_events s [EvCall MTestConnection;
                                   EvFetch connection_request])) as HR.
    rewrite Hrun, Hrun0 in HR. exact HR. }
  subst r0.
  rewrite Hrun, add_events_app in E. cbn [app] in E.
  assert (E2 : Forall service_event api_events) by (repeat constructor).
  destruct Hr as [[fetched ->] | [cause ->]].
  2:{ injection E as <- <-. right. eexists; eexists.
      split; [do 4 right; eexists; reflexivity|].
      split; [exact E2|]. reflexivity. }
  destruct (List.length fetched =? 0)%nat.
  { unfold bind at 1 in E. cbn [throw] in E. injection E as <- <-.
    right. eexists; eexists.
    split; [right; right; left; reflexivity|].
    split; [exact E2|]. reflexivity. }
  unfold bind at 1 in E. cbn [ret] in E.
  destruct (filter_valid fetched) as [|p ps] eqn:Hvalid.
  { cbn [List.length Nat.eqb] in E. unfold bind at 1 in E.
    cbn [throw] in E. injection E as Hout Hs'. subst out s'.
    right. eexists; eexists.
    split; [right; right; right; left; reflexivity|].
    split; [exact E2|]. reflexivity. }
  left. cbn [List.length Nat.eqb] in E. unfold bind at 1 in E.
  cbn [ret] in E.
  exists fetched, (map as_value (sort by_order (p :: ps))).
  split; [now rewrite Hrun0|]. rewrite Hvalid. split; [discriminate|].
  split; [reflexivity|].
  unfold updateResultsInfo, bind, set_products, read, set_filteredProducts
    in E.
  cbn [fst snd products filteredProducts] in E.
  rewrite renderProducts_run in E. cbn [filteredProducts] in E.
  destruct (map_result createProductCard
              (map as_value (sort by_order (p :: ps)))) as [cards|e]
    eqn:Hcards;
    unfold emit, add_events in E;
    cbn [fst snd products filteredProducts isLoading currentSearchTerm
         trace] in E;
    injection E as Hout Hs'; subst out s'.
  - left. exists cards. split; [reflexivity|].
    unfold adopt, add_events, api_events, show_events.
    cbn [products filteredProducts isLoading currentSearchTerm trace].
    rewrite <- !app_assoc. reflexivity.
  - right. pose proof (render_throws _ Hcards) as ->.
    split; reflexivity.
Qed.

(** The fallback: the list of the file stored and shown, with the
    warning; or stored and not shown, a card failing; or nothing
    stored. *)
Lemma load_from_file_cases net apiError s :
  (exists response data,
     net file_request = Answer response /\
     ok response = true /\
     body response = Some data /\
     validateProductsData data = Ok true /\
     ((exists cards,
         map_result createProductCard (products_of data) = Ok cards /\
         load_from_file net apiError s
         = (Ok tt, adopt s (products_of data)
                     (EvFetch file_request :: show_events (products_of data)
                      ++ [EvShowApiWarning apiError])))
      \/
      (map_result createProductCard (products_of data) = Throw TypeError /\
       load_from_file net apiError s
       = (Throw TypeError,
          adopt s (products_of data) [EvFetch file_request]))))
  \/
  (exists jsonError,
     load_from_file net apiError s
     = (Throw jsonError, add_events s [EvFetch file_request])).
Proof.
  unfold load_from_file, updateResultsInfo, showApiWarning. run.
  destruct (net file_request) as [|r] eqn:Hnet; run; [right; eauto|].
  destruct (ok r) eqn:Hok; run; [|right; eauto].
  destruct (body r) as [data|] eqn:Hbody; run; [|right; eauto].
  destruct (validateProductsData data) as [[]|e] eqn:Hv; run;
    try (right; eauto; fail).
  left. exists r, data. repeat (split; [reflexivity || assumption|]).
  rewrite renderProducts_run. cbn [filteredProducts].
  destruct (map_result createProductCard (products_of data)) as [cards|e]
    eqn:Hcards.
  - left. exists cards. split; [reflexivity|].
    unfold adopt, add_events, show_events. cbn.
    rewrite <- !app_assoc. reflexivity.
  - right. pose proof (render_throws _ Hcards) as ->.
    split; reflexivity.
Qed.

(** ** The stored list *)

Lemma keeps_products_testConnection net : keeps products (testConnection net).
Proof. unfold testConnection, fetch. keeps_products. Qed.

Lemma keeps_products_fetchProducts net filters :
  keeps products (fetchProducts net filters).
Proof. unfold fetchProducts, fetch, json. keeps_products. Qed.

Lemma load_from_api_products apiDef net s :
  match load_from_api apiDef net s with
  | (Ok _, s') =>
      exists fetched,
        fst (fetchProducts net [] s) = Ok fetched /\
        filter_valid fetched <> [] /\
        products s'
        = map as_value (sort by_order (filter_valid fetched))
  | (Throw _, s') => True
  end.
Proof.
  destruct (load_from_api_cases apiDef net s)
    as [(fetched & l & Hf & Hne & -> & [(cards & _ & ->) | (_ & ->)])
       | (m & evs & _ & _ & ->)]; [|exact I | exact I].
  exists fetched. auto.
Qed.

Lemma valid_entry_invariant (v : value) :
  valid_entry v = Ok true -> file_invariant v.
Proof.
  unfold valid_entry, file_invariant.
  destruct (truthy v); cbn [negb]; [|discriminate].
  destruct (get v "id") as [i|]; cbn [and_then]; [|discriminate].
  destruct (is_undefined i) eqn:Hi; [discriminate|].
  destruct (get v "title") as [t|]; cbn [and_then]; [|discriminate].
  destruct t; cbn [is_string negb]; try discriminate.
  destruct (get v "description") as [d|]; cbn [and_then]; [|discriminate].
  destruct d; cbn [is_string negb]; try discriminate.
  destruct (get v "gallery") as [g|]; cbn [and_then]; [|discriminate].
  destruct g; cbn [isArray negb]; try discriminate.
  destruct (get v "price") as [x|]; cbn [and_then]; [|discriminate].
  destruct x; try discriminate.
  intros [= Hge].
  repeat split; eauto.
  exists i. split; [reflexivity|]. intros ->. discriminate.
Qed.

Lemma every_valid_entry (entries : list value) :
  every valid_entry entries = Ok true -> Forall file_invariant entries.
Proof.
  induction entries as [|v r IH]; cbn [every]; [constructor|].
  destruct (valid_entry v) as [[]|] eqn:Hv; cbn [and_then];
    try discriminate.
  intros H. constructor; [now apply valid_entry_invariant | now apply IH].
Qed.

Lemma validated_products (data : value) :
  validateProductsData data = Ok true ->
  Forall file_invariant (products_of data).
Proof.
  unfold validateProductsData, products_of.
  destruct (truthy data); cbn [negb]; [|discriminate].
  destruct (get data "products") as [[]|]; cbn [and_then];
    try discriminate.
  apply every_valid_entry.
Qed.

Lemma filter_valid_displayable (fetched : list (option Product)) :
  Forall (fun p => is_displayable (Some p) = true) (filter_valid fetched).
Proof.
  induction fetched as [|[p|] r IH]; cbn [filter_valid]; auto.
  destruct (is_displayable (Some p)) eqn:Hp; auto.
Qed.

Lemma displayable_invariant (p : Product) :
  is_displayable (Some p) = true -> displayed_invariant (as_value p).
Proof.
  unfold is_displayable. rewrite !andb_true_iff, !nonempty_true, eqb_true_iff.
  intros [[[Hpub Ht] Hd] Hp].
  destruct (price p) as [x|] eqn:Hx; [|discriminate].
  unfold displayed_invariant.
  repeat split.
  - now exists (title p).
  - now exists (description p).
  - exists x. split; [|exact Hp]. cbn. now rewrite Hx.
  - cbn. now rewrite Hpub.
Qed.

Lemma load_from_api_no_fallback apiDef net :
  appends no_fallback (load_from_api apiDef net).
Proof.
  unfold load_from_api, testConnection, fetchProducts, renderProducts,
    showProducts, updateResultsInfo, json, no_fallback.
  appends_auto.
Qed.

Lemma api_list_intro net s fetched :
  fst (fetchProducts net [] s) = Ok fetched ->
  filter_valid fetched <> [] ->
  api_list net (map as_value (sort by_order (filter_valid fetched))).
Proof.
  intros Hf Hne. exists fetched. split; [|auto].
  intros s'. now rewrite (fetchProducts_result net [] s' s).
Qed.

(** The products of a list of the primary path keep the invariants of
    displayed products, and the list is not empty. *)
Lemma api_list_invariant net (l : list value) :
  api_list net l -> l <> [] /\ Forall displayed_invariant l.
Proof.
  intros (fetched & _ & Hne & ->). split.
  - intros Hnil. apply map_eq_nil in Hnil.
    apply Hne. apply Permutation_nil.
    rewrite <- Hnil. apply sort_perm.
  - apply Forall_map.
    rewrite (sort_perm by_order (filter_valid fetched)).
    eapply Forall_impl; [|apply filter_valid_displayable].
    intros p. apply displayable_invariant.
Qed.

(** The entries of a list of the fallback keep what the validation
    checks. *)
Lemma file_list_invariant net (l : list value) :
  file_list net l -> Forall file_invariant l.
Proof.
  intros (response & data & _ & _ & _ & Hv & ->).
  now apply validated_products.
Qed.

Lemma render_fails_nonempty (l : list value) : render_fails l -> l <> [].
Proof. intros H ->. discriminate. Qed.

Lemma loadProductsFromJSON_run net apiError s :
  loadProductsFromJSON net apiError s
  = match load_from_file net apiError
            (add_events s [EvCall MLoadProductsFromJSON]) with
    | (Ok a, s') => (Ok a, s')
    | (Throw e, s') =>
        (Ok tt,
         add_events s' [EvShowError
                          (both_failed_text apiError (message_of e))])
    end.
Proof. reflexivity. Qed.

(** The fallback: it returns, with the list of the file stored and
    shown with the warning; or stored and not shown, and the error panel;
    or nothing stored, and the error panel. *)
Lemma loadProductsFromJSON_cases net apiError s :
  (exists lf,
     file_list net lf /\ renders lf /\
     loadProductsFromJSON net apiError s
     = (Ok tt,
        adopt s lf
          ([EvCall MLoadProductsFromJSON; EvFetch file_request]
           ++ show_events lf ++ [EvShowApiWarning apiError])))
  \/
  (exists lf,
     file_list net lf /\ render_fails lf /\
     loadProductsFromJSON net apiError s
     = (Ok tt,
        adopt s lf
          [EvCall MLoadProductsFromJSON; EvFetch file_request;
           EvShowError (both_failed_text apiError (message_of TypeError))]))
  \/
  (exists jsonError,
     loadProductsFromJSON net apiError s
     = (Ok tt,
        add_events s
          [EvCall MLoadProductsFromJSON; EvFetch file_request;
           EvShowError (both_failed_text apiError jsonError)])).
Proof.
  rewrite loadProductsFromJSON_run.
  destruct (load_from_file_cases net apiError
              (add_events s [EvCall MLoadProductsFromJSON]))
    as [(response & data & Hnet & Hok & Hbody & Hv
         & [(cards & Hcards & ->) | (Hcards & ->)])
       | (jsonError & ->)].
  - left. exists (products_of data).
    split; [now exists response, data|]. split; [now exists cards|].
    unfold adopt, add_events. cbn. rewrite <- ?app_assoc. reflexivity.
  - right. left. exists (products_of data).
    split; [now exists response, data|]. split; [exact Hcards|].
    unfold adopt, add_events.
    cbn [products filteredProducts isLoading currentSearchTerm trace].
    rewrite <- ?app_assoc. reflexivity.
  - right. right. exists (message_of jsonError).
    unfold add_events.
    cbn [products filteredProducts isLoading currentSearchTerm trace].
    rewrite <- ?app_assoc. reflexivity.
Qed.

(** The paths of a load that runs.  The API delivers and its list is
    shown.  Or the primary path fails, before the list is stored or in
    the render of the stored list, and the fallback runs from there: the
    file delivers and its list is shown with the warning; or its list is
    stored and not shown; or it stores nothing; the error panel ends the
    last two. *)
Lemma loadProducts_paths apiDef net st :
  isLoading st = false ->
  (exists l,
     api_list net l /\ renders l /\
     loadProducts apiDef net st
     = (Ok tt, adopt st l (EvShowLoading :: api_events ++ show_events l)))
  \/
  (exists base evsA apiError,
     ((base = st /\ api_failure_text apiError /\
       Forall service_event evsA)
      \/
      (exists l,
         base = with_lists st l /\ api_list net l /\ render_fails l /\
         apiError = message_of TypeError /\ evsA = api_events)) /\
     ((exists lf,
         file_list net lf /\ renders lf /\
         loadProducts apiDef net st
         = (Ok tt,
            adopt base lf
              (EvShowLoading :: evsA
               ++ [EvCall MLoadProductsFromJSON; EvFetch file_request]
               ++ show_events lf ++ [EvShowApiWarning apiError])))
      \/
      (exists lf,
         file_list net lf /\ render_fails lf /\
         loadProducts apiDef net st
         = (Ok tt,
            adopt base lf
              (EvShowLoading :: evsA
               ++ [EvCall MLoadProductsFromJSON; EvFetch file_request;
                   EvShowError
                     (both_failed_text apiError (message_of TypeError))])))
      \/
      (exists jsonError,
         loadProducts apiDef net st
         = (Ok tt,
            add_events base
              (EvShowLoading :: evsA
               ++ [EvCall MLoadProductsFromJSON; EvFetch file_request;
                   EvShowError (both_failed_text apiError jsonError)]))))).
Proof.
  intros Hl. rewrite (@loadProducts_run apiDef net st Hl).
  cbn zeta. unfold showLoading. run. unfold try_catch.
  match goal with
  | |- context [load_from_api apiDef net ?s] => set (s1 := s)
  end.
  assert (Hfb : forall (s2 base : Store) evsA apiError,
             trace s2 = trace st ++ EvShowLoading :: evsA ->
             products s2 = products base ->
             filteredProducts s2 = filteredProducts base ->
             isLoading s2 = true ->
             currentSearchTerm s2 = currentSearchTerm st ->
             isLoading base = false ->
             currentSearchTerm base = currentSearchTerm st ->
             trace base = trace st ->
             let out := loadProductsFromJSON net apiError s2 in
             let fin := (fst out, snd (set_isLoading false (snd out))) in
             (exists lf,
                file_list net lf /\ renders lf /\
                fin
                = (Ok tt,
                   adopt base lf
                     (EvShowLoading :: evsA
                      ++ [EvCall MLoadProductsFromJSON; EvFetch file_request]
                      ++ show_events lf ++ [EvShowApiWarning apiError])))
             \/
             (exists lf,
                file_list net lf /\ render_fails lf /\
                fin
                = (Ok tt,
                   adopt base lf
                     (EvShowLoading :: evsA
                      ++ [EvCall MLoadProductsFromJSON; EvFetch file_request;
                          EvShowError
                            (both_failed_text apiError
                               (message_of TypeError))])))
             \/
             (exists jsonError,
                fin
                = (Ok tt,
                   add_events base
                     (EvShowLoading :: evsA
                      ++ [EvCall MLoadProductsFromJSON; EvFetch file_request;
                          EvShowError
                            (both_failed_text apiError jsonError)])))).
  { intros s2 base evsA apiError Ht Hp Hfp Hld Hterm Hbl Hbt Hbtr.
    cbn zeta.
    destruct (loadProductsFromJSON_cases net apiError s2)
      as [(lf & Hfile & Hr & ->) | [(lf & Hfile & Hr & ->)
                                    | (jsonError & ->)]];
      [left; exists lf | right; left; exists lf
       | right; right; exists jsonError];
      repeat (split; [assumption|]);
      unfold adopt, add_events, set_isLoading;
      cbn [fst snd products filteredProducts isLoading currentSearchTerm
           trace];
      rewrite ?Ht, ?Hp, ?Hfp, ?Hterm, ?Hbl, ?Hbt, ?Hbtr;
      cbn [app]; rewrite <- ?app_assoc; reflexivity. }
  destruct (load_from_api_cases apiDef net s1)
    as [(fetched & l & Hf & Hne & Hlist
         & [(cards & Hcards & ->) | (Hcards & ->)])
       | (m & evs & Hm & Hevs & ->)].
  - left. exists l.
    split; [subst l; now apply api_list_intro with s1|].
    split; [now exists cards|].
    cbn [fst snd]. unfold adopt, set_isLoading. rewrite Hl.
    subst s1. cbn. rewrite <- !app_assoc. reflexivity.
  - right. exists (with_lists st l), api_events, (message_of TypeError).
    split.
    { right. exists l. split; [reflexivity|].
      split; [subst l; now apply api_list_intro with s1|]. auto. }
    apply Hfb; try reflexivity; try exact Hl.
    subst s1. unfold adopt. cbn [trace]. now rewrite <- app_assoc.
  - right. exists st, evs, m.
    split; [left; auto|].
    apply Hfb; try reflexivity; try exact Hl.
    subst s1. unfold add_events. cbn. now rewrite <- app_assoc.
Qed.

(** Against C1: with no API and a local file holding one entry with an
    empty title, an empty description, the price 0 and no public flag,
    the load stores and shows this entry. *)
Lemma loadProducts_stores_blank_entry :
  products (snd (loadProducts true (file_only_net [blank_entry]) initial))
  = [blank_entry] /\
  In (EvRender [blank_entry])
     (trace (snd (loadProducts true (file_only_net [blank_entry]) initial))) /\
  get blank_entry "title" = Ok (VStr "") /\
  get blank_entry "description" = Ok (VStr "") /\
  get blank_entry "price" = Ok (VNum zero) /\
  get blank_entry "public" = Ok VUndefined /\
  ~ Forall displayed_invariant
      (products (snd (loadProducts true (file_only_net [blank_entry])
                        initial))).
Proof.
  assert (H : products
                (snd (loadProducts true (file_only_net [blank_entry])
                        initial))
              = [blank_entry]) by (vm_compute; reflexivity).
  split; [exact H|].
  split; [vm_compute; tauto|].
  repeat (split; [reflexivity|]).
  rewrite H. intros Hall. inversion Hall as [|? ? Hinv _].
  destruct Hinv as [(t & Ht & Hne) _].
  cbn in Ht. injection Ht as <-. now apply Hne.
Qed.

(** C1, amended.  After a load that ran, the stored list is as follows.
    When the fallback was not called (the API path succeeded), the list
    is the one that was rendered, the sorted valid products of the
    fetched sequence; it is not empty, and each of its products has a
    title and a description that are not empty, a positive price and
    [public == true].  When the fallback was called and a list was
    rendered, the stored list is the rendered one, the list of the local
    file, whose entries have what the validation of the file checks: an
    id, a string title and a string description (empty ones included), an
    array gallery and a price that is a number and not negative (0
    included); the file path does not look at the public flag.  When the
    fallback was called and the load ended with the error panel, nothing
    was rendered, and the stored list is the one from before the load, or
    a list that was stored and whose render threw: the list of the API or
    the list of the file, not empty, with the invariants of its path. *)
Theorem loadProducts_stored_invariants apiDef net st :
  isLoading st = false ->
  exists evs,
    trace (snd (loadProducts apiDef net st)) = trace st ++ evs /\
    ((~ In (EvCall MLoadProductsFromJSON) evs /\
      In (EvRender (products (snd (loadProducts apiDef net st)))) evs /\
      api_list net (products (snd (loadProducts apiDef net st))) /\
      products (snd (loadProducts apiDef net st)) <> [] /\
      Forall displayed_invariant
        (products (snd (loadProducts apiDef net st))))
     \/
     (In (EvCall MLoadProductsFromJSON) evs /\
      In (EvRender (products (snd (loadProducts apiDef net st)))) evs /\
      file_list net (products (snd (loadProducts apiDef net st))) /\
      Forall file_invariant
        (products (snd (loadProducts apiDef net st))))
     \/
     (In (EvCall MLoadProductsFromJSON) evs /\
      (forall l, ~ In (EvRender l) evs) /\
      (exists message, last evs EvShowLoading = EvShowError message) /\
      (products (snd (loadProducts apiDef net st)) = products st \/
       (render_fails (products (snd (loadProducts apiDef net st))) /\
        products (snd (loadProducts apiDef net st)) <> [] /\
        ((api_list net (products (snd (loadProducts apiDef net st))) /\
          Forall displayed_invariant
            (products (snd (loadProducts apiDef net st))))
         \/
         (file_list net (products (snd (loadProducts apiDef net st))) /\
          Forall file_invariant
            (products (snd (loadProducts apiDef net st))))))))).
Proof.
  intros Hload.
  assert (Hin : forall (pre : list Event) e post,
             In e (EvShowLoading :: pre ++ e :: post)).
  { intros pre e post. right. apply in_or_app. right. now left. }
  assert (Hservice : forall evsA base apiError,
             (base = st /\ api_failure_text apiError /\
              Forall service_event evsA) \/
             (exists l,
                base = with_lists st l /\ api_list net l /\
                render_fails l /\
                apiError = message_of TypeError /\ evsA = api_events) ->
             Forall service_event evsA /\
             trace base = trace st /\
             (products base = products st \/
              (render_fails (products base) /\
               api_list net (products base)))).
  { intros evsA base apiError
      [(-> & _ & Hs) | (l & -> & Hl & Hr & _ & ->)].
    - split; [exact Hs|]. split; [reflexivity | now left].
    - split; [repeat constructor|]. split; [reflexivity|].
      right. cbn [with_lists products]. now split. }
  assert (Hnorender : forall evsA tail,
             Forall service_event evsA ->
             Forall (fun e => forall l, e <> EvRender l) tail ->
             forall l, ~ In (EvRender l) (EvShowLoading :: evsA ++ tail)).
  { intros evsA tail HA HT l [Habs | Hin']; [discriminate|].
    apply in_app_or in Hin' as [Hin' | Hin'].
    - rewrite Forall_forall in HA. now apply HA in Hin'.
    - rewrite Forall_forall in HT. now apply (HT _ Hin' l). }
  assert (Hlast : forall (evsA : list Event) a b m,
             last (EvShowLoading :: evsA ++ [a; b; EvShowError m])
                  EvShowLoading
             = EvShowError m).
  { intros evsA a b m. rewrite app_comm_cons.
    change [a; b; EvShowError m] with ([a; b] ++ [EvShowError m]).
    rewrite app_assoc. apply last_last. }
  destruct (@loadProducts_paths apiDef net st Hload)
    as [(l & Hl & _ & ->)
       | (base & evsA & apiError & Hapi
          & [(lf & Hf & _ & ->) | [(lf & Hf & Hr & ->) | (jsonError & ->)]])];
    try (destruct (Hservice _ _ _ Hapi) as (Hs & Htr & Hbase));
    cbn [snd adopt add_events products trace]; rewrite ?Htr;
    eexists; (split; [reflexivity|]).
  - left.
    destruct (api_list_invariant Hl) as [Hne Hinv].
    split; [|split; [|split; [exact Hl | split; [exact Hne | exact Hinv]]]].
    + unfold api_events, show_events. cbn. intuition discriminate.
    + unfold api_events, show_events. cbn. tauto.
  - right. left.
    split; [apply (Hin evsA)|].
    split; [|split; [exact Hf | now apply file_list_invariant with net]].
    right. apply in_or_app. right. cbn. tauto.
  - right. right.
    split; [apply (Hin evsA)|].
    split; [apply Hnorender; [exact Hs | repeat constructor; discriminate]|].
    split; [eexists; apply Hlast|].
    right. split; [exact Hr|].
    split; [now apply render_fails_nonempty|].
    right. split; [exact Hf | now apply file_list_invariant with net].
  - right. right.
    split; [apply (Hin evsA)|].
    split; [apply Hnorender; [exact Hs | repeat constructor; discriminate]|].
    split; [eexists; apply Hlast|].
    destruct Hbase as [Hsame | [Hr Hl]]; [now left|].
    right. split; [exact Hr|].
    destruct (api_list_invariant Hl) as [Hne Hinv].
    split; [exact Hne|]. left. now split.
Qed.

Lemma loadProducts_stored_invariants_witness :
  exists evs,
    trace (snd (loadProducts true (file_only_net [blank_entry]) initial))
    = trace initial ++ evs /\
    ((~ In (EvCall MLoadProductsFromJSON) evs /\
      In (EvRender (products
                   (snd (loadProducts true (file_only_net [blank_entry]) initial)))) evs /\
      api_list (file_only_net [blank_entry])
        (products
          (snd (loadProducts true (file_only_net [blank_entry]) initial))) /\
      products (snd (loadProducts true (file_only_net [blank_entry]) initial))
      <> [] /\
      Forall displayed_invariant
        (products
          (snd (loadProducts true (file_only_net [blank_entry]) initial))))
     \/
     (In (EvCall MLoadProductsFromJSON) evs /\
      In (EvRender (products
                   (snd (loadProducts true (file_only_net [blank_entry]) initial)))) evs /\
      file_list (file_only_net [blank_entry])
        (products
          (snd (loadProducts true (file_only_net [blank_entry]) initial))) /\
      Forall file_invariant
        (products
          (snd (loadProducts true (file_only_net [blank_entry]) initial))))
     \/
     (In (EvCall MLoadProductsFromJSON) evs /\
      (forall l, ~ In (EvRender l) evs) /\
      (exists message, last evs EvShowLoading = EvShowError message) /\
      (products (snd (loadProducts true (file_only_net [blank_entry]) initial))
       = products initial \/
       (render_fails
          (products
            (snd (loadProducts true (file_only_net [blank_entry]) initial))) /\
        products
          (snd (loadProducts true (file_only_net [blank_entry]) initial))
        <> [] /\
        ((api_list (file_only_net [blank_entry])
            (products
              (snd (loadProducts true (file_only_net [blank_entry]) initial))) /\
          Forall displayed_invariant
            (products
              (snd (loadProducts true (file_only_net [blank_entry]) initial))))
         \/
         (file_list (file_only_net [blank_entry])
            (products
              (snd (loadProducts true (file_only_net [blank_entry]) initial))) /\
          Forall file_invariant
            (products
              (snd (loadProducts true (file_only_net [blank_entry]) initial))))))))).
Proof.
  apply (@loadProducts_stored_invariants true
           (file_only_net [blank_entry]) initial).
  reflexivity.
Defined.

(** A list that is stored and never shown: the API delivers a valid
    record whose image cannot be converted to a string, and there is no
    local file.  The product is stored, its card cannot be built, and the
    load ends with the error panel. *)
Lemma loadProducts_unrendered_list_scenario :
  fst (loadProducts true keyed_image_net initial) = Ok tt /\
  (exists p,
     transformProduct keyed_image_record = Some p /\
     products (snd (loadProducts true keyed_image_net initial))
     = [as_value p]) /\
  render_fails (products (snd (loadProducts true keyed_image_net initial))) /\
  (forall l,
     ~ In (EvRender l)
          (trace (snd (loadProducts true keyed_image_net initial)))) /\
  exists message,
    last (trace (snd (loadProducts true keyed_image_net initial)))
         EvShowLoading
    = EvShowError message.
Proof.
  split; [vm_compute; reflexivity|].
  split; [eexists; split; vm_compute; reflexivity|].
  split; [vm_compute; reflexivity|].
  split; [intros l; vm_compute; intuition discriminate|].
  eexists. vm_compute. reflexivity.
Qed.

(** ** Strings: substrings and letter case *)

Lemma startsWith_spec (s t : string) :
  startsWith s t = true <-> exists after, s = (t ++ after)%string.
Proof.
  revert s. induction t as [|b t IH]; intros s; simpl.
  - split; [intros _; now exists s | intros _; reflexivity].
  - destruct s as [|a s]; simpl.
    + split; [discriminate | now intros [after H]].
    + rewrite andb_true_iff, Ascii.eqb_eq, IH. split.
      * intros [-> [after ->]]. now exists after.
      * intros [after [= -> ->]]. split; [reflexivity | now exists after].
Qed.

Lemma includes_spec (s t : string) :
  includes s t = true <-> Substring t s.
Proof.
  unfold Substring. induction s as [|c r IH].
  - cbn [includes]. rewrite orb_false_r, startsWith_spec. split.
    + intros [after H]. now exists ""%string, after.
    + intros ([|? ?] & after & H); [now exists after | discriminate H].
  - cbn [includes]. rewrite orb_true_iff, startsWith_spec, IH. split.
    + intros [[after H] | (before & after & H)].
      * now exists ""%string, after.
      * exists (String c before), after. simpl. now rewrite H.
    + intros ([|c' before] & after & H).
      * left. now exists after.
      * right. simpl in H. injection H as _ H. now exists before, after.
Qed.

Lemma lower_char_idempotent (c : ascii) :
  lower_char (lower_char c) = lower_char c.
Proof.
  destruct c as [[] [] [] [] [] [] [] []]; vm_compute; reflexivity.
Qed.

Lemma toLowerCase_idempotent (s : string) :
  toLowerCase (toLowerCase s) = toLowerCase s.
Proof.
  induction s as [|c r IH]; simpl; [reflexivity|].
  now rewrite lower_char_idempotent, IH.
Qed.

(** ** handleSearch *)


(** On a product the search can read, the callback of the filter returns,
    and returns [true] exactly when one of the three texts contains the
    term. *)
Lemma matches_spec (term : string) (p : value) :
  searchable p ->
  toLowerCase term = term ->
  term <> ""%string ->
  exists b, matches term p = Ok b /\ (b = true <-> found_in term p).
Proof.
  intros ((t & Ht) & (d & Hd) & (v & Hv & Hsub)) Hlower Hne.
  unfold matches. rewrite Ht, Hv, Hd. cbn [and_then call_toLowerCase].
  assert (Hinc : forall s, includes (toLowerCase s) term = true
                           <-> SubstringNoCase term s).
  { intros s. unfold SubstringNoCase. rewrite Hlower. apply includes_spec. }
  assert (Hfield : forall field s b,
             In field ["title"; "subtitle"; "description"]%string ->
             get p field = Ok (VStr s) ->
             includes (toLowerCase s) term = b ->
             b = true -> found_in term p).
  { intros field s b Hin Hget <- Hb. exists field, s.
    repeat split; trivial. now apply Hinc. }
  assert (Hno : forall (P : Prop),
             (includes (toLowerCase t) term = true -> P) ->
             (forall s, v = VStr s -> includes (toLowerCase s) term = true
                        -> P) ->
             (includes (toLowerCase d) term = true -> P) ->
             found_in term p -> P).
  { intros P H1 H2 H3 (field & s & Hin & Hget & Hs).
    apply Hinc in Hs.
    destruct Hin as [<- | [<- | [<- | []]]].
    - rewrite Ht in Hget. injection Hget as <-. auto.
    - rewrite Hv in Hget. injection Hget as ->. eauto.
    - rewrite Hd in Hget. injection Hget as <-. auto. }
  destruct (includes (toLowerCase t) term) eqn:Et.
  { exists true. split; [reflexivity|]. split; [|reflexivity].
    intros _. eapply (Hfield "title"%string); eauto. simpl; auto. }
  destruct Hsub as [Hfalsy | [s ->]].
  - rewrite Hfalsy. cbn [and_then].
    exists (includes (toLowerCase d) term). split; [reflexivity|]. split.
    + eapply (Hfield "description"%string); eauto. simpl; auto.
    + apply Hno; try congruence.
      intros s -> Hs.
      destruct s; [|discriminate].
      apply Hinc in Hs. destruct Hs as (before & after & Hs).
      rewrite Hlower in Hs.
      destruct before; destruct term; try discriminate. congruence.
  - destruct (truthy (VStr s)) eqn:Etruthy; cbn [and_then call_toLowerCase].
    + destruct (includes (toLowerCase s) term) eqn:Es.
      * exists true. split; [reflexivity|]. split; [|reflexivity].
        intros _. eapply (Hfield "subtitle"%string); eauto. simpl; auto.
      * exists (includes (toLowerCase d) term). split; [reflexivity|]. split.
        -- eapply (Hfield "description"%string); eauto. simpl; auto.
        -- apply Hno; congruence.
    + exists (includes (toLowerCase d) term). split; [reflexivity|]. split.
      * eapply (Hfield "description"%string); eauto. simpl; auto.
      * apply Hno; try congruence.
        intros s' [= <-] Hs.
        destruct s; [|discriminate].
        apply Hinc in Hs. destruct Hs as (before & after & Hs).
        rewrite Hlower in Hs.
        destruct before; destruct term; try discriminate. congruence.
Qed.


(** The run of a search: the term stored; then the whole list or the
    list found assigned and rendered, or the error of the filter, nothing
    but the term assigned. *)
Lemma handleSearch_run (searchTerm : string) (st : Store) :
  handleSearch searchTerm st
  = if negb (nonempty (normal searchTerm)) then
      render_outcome
        (searched st (normal searchTerm) (products st)
           [EvClearSearchHidden true]) []
    else
      match filter_result (matches (normal searchTerm)) (products st) with
      | Ok found =>
          render_outcome
            (searched st (normal searchTerm) found
               [EvClearSearchHidden false])
            (if (List.length found =? 0)%nat then [EvShowNoResults]
             else [])
      | Throw e =>
          (Throw e,
           searched st (normal searchTerm) (filteredProducts st) [])
      end.
Proof.
  unfold handleSearch, updateResultsInfo, showNoResults, render_outcome.
  fold (normal searchTerm).
  unfold bind, set_currentSearchTerm, read, set_filteredProducts, lift, ret.
  cbn [fst snd products filteredProducts isLoading currentSearchTerm trace].
  destruct (nonempty (normal searchTerm)) eqn:Hn; cbn [negb].
  - destruct (filter_result (matches (normal searchTerm)) (products st))
      as [found|e]; cbn [fst snd].
    + rewrite !emit_run. cbn [fst snd]. rewrite renderProducts_run.
      unfold searched, add_events.
      cbn [products filteredProducts isLoading currentSearchTerm trace].
      destruct (map_result createProductCard found); [|reflexivity].
      rewrite !emit_run. unfold add_events.
      cbn [fst snd products filteredProducts isLoading currentSearchTerm
           trace].
      rewrite andb_true_r.
      destruct (List.length found =? 0)%nat;
        unfold show_events, emit;
        cbn [products filteredProducts isLoading currentSearchTerm trace
             app];
        rewrite <- ?app_assoc; cbn [app]; rewrite ?app_nil_r;
        reflexivity.
    + unfold searched. now rewrite app_nil_r.
  - rewrite !emit_run. cbn [fst snd]. rewrite renderProducts_run.
    unfold searched, add_events.
    cbn [products filteredProducts isLoading currentSearchTerm trace].
    destruct (map_result createProductCard (products st)); [|reflexivity].
    rewrite !emit_run. unfold add_events.
    cbn [fst snd products filteredProducts isLoading currentSearchTerm
         trace].
    rewrite andb_false_r. unfold show_events.
    rewrite <- ?app_assoc. cbn [app]. rewrite ?app_nil_r. reflexivity.
Qed.





(** The scenario of the specification: "mug" finds both mugs, "green"
    none, and the empty term gives the full list back. *)
Lemma handleSearch_scenario :
  titles (filteredProducts (snd (handleSearch "mug" mugs_store)))
  = [VStr "Blue Mug"; VStr "Red Mug"] /\
  filteredProducts (snd (handleSearch "green" mugs_store)) = [] /\
  In EvShowNoResults (trace (snd (handleSearch "green" mugs_store))) /\
  filteredProducts (snd (handleSearch "" mugs_store)) = products mugs_store.
Proof.
  split; [vm_compute; reflexivity|].
  split; [vm_compute; reflexivity|].
  split; [vm_compute; auto 20|].
  vm_compute; reflexivity.
Qed.

Local Open Scope Z_scope.

(** ** Array.prototype.sort: order and stability *)

Section SortFacts.
Variable A : Type.
Variable comparefn : A -> A -> number.
Variable rk : A -> Z.
Variable good : A -> Prop.
Hypothesis comparefn_rk :
  forall x y, good x -> good y ->
              gt (comparefn x y) zero = (rk y <? rk x).

Lemma insert_sorted (x : A) (l : list A) :
  good x -> Forall good l ->
  StronglySorted (fun a b => rk a <= rk b) l ->
  StronglySorted (fun a b => rk a <= rk b) (insert comparefn x l).
Proof.
  intros Hx Hl Hs. induction Hs as [|y r Hs IH Hy]; cbn [insert].
  - repeat constructor.
  - inversion Hl as [|? ? Hgy Hgr]; subst.
    rewrite (comparefn_rk Hx Hgy).
    destruct (Z.ltb_spec (rk y) (rk x)) as [Hlt | Hge].
    + constructor; [now apply IH|].
      rewrite insert_perm. constructor; [lia | exact Hy].
    + constructor; [now constructor|].
      constructor; [exact Hge|].
      eapply Forall_impl; [|exact Hy]. cbn. intros z Hz. lia.
Qed.

Lemma sort_good (l : list A) : Forall good l -> Forall good (sort comparefn l).
Proof. intros H. now rewrite sort_perm. Qed.

Lemma sort_sorted (l : list A) :
  Forall good l ->
  StronglySorted (fun a b => rk a <= rk b) (sort comparefn l).
Proof.
  induction 1 as [|x r Hx Hr IH]; cbn [sort fold_right]; [constructor|].
  apply insert_sorted; [exact Hx | now apply sort_good | exact IH].
Qed.

(** A test that holds of elements of one rank only sees the insertion as
    a [cons]: the new element only moves behind elements of a lower
    rank. *)
Lemma insert_stable (f : A -> bool) (x : A) (l : list A) :
  (forall a b, f a = true -> f b = true -> rk a = rk b) ->
  good x -> Forall good l ->
  filter f (insert comparefn x l) = filter f (x :: l).
Proof.
  intros Hf Hx Hl. induction Hl as [|y r Hy Hr IH]; cbn [insert];
    [reflexivity|].
  rewrite (comparefn_rk Hx Hy).
  destruct (Z.ltb_spec (rk y) (rk x)) as [Hlt | Hge]; [|reflexivity].
  cbn [filter] in *. rewrite IH.
  destruct (f y) eqn:Fy, (f x) eqn:Fx; try reflexivity.
  specialize (Hf _ _ Fy Fx). lia.
Qed.

Lemma sort_stable (f : A -> bool) (l : list A) :
  (forall a b, f a = true -> f b = true -> rk a = rk b) ->
  Forall good l ->
  filter f (sort comparefn l) = filter f l.
Proof.
  intros Hf. induction 1 as [|x r Hx Hr IH]; cbn [sort fold_right];
    [reflexivity|].
  change (fold_right (insert comparefn) [] r) with (sort comparefn r).
  rewrite insert_stable by (auto using sort_good).
  cbn [filter]. now rewrite IH.
Qed.

End SortFacts.

Lemma StronglySorted_good A (good : A -> Prop) (R R' : A -> A -> Prop)
    (l : list A) :
  (forall a b, good a -> good b -> R a b -> R' a b) ->
  Forall good l -> StronglySorted R l -> StronglySorted R' l.
Proof.
  intros HR Hl Hs. induction Hs as [|x r Hs IH Hx]; [constructor|].
  inversion Hl as [|? ? Hgx Hgr]; subst.
  constructor; [now apply IH|].
  rewrite Forall_forall in *. intros z Hz. apply HR; auto.
Qed.

(** ** The order of the loaded products *)

Lemma transformed_order_valid (apiProduct : value) (p : Product) :
  transformed apiProduct = Ok p -> valid (order p) = true.
Proof.
  intros H. open_transformed H. subst p. cbn [order].
  match goal with
  | G : parseFloat _ = Ok ?x |- valid (or_zero ?x) = true =>
      apply or_zero_good, (parseFloat_valid _ G)
  end.
Qed.

Lemma fetchProducts_records net filters s fetched :
  fst (fetchProducts net filters s) = Ok fetched ->
  exists records, fetched = map transformProduct records.
Proof.
  unfold fetchProducts. run.
  destruct (filter_params filters) as [params|e]; run; [|discriminate].
  run.
  destruct (net _) as [|r]; run; [discriminate|].
  destruct (ok r); run; [|discriminate].
  destruct (body r) as [data|]; run; [|discriminate].
  destruct (get data "results") as [[]|]; run; try discriminate.
  intros [= <-]. eauto.
Qed.

Lemma filter_valid_order (records : list value) :
  Forall (fun p => valid (order p) = true)
         (filter_valid (map transformProduct records)).
Proof.
  apply Forall_forall. intros p Hp.
  apply filter_valid_transformed in Hp as (r & _ & Hr).
  apply transformProduct_Some in Hr as [Hr _].
  now apply transformed_order_valid with r.
Qed.

Lemma by_order_rank (a b : Product) :
  valid (order a) = true -> valid (order b) = true ->
  gt (by_order a b) zero = (rank (key b) <? rank (key a)).
Proof.
  intros Ha Hb. unfold by_order.
  destruct (or_zero_good _ Ha) as [Va Na].
  destruct (or_zero_good _ Hb) as [Vb Nb].
  now apply sub_rank.
Qed.

(** C5.  After a load that ran and did not call the fallback (the API
    path succeeded), the stored list is the list of the valid products of
    the fetched sequence, sorted: a permutation of it, ascending in the
    key [order || 0] (for [<=] on numbers), and stable: the products
    whose key equals a given number come in the order of the fetched
    sequence. *)
Theorem loadProducts_sorts_stably apiDef net st evs :
  isLoading st = false ->
  trace (snd (loadProducts apiDef net st)) = trace st ++ evs ->
  ~ In (EvCall MLoadProductsFromJSON) evs ->
  exists fetched sorted,
    fst (fetchProducts net [] st) = Ok fetched /\
    products (snd (loadProducts apiDef net st)) = map as_value sorted /\
    Permutation sorted (filter_valid fetched) /\
    StronglySorted (fun a b => le (key a) (key b) = true) sorted /\
    forall k : number,
      filter (fun p => SFeqb (key p) k) sorted
      = filter (fun p => SFeqb (key p) k) (filter_valid fetched).
Proof.
  intros Hload Htrace Hnofb.
  rewrite (@loadProducts_run apiDef net st Hload) in *. cbn zeta in *.
  set (s1 := snd (showLoading (snd (set_isLoading true st)))) in *.
  assert (Ht1 : trace s1 = trace st ++ [EvShowLoading]) by reflexivity.
  cbn [snd set_isLoading products trace] in *.
  unfold try_catch in *.
  pose proof (load_from_api_products apiDef net s1) as Hapi.
  destruct (load_from_api_no_fallback apiDef net s1) as (evs2 & Ht2 & _).
  destruct (load_from_api apiDef net s1) as [[u|e] s2]; cbn [snd] in *.
  - destruct Hapi as (fetched & Hfetch & _ & Hprod).
    rewrite (fetchProducts_result net [] s1 st) in Hfetch.
    destruct (fetchProducts_records _ _ _ Hfetch) as [records ->].
    pose proof (filter_valid_order records) as Hgood.
    exists (map transformProduct records),
           (sort by_order (filter_valid (map transformProduct records))).
    split; [exact Hfetch|]. split; [exact Hprod|].
    split; [apply sort_perm|]. split.
    + eapply StronglySorted_good
        with (good := fun p => valid (order p) = true)
             (R := fun a b => rank (key a) <= rank (key b)).
      * intros a b Ha Hb Hab.
        destruct (or_zero_good _ Ha) as [Va Na].
        destruct (or_zero_good _ Hb) as [Vb Nb].
        unfold key. rewrite le_rank by assumption. now apply Z.leb_le.
      * now apply (sort_good by_order).
      * apply sort_sorted with (good := fun p => valid (order p) = true);
          [apply by_order_rank | exact Hgood].
    + intros k.
      apply sort_stable with (rk := fun p => rank (key p))
                             (good := fun p => valid (order p) = true);
        [apply by_order_rank | | exact Hgood].
      intros a b Ha Hb. cbn beta in *.
      rewrite (eqb_rank _ _ Ha), (eqb_rank _ _ Hb). reflexivity.
  - exfalso. apply Hnofb.
    destruct (loadProductsFromJSON_trace net (message_of e) s2)
      as (evs3 & Ht3 & _).
    rewrite Ht3, Ht2, Ht1, <- !app_assoc in Htrace.
    apply app_inv_head in Htrace. subst evs.
    apply in_or_app. right. apply in_or_app. right. now left.
Qed.

Lemma loadProducts_sorts_stably_witness :
  exists fetched sorted,
    fst (fetchProducts mugs_net [] initial) = Ok fetched /\
    products (snd (loadProducts true mugs_net initial))
    = map as_value sorted /\
    Permutation sorted (filter_valid fetched) /\
    StronglySorted (fun a b => le (key a) (key b) = true) sorted /\
    forall k : number,
      filter (fun p => SFeqb (key p) k) sorted
      = filter (fun p => SFeqb (key p) k) (filter_valid fetched).
Proof.
  apply (@loadProducts_sorts_stably true mugs_net initial
           (trace (snd (loadProducts true mugs_net initial)))).
  - reflexivity.
  - reflexivity.
  - vm_compute. intuition discriminate.
Defined.

(** The scenario of the specification: the red mug (order 2) fetched
    before the blue one (order 1) comes after it; and products with the
    same key keep the order of the fetched sequence. *)
Lemma loadProducts_order_scenario :
  titles (products (snd (loadProducts true mugs_net initial)))
  = [VStr "Blue Mug"; VStr "Red Mug"] /\
  titles (products (snd (loadProducts true ties_net initial)))
  = [VStr "B"; VStr "C"; VStr "E"; VStr "D"; VStr "A"].
Proof.
  split; vm_compute; reflexivity.
Qed.

(** The three ways a load ends: the API, the local file, the error
    panel; the flag is down after each. *)
Lemma loadProducts_three_paths :
  (fst (loadProducts true mugs_net initial) = Ok tt /\
   isLoading (snd (loadProducts true mugs_net initial)) = false /\
   last (trace (snd (loadProducts true mugs_net initial))) EvShowLoading
   = EvUpdateResultsInfo) /\
  (fst (loadProducts true (file_only_net [blank_entry]) initial) = Ok tt /\
   isLoading (snd (loadProducts true (file_only_net [blank_entry]) initial))
   = false /\
   exists apiError,
     last (trace (snd (loadProducts true (file_only_net [blank_entry])
                         initial))) EvShowLoading
     = EvShowApiWarning apiError) /\
  (fst (loadProducts true offline_net initial) = Ok tt /\
   isLoading (snd (loadProducts true offline_net initial)) = false /\
   exists message,
     last (trace (snd (loadProducts true offline_net initial))) EvShowLoading
     = EvShowError message).
Proof.
  split; [|split].
  - split; [vm_compute; reflexivity|].
    split; vm_compute; reflexivity.
  - split; [vm_compute; reflexivity|].
    split; [vm_compute; reflexivity|].
    eexists. vm_compute. reflexivity.
  - split; [vm_compute; reflexivity|].
    split; [vm_compute; reflexivity|].
    eexists. vm_compute. reflexivity.
Qed.

(* ================================================================== *)
(** * Further properties                                               *)
(* ================================================================== *)

Local Close Scope Z_scope.

(** ** The failures of the service *)

(** X1.  [testConnection] never throws: it returns [response.ok] when the
    network answers and [false] when it does not. *)
Theorem testConnection_never_throws net st :
  fst (testConnection net st)
  = Ok (match net connection_request with
        | Answer response => ok response
        | NetworkFailure => false
        end).
Proof.
  unfold testConnection. run.
  destruct (net connection_request); reflexivity.
Qed.

(** X2.  [fetchProducts] returns exactly when the network answers, to
    the request built from the filters, with a success status and a JSON
    body whose [results] is an array; then it returns the transforms of
    the records.  In every other case it throws an [Error] whose message
    starts with the text of the service: a [TypeError] of the network, of
    a [null] body or of a filter without a conversion to a string never
    reaches the caller as it is. *)
Theorem fetchProducts_outcome net filters st :
  (exists params response data records,
     filter_params filters = Ok params /\
     net (products_request params) = Answer response /\
     ok response = true /\
     body response = Some data /\
     get data "results" = Ok (VArr records) /\
     fst (fetchProducts net filters st) = Ok (map transformProduct records))
  \/
  ((forall params response data records,
      filter_params filters = Ok params ->
      net (products_request params) = Answer response ->
      ok response = true ->
      body response = Some data ->
      get data "results" <> Ok (VArr records)) /\
   exists cause,
     fst (fetchProducts net filters st)
     = Throw (Error ("Falha ao carregar produtos: " ++ cause)%string)).
Proof.
  unfold fetchProducts. run.
  destruct (filter_params filters) as [params|e] eqn:Hparams; run.
  2:{ right. split; [discriminate | eauto]. }
  run.
  destruct (net (products_request params)) as [|r] eqn:Hnet; run.
  { right. split; [|eauto]. intros p' r' d rs [= <-]. congruence. }
  destruct (ok r) eqn:Hok; run.
  2:{ right. split; [|eauto].
      intros p' r' d rs [= <-] Hn. rewrite Hnet in Hn.
      injection Hn as <-. congruence. }
  destruct (body r) as [data|] eqn:Hbody; run.
  2:{ right. split; [|eauto].
      intros p' r' d rs [= <-] Hn. rewrite Hnet in Hn.
      injection Hn as <-. congruence. }
  destruct (get data "results") as [results|e] eqn:Hres; run.
  2:{ right. split; [|eauto].
      intros p' r' d rs [= <-] Hn _ Hb. rewrite Hnet in Hn.
      injection Hn as <-. rewrite Hbody in Hb.
      injection Hb as <-. congruence. }
  destruct results; run;
    try (right; split; [|eauto];
         intros p' r' d rs [= <-] Hn _ Hb; rewrite Hnet in Hn;
         injection Hn as <-; rewrite Hbody in Hb;
         injection Hb as <-; congruence).
  left. exists params, r, data, items. auto 7.
Qed.

(** ** searchProducts *)

Lemma try_catch_rethrow A (c : M A) (s : Store) :
  try_catch c (fun error => throw error) s = c s.
Proof.
  unfold try_catch, throw. now destruct (c s) as [[a|e] s'].
Qed.

Lemma trimStart_head (s : string) :
  forall c, first_char (trimStart s) = Some c -> is_ws c = false.
Proof.
  induction s as [|a r IH]; cbn [trimStart]; [discriminate|].
  destruct (is_ws a) eqn:Ha; [exact IH|].
  intros c [= <-]. exact Ha.
Qed.

Lemma trimEnd_head (s : string) :
  (forall c, first_char s = Some c -> is_ws c = false) ->
  first_char (trimEnd s) = first_char s.
Proof.
  destruct s as [|a r]; [reflexivity|]. intros H.
  cbn [trimEnd]. rewrite (H a eq_refl).
  now destruct (trimEnd r).
Qed.

Lemma trimStart_fixed (s : string) :
  (forall c, first_char s = Some c -> is_ws c = false) -> trimStart s = s.
Proof.
  destruct s as [|a r]; [reflexivity|]. intros H.
  cbn [trimStart]. now rewrite (H a eq_refl).
Qed.

Lemma trimEnd_last (s : string) :
  forall c, last_char (trimEnd s) = Some c -> is_ws c = false.
Proof.
  induction s as [|a r IH]; cbn [trimEnd]; [discriminate|].
  destruct (trimEnd r) as [|b r'] eqn:Hr.
  - destruct (is_ws a) eqn:Ha; [discriminate|].
    intros c [= <-]. exact Ha.
  - intros c Hc. apply IH. exact Hc.
Qed.

Lemma trimEnd_idempotent (s : string) : trimEnd (trimEnd s) = trimEnd s.
Proof.
  induction s as [|a r IH]; [reflexivity|].
  cbn [trimEnd].
  destruct (trimEnd r) as [|b r'] eqn:Hr.
  - destruct (is_ws a) eqn:Ha; [reflexivity|].
    cbn [trimEnd]. now rewrite Ha.
  - cbn [trimEnd] in *. rewrite IH. reflexivity.
Qed.

(** [trim] leaves no white space at the ends, and trimming twice is
    trimming once. *)
Lemma trim_trimmed (s : string) : trimmed (trim s).
Proof.
  unfold trim. split.
  - intros c Hc. rewrite trimEnd_head in Hc by apply trimStart_head.
    now apply (trimStart_head s).
  - apply trimEnd_last.
Qed.

Lemma trim_idempotent (s : string) : trim (trim s) = trim s.
Proof.
  unfold trim at 1.
  rewrite trimStart_fixed by apply trim_trimmed.
  unfold trim. apply trimEnd_idempotent.
Qed.

Lemma filter_params_search (t : string) :
  filter_params [("search", VStr t)] = Ok [("search", t)].
Proof. reflexivity. Qed.

(** X3.  On a string, [searchProducts] is [fetchProducts] with no filter
    when the trimmed term is empty, and with the one filter
    [search = term.trim()] otherwise, results and errors unchanged; the
    white space around the term makes no difference.  On [null],
    [undefined] and the other falsy values it is [fetchProducts] with no
    filter, and on any other value that is not a string it throws a
    [TypeError]. *)
Theorem searchProducts_spec net st :
  (forall term : string,
     searchProducts net (VStr term) st
     = (if nonempty (trim term)
        then fetchProducts net [("search", VStr (trim term))] st
        else fetchProducts net [] st) /\
     searchProducts net (VStr (trim term)) st
     = searchProducts net (VStr term) st /\
     (nonempty (trim term) = true ->
      filter_params [("search", VStr (trim term))]
      = Ok [("search", trim term)] /\
      query (products_request [("search", trim term)])
      = [("user_field_names", "true"); ("filter__Public__equal", "true");
         ("search", trim term)])) /\
  (forall v, truthy v = false ->
     searchProducts net v st = fetchProducts net [] st) /\
  (forall v, truthy v = true -> is_string v = false ->
     searchProducts net v st = (Throw TypeError, st)).
Proof.
  assert (Hstr : forall term : string,
             searchProducts net (VStr term) st
             = (if nonempty (trim term)
                then fetchProducts net [("search", VStr (trim term))] st
                else fetchProducts net [] st)).
  { intros term. unfold searchProducts, is_blank.
    cbn [truthy call_trim and_then].
    destruct term as [|c r] eqn:Ht.
    - reflexivity.
    - cbn [nonempty negb]. unfold bind at 1. cbn [lift].
      destruct (nonempty (trim (String c r))) eqn:Hn; cbn [negb].
      + rewrite try_catch_rethrow. reflexivity.
      + reflexivity. }
  split; [|split].
  - intros term. split; [apply Hstr|]. split.
    + rewrite !Hstr, trim_idempotent. reflexivity.
    + intros _. split; reflexivity.
  - intros v Hv. unfold searchProducts, is_blank. rewrite Hv. reflexivity.
  - intros v Hv Hs. unfold searchProducts, is_blank. rewrite Hv.
    destruct v; try discriminate; reflexivity.
Qed.

(** ** The fields of a transformed product *)

(** X4.  The texts of a product returned by [transformProduct] carry no
    white space at their ends: the title, the description and, when there
    is one, the subtitle are trimmed (and the first two are not empty). *)
Theorem transformProduct_texts_trimmed (apiProduct : value) (p : Product) :
  transformProduct apiProduct = Some p ->
  trimmed (title p) /\ title p <> ""%string /\
  trimmed (description p) /\ description p <> ""%string /\
  (forall s, subtitle p = Some s -> trimmed s).
Proof.
  intros H. apply transformProduct_Some in H as [H Hinv].
  destruct Hinv as (_ & Ht & Hd & _).
  open_transformed H. subst p. cbn [title description subtitle] in *.
  split; [apply trim_trimmed|]. split; [exact Ht|].
  split; [apply trim_trimmed|]. split; [exact Hd|].
  intros s Hs. rewrite Hs in *.
  match goal with
  | G : (if truthy ?v then _ else _) = Ok (Some s) |- _ =>
      destruct (truthy v); [|discriminate];
      destruct (ToString v); cbn [and_then] in G; [|discriminate];
      injection G as <-
  end.
  apply trim_trimmed.
Qed.

Lemma transformProduct_texts_trimmed_witness :
  transformProduct padded_record = Some padded_product /\
  trimmed (title padded_product) /\ title padded_product <> ""%string /\
  trimmed (description padded_product) /\
  description padded_product <> ""%string /\
  (forall s, subtitle padded_product = Some s -> trimmed s).
Proof.
  split; [vm_compute; reflexivity|].
  apply (@transformProduct_texts_trimmed padded_record padded_product).
  vm_compute; reflexivity.
Defined.

Lemma map_result_Forall2 A B (f : A -> result B) (l : list A) (l' : list B) :
  map_result f l = Ok l' -> Forall2 (fun a b => f a = Ok b) l l'.
Proof.
  revert l'. induction l as [|a r IH]; intros l'; cbn [map_result].
  - intros [= <-]. constructor.
  - destruct (f a) as [b|] eqn:Hb; cbn [and_then]; [|discriminate].
    destruct (map_result f r) as [bs|]; cbn [and_then]; [|discriminate].
    intros [= <-]. constructor; auto.
Qed.

Lemma map_result_Throw A B (f : A -> result B) (l : list A) (a : A) e :
  In a l -> f a = Throw e -> exists e', map_result f l = Throw e'.
Proof.
  induction l as [|x r IH]; [intros []|].
  intros [-> | Hin] Ha; cbn [map_result].
  - rewrite Ha. cbn. eauto.
  - destruct (f x); cbn [and_then]; [|eauto].
    destruct (IH Hin Ha) as [e' ->]. cbn. eauto.
Qed.

(** X5.  The gallery of a product returned by [transformProduct] has one
    entry per image of the record, in order: the [url] of the image when
    it has one, the image itself otherwise; a record whose gallery is not
    an array gets the empty gallery. *)
Theorem transformProduct_gallery (apiProduct : value) (p : Product) :
  transformProduct apiProduct = Some p ->
  (forall images, get apiProduct "gallery" = Ok (VArr images) ->
     Forall2 (fun image entry =>
                exists u, get image "url" = Ok u /\
                          entry = if truthy u then u else image)
             images (gallery p)) /\
  (forall g, get apiProduct "gallery" = Ok g -> isArray g = false ->
     gallery p = []).
Proof.
  intros H. apply transformProduct_Some in H as [H _].
  open_transformed H. subst p. cbn [gallery].
  split.
  - intros images Hg. injection Hg as ->.
    apply map_result_Forall2 in G0.
    eapply Forall2_impl; [|exact G0].
    intros image entry Hi. cbn beta in Hi.
    destruct (get image "url") as [u|]; cbn [and_then] in Hi;
      [|discriminate].
    injection Hi as <-. eauto.
  - intros g Hg Ha. injection Hg as ->.
    destruct g; try discriminate; cbn in G0; now injection G0 as <-.
Qed.

Lemma transformProduct_gallery_witness :
  transformProduct padded_record = Some padded_product /\
  (forall images, get padded_record "gallery" = Ok (VArr images) ->
     Forall2 (fun image entry =>
                exists u, get image "url" = Ok u /\
                          entry = if truthy u then u else image)
             images (gallery padded_product)) /\
  (forall g, get padded_record "gallery" = Ok g -> isArray g = false ->
     gallery padded_product = []).
Proof.
  split; [vm_compute; reflexivity|].
  apply (@transformProduct_gallery padded_record padded_product).
  vm_compute; reflexivity.
Defined.

(** X6.  One image that is [null] or [undefined] in the gallery of a
    record discards the record: reading its [url] throws, and
    [transformProduct] returns [null]. *)
Theorem transformProduct_null_image (apiProduct : value) images :
  get apiProduct "gallery" = Ok (VArr images) ->
  In VNull images \/ In VUndefined images ->
  transformProduct apiProduct = None.
Proof.
  intros Hg Hin.
  assert (Hthrow : exists e,
             map_result
               (fun image =>
                  (u <- get image "url" ;;
                   Ok (if truthy u then u else image))%result) images
             = Throw e).
  { destruct Hin as [Hin | Hin];
      eapply map_result_Throw; try exact Hin; reflexivity. }
  destruct Hthrow as [e He].
  unfold transformProduct, transformed.
  rewrite Hg. cbn [and_then]. rewrite He. reflexivity.
Qed.

Lemma transformProduct_null_image_witness :
  transformProduct null_image_record = None.
Proof.
  apply (@transformProduct_null_image null_image_record [VStr "a.png"; VNull]).
  - reflexivity.
  - left. right. left. reflexivity.
Defined.

(** X7.  The prices and the sort key of a product returned by
    [transformProduct]: the price is a positive number, the promotional
    price is absent or a positive number (never zero, negative or [NaN]),
    and the order is a number of the format that is not [NaN]. *)
Theorem transformProduct_prices (apiProduct : value) (p : Product) :
  transformProduct apiProduct = Some p ->
  (exists x, price p = Some x /\ gt x zero = true /\ valid x = true) /\
  (forall x, promotionalPrice p = Some x ->
             gt x zero = true /\ valid x = true) /\
  isNaN (order p) = false /\ valid (order p) = true.
Proof.
  intros H. apply transformProduct_Some in H as [H Hinv].
  destruct Hinv as (_ & _ & _ & (x & Hx & Hpos) & _).
  pose proof (transformed_order_valid _ H) as Hov.
  open_transformed H. subst p.
  cbn [price promotionalPrice order] in *.
  split.
  { exists x. split; [exact Hx|]. split; [exact Hpos|].
    subst. eapply parsePrice_valid; eassumption. }
  split.
  { intros y Hy. subst.
    split; [eapply parsePrice_positive | eapply parsePrice_valid];
      eassumption. }
  split; [|exact Hov].
  apply or_zero_not_nan.
Qed.

Lemma transformProduct_prices_witness :
  transformProduct padded_record = Some padded_product /\
  (exists x, price padded_product = Some x /\ gt x zero = true /\
             valid x = true) /\
  (forall x, promotionalPrice padded_product = Some x ->
             gt x zero = true /\ valid x = true) /\
  isNaN (order padded_product) = false /\
  valid (order padded_product) = true.
Proof.
  split; [vm_compute; reflexivity|].
  apply (@transformProduct_prices padded_record padded_product).
  vm_compute; reflexivity.
Defined.

(** ** validateProductsData *)

Lemma valid_entry_total (v : value) : exists b, valid_entry v = Ok b.
Proof.
  unfold valid_entry. destruct (truthy v) eqn:Hv; cbn [negb]; [|eauto].
  destruct v; try discriminate; cbn [get and_then is_undefined];
    try (cbn; eauto; fail).
  destruct (is_undefined (lookup "id" props)); [eauto|].
  destruct (is_string (lookup "title" props)); cbn [negb]; [|eauto].
  destruct (is_string (lookup "description" props)); cbn [negb]; [|eauto].
  destruct (isArray (lookup "gallery" props)); cbn [negb]; [|eauto].
  destruct (lookup "price" props); eauto.
Qed.

Lemma file_invariant_valid_entry (v : value) :
  file_invariant v -> valid_entry v = Ok true.
Proof.
  intros ((i & Hi & Hu) & (t & Ht) & (d & Hd) & (g & Hg) & (x & Hx & Hge)).
  destruct v; try discriminate;
    try (cbn in Hi; injection Hi as <-; now elim Hu).
  unfold valid_entry. cbn [truthy negb].
  rewrite Hi. cbn [and_then].
  destruct i; try (now elim Hu); cbn [is_undefined];
    rewrite Ht; cbn [and_then is_string negb];
    rewrite Hd; cbn [and_then is_string negb];
    rewrite Hg; cbn [and_then isArray negb];
    rewrite Hx; cbn [and_then]; now rewrite Hge.
Qed.

Lemma every_valid_entry_spec (entries : list value) :
  exists b, every valid_entry entries = Ok b /\
            (b = true <-> Forall file_invariant entries).
Proof.
  induction entries as [|v r (b & Hb & IH)]; cbn [every].
  - exists true. split; [reflexivity|]. split; auto.
  - destruct (valid_entry_total v) as [bv Hv]. rewrite Hv. cbn [and_then].
    destruct bv.
    + exists b. split; [exact Hb|]. rewrite IH. split.
      * intros Hr. constructor; [now apply valid_entry_invariant | exact Hr].
      * intros Hall. now inversion Hall.
    + exists false. split; [reflexivity|]. split; [discriminate|].
      intros Hall. inversion Hall as [|? ? Hinv _]; subst.
      apply file_invariant_valid_entry in Hinv. congruence.
Qed.

(** X8.  [validateProductsData] never throws, and it accepts the data
    exactly when [data.products] is an array whose entries all have a
    defined id, a string title, a string description, an array gallery and
    a number price that is not negative; the empty array is accepted. *)
Theorem validateProductsData_spec (data : value) :
  exists b,
    validateProductsData data = Ok b /\
    (b = true <->
     exists entries,
       get data "products" = Ok (VArr entries) /\
       Forall file_invariant entries).
Proof.
  unfold validateProductsData.
  destruct (truthy data) eqn:Htruthy; cbn [negb].
  - destruct (get data "products") as [ps|e] eqn:Hps.
    2:{ destruct data; discriminate. }
    cbn [and_then].
    destruct ps;
      try (exists false; split; [reflexivity|]; split; [discriminate|];
           intros (entries & [=] & _); fail).
    destruct (every_valid_entry_spec items) as (b & Hb & Hiff).
    exists b. split; [exact Hb|]. rewrite Hiff. split.
    + intros Hall. now exists items.
    + now intros (entries & [= <-] & Hall).
  - exists false. split; [reflexivity|]. split; [discriminate|].
    intros (entries & Hget & _).
    destruct data; try discriminate.
Qed.

(** ** The requests of the service *)

(** X9.  Each method of the service sends one request and no more,
    whatever the answer, and leaves the fields of the controller as they
    are: the store after the call is the store before it with the call
    and its request added to the events.  The request is built from the
    arguments as strings; filters or an id without a conversion to a
    string send no request at all. *)
Theorem service_sends_one_request net st :
  snd (testConnection net st)
  = add_events st [EvCall MTestConnection; EvFetch connection_request] /\
  (forall filters params,
     filter_params filters = Ok params ->
     snd (fetchProducts net filters st)
     = add_events st [EvCall MFetchProducts;
                      EvFetch (products_request params)]) /\
  (forall productId text,
     ToString productId = Ok text ->
     snd (fetchProductById net productId st)
     = add_events st [EvCall MFetchProductById;
                      EvFetch (by_id_request text)]) /\
  (forall term : string,
     snd (searchProducts net (VStr term) st)
     = add_events st
         [EvCall MFetchProducts;
          EvFetch (products_request
                     (if nonempty (trim term)
                      then [("search", trim term)] else []))]) /\
  (forall filters e,
     filter_params filters = Throw e ->
     snd (fetchProducts net filters st)
     = add_events st [EvCall MFetchProducts]) /\
  (forall productId e,
     ToString productId = Throw e ->
     snd (fetchProductById net productId st)
     = add_events st [EvCall MFetchProductById]).
Proof.
  assert (Hfetch : forall filters params,
             filter_params filters = Ok params ->
             snd (fetchProducts net filters st)
             = add_events st [EvCall MFetchProducts;
                              EvFetch (products_request params)]).
  { intros filters params Hp.
    pose proof (fetchProducts_run net filters st) as H. rewrite Hp in H.
    now destruct H as (r & -> & _). }
  split; [now rewrite testConnection_run|].
  split; [exact Hfetch|].
  split.
  { intros productId text Ht.
    destruct (fetchProductById_run net productId st) as (r & ->).
    now rewrite Ht. }
  split.
  { intros term.
    assert (Hs : searchProducts net (VStr term) st
                 = fetchProducts net
                     (if nonempty (trim term)
                      then [("search", VStr (trim term))] else []) st).
    { unfold searchProducts, is_blank.
      cbn [truthy call_trim and_then].
      destruct term as [|c r] eqn:Ht; [reflexivity|].
      cbn [nonempty negb]. unfold bind at 1. cbn [lift].
      destruct (nonempty (trim (String c r))) eqn:Hn; cbn [negb].
      - rewrite try_catch_rethrow. unfold bind, lift. reflexivity.
      - reflexivity. }
    rewrite Hs. apply Hfetch. now destruct (nonempty (trim term)). }
  split.
  { intros filters e He.
    pose proof (fetchProducts_run net filters st) as H. rewrite He in H.
    now rewrite H. }
  intros productId e He.
  destruct (fetchProductById_run net productId st) as (r & ->).
  now rewrite He.
Qed.

(** ** The outcomes of a load *)



(** ** The search term *)

Lemma is_ws_lower_char (c : ascii) : is_ws (lower_char c) = is_ws c.
Proof. destruct c as [[] [] [] [] [] [] [] []]; reflexivity. Qed.

Lemma toLowerCase_empty (s : string) :
  toLowerCase s = ""%string -> s = ""%string.
Proof. destruct s; [reflexivity | discriminate]. Qed.

Lemma trimStart_toLowerCase (s : string) :
  trimStart (toLowerCase s) = toLowerCase (trimStart s).
Proof.
  induction s as [|c r IH]; [reflexivity|].
  cbn [toLowerCase trimStart]. rewrite is_ws_lower_char.
  destruct (is_ws c); [exact IH | reflexivity].
Qed.

Lemma trimEnd_toLowerCase (s : string) :
  trimEnd (toLowerCase s) = toLowerCase (trimEnd s).
Proof.
  induction s as [|c r IH]; [reflexivity|].
  cbn [toLowerCase trimEnd]. rewrite IH, is_ws_lower_char.
  destruct (trimEnd r) as [|b r']; cbn [toLowerCase].
  - destruct (is_ws c); reflexivity.
  - reflexivity.
Qed.

Lemma trim_toLowerCase (s : string) :
  trim (toLowerCase s) = toLowerCase (trim s).
Proof.
  unfold trim. now rewrite trimStart_toLowerCase, trimEnd_toLowerCase.
Qed.

Lemma normal_idempotent (t : string) : normal (normal t) = normal t.
Proof.
  unfold normal.
  now rewrite trim_toLowerCase, trim_idempotent, toLowerCase_idempotent.
Qed.

Lemma all_ws_trimStart (t : string) : all_ws t = true -> trimStart t = ""%string.
Proof.
  induction t as [|c r IH]; [reflexivity|].
  cbn [all_ws trimStart]. intros [Hc Hr]%andb_true_iff.
  rewrite Hc. auto.
Qed.

Lemma all_ws_normal (t : string) : all_ws t = true -> normal t = ""%string.
Proof.
  intros H. unfold normal, trim. now rewrite all_ws_trimStart.
Qed.

(** ** Clearing the search *)

Lemma clearSearch_run (st : Store) :
  clearSearch st
  = render_outcome
      (searched st "" (products st) [EvClearSearchHidden true]) [].
Proof.
  unfold clearSearch, updateResultsInfo, render_outcome.
  unfold bind, set_currentSearchTerm, read, set_filteredProducts.
  cbn [fst snd products filteredProducts isLoading currentSearchTerm trace].
  rewrite !emit_run. cbn [fst snd]. rewrite renderProducts_run.
  unfold searched, add_events.
  cbn [products filteredProducts isLoading currentSearchTerm trace].
  destruct (map_result createProductCard (products st)); [|reflexivity].
  rewrite !emit_run. unfold add_events, show_events.
  cbn [fst snd products filteredProducts isLoading currentSearchTerm trace].
  rewrite <- ?app_assoc. cbn [app]. rewrite ?app_nil_r. reflexivity.
Qed.

(** X11.  [clearSearch] is the search for a blank term: a search for a
    term of white space only does exactly the same, the same fields and
    the same events, and [clearAllFilters] is [clearSearch].  It stores
    the empty term and makes the whole list the filtered list, the
    products untouched; then, when the cards of the products can be
    built, it shows the whole list again and returns; when one cannot, it
    throws the error of the render, the grid as it was. *)
Theorem clearSearch_is_blank_search (st : Store) :
  (forall t, all_ws t = true -> handleSearch t st = clearSearch st) /\
  clearAllFilters st = clearSearch st /\
  (renders (products st) ->
   clearSearch st
   = (Ok tt, searched st "" (products st)
               (EvClearSearchHidden true :: show_events (products st)))) /\
  (render_fails (products st) ->
   clearSearch st
   = (Throw TypeError,
      searched st "" (products st) [EvClearSearchHidden true])) /\
  (renders (products st) \/ render_fails (products st)).
Proof.
  split.
  { intros t Ht. rewrite handleSearch_run, clearSearch_run.
    now rewrite (all_ws_normal t Ht). }
  split; [reflexivity|].
  rewrite clearSearch_run. unfold render_outcome, renders, render_fails.
  cbn [searched filteredProducts].
  destruct (map_result createProductCard (products st)) as [cards|e]
    eqn:Hcards.
  - split.
    { intros _. unfold searched, add_events, show_events.
      cbn [products filteredProducts isLoading currentSearchTerm trace].
      rewrite <- ?app_assoc. cbn [app]. rewrite ?app_nil_r. reflexivity. }
    split; [discriminate|]. left. now exists cards.
  - pose proof (render_throws _ Hcards) as ->.
    split; [intros [cards H]; discriminate|].
    split; [reflexivity | now right].
Qed.

(** ** The search: the term *)

(** X12.  A search depends on its term only through the trimmed,
    lower-cased term: searching for that normal form is searching for the
    term itself.  And a search is idempotent on the fields of the
    controller: run a second time with the same term it ends in the same
    way and leaves the same products, the same filtered list and the same
    stored term. *)
Theorem handleSearch_normalises (searchTerm : string) (st : Store) :
  handleSearch (toLowerCase (trim searchTerm)) st
  = handleSearch searchTerm st /\
  fst (handleSearch searchTerm (snd (handleSearch searchTerm st)))
  = fst (handleSearch searchTerm st) /\
  same_fields (snd (handleSearch searchTerm (snd (handleSearch searchTerm st))))
              (snd (handleSearch searchTerm st)).
Proof.
  fold (normal searchTerm). split.
  { rewrite !handleSearch_run, normal_idempotent. reflexivity. }
  assert (Hout : forall s extra extra',
             (forall evs, filteredProducts (add_events s evs)
                          = filteredProducts s) ->
             fst (render_outcome s extra) = fst (render_outcome s extra') /\
             same_fields (snd (render_outcome s extra)) s).
  { intros s extra extra' _. unfold render_outcome.
    destruct (map_result createProductCard (filteredProducts s));
      cbn [fst snd]; split; try reflexivity; repeat split. }
  assert (Hfields : forall s s' extra,
             same_fields s s' ->
             fst (render_outcome s extra) = fst (render_outcome s' extra) /\
             same_fields (snd (render_outcome s extra))
                         (snd (render_outcome s' extra))).
  { intros s s' extra (Hp & Hf & Hi & Hc). unfold render_outcome.
    rewrite Hf.
    destruct (map_result createProductCard (filteredProducts s'));
      cbn [fst snd]; split; try reflexivity; repeat split; assumption. }
  rewrite (handleSearch_run searchTerm st).
  destruct (nonempty (normal searchTerm)) eqn:Hn; cbn [negb].
  - destruct (filter_result (matches (normal searchTerm)) (products st))
      as [found|e] eqn:Hf.
    + match goal with
      | |- context [snd (render_outcome ?s ?extra)] =>
          set (s1 := s); set (x := extra);
          assert (H1 : same_fields (snd (render_outcome s1 x)) s1)
            by (unfold render_outcome;
                destruct (map_result createProductCard (filteredProducts s1));
                repeat split)
      end.
      rewrite handleSearch_run, Hn. cbn [negb].
      destruct H1 as (Hp & Hfp & Hi & Hc).
      rewrite Hp. subst s1. cbn [searched products]. rewrite Hf.
      match goal with
      | |- fst (render_outcome ?s2 _) = _ /\ _ =>
          assert (H2 : same_fields s2
                         (searched st (normal searchTerm) found
                            [EvClearSearchHidden false]))
            by (repeat split; assumption)
      end.
      destruct (Hfields _ _ x H2) as [Hfst Hsame].
      split; [exact Hfst|].
      destruct Hsame as (A & B & C & D).
      repeat split; assumption.
    + cbn [fst snd]. rewrite handleSearch_run, Hn. cbn [negb].
      cbn [searched products]. rewrite Hf. cbn [fst snd].
      split; [reflexivity|]. repeat split.
  - match goal with
    | |- context [snd (render_outcome ?s ?extra)] =>
        set (s1 := s);
        assert (H1 : same_fields (snd (render_outcome s1 extra)) s1)
          by (unfold render_outcome;
              destruct (map_result createProductCard (filteredProducts s1));
              repeat split)
    end.
    rewrite handleSearch_run, Hn. cbn [negb].
    destruct H1 as (Hp & Hfp & Hi & Hc).
    rewrite Hp. subst s1. cbn [searched products].
    match goal with
    | |- fst (render_outcome ?s2 _) = _ /\ _ =>
        assert (H2 : same_fields s2
                       (searched st (normal searchTerm) (products st)
                          [EvClearSearchHidden true]))
          by (repeat split; assumption)
    end.
    destruct (Hfields _ _ [] H2) as [Hfst Hsame].
    split; [exact Hfst|].
    destruct Hsame as (A & B & C & D).
    repeat split; assumption.
Qed.

(** ** The search: failures *)

Lemma matches_throws (term : string) (p : value) (e : error) :
  matches term p = Throw e -> e = TypeError.
Proof.
  unfold matches.
  assert (Hlow : forall x v, call_toLowerCase x = Throw v -> v = TypeError)
    by (intros x v; destruct x; cbn; congruence).
  destruct (get p "title") as [vt|] eqn:E1; cbn [and_then];
    [|intros [= <-]; now apply get_throws in E1].
  destruct (call_toLowerCase vt) as [t|] eqn:E2; cbn [and_then];
    [|intros [= <-]; eauto].
  destruct (includes t term); [discriminate|].
  destruct (get p "subtitle") as [vs|] eqn:E3; cbn [and_then];
    [|intros [= <-]; now apply get_throws in E3].
  destruct (truthy vs).
  - destruct (call_toLowerCase vs) as [s|] eqn:E4; cbn [and_then];
      [|intros [= <-]; eauto].
    destruct (includes s term); [discriminate|].
    destruct (get p "description") as [vd|] eqn:E5; cbn [and_then];
      [|intros [= <-]; now apply get_throws in E5].
    destruct (call_toLowerCase vd) as [d|] eqn:E6; cbn [and_then];
      [discriminate | intros [= <-]; eauto].
  - cbn [and_then].
    destruct (get p "description") as [vd|] eqn:E5; cbn [and_then];
      [|intros [= <-]; now apply get_throws in E5].
    destruct (call_toLowerCase vd) as [d|] eqn:E6; cbn [and_then];
      [discriminate | intros [= <-]; eauto].
Qed.

Lemma filter_result_throws (f : value -> result bool) (l : list value) e :
  filter_result f l = Throw e -> exists p, In p l /\ f p = Throw e.
Proof.
  induction l as [|a r IH]; cbn [filter_result]; [discriminate|].
  destruct (f a) as [b|e'] eqn:Ha; cbn [and_then].
  - destruct (filter_result f r) as [rest|e'']; cbn [and_then];
      [discriminate|].
    intros [= ->]. destruct (IH eq_refl) as (p & Hin & Hp).
    exists p. split; [now right | exact Hp].
  - intros [= ->]. exists a. split; [now left | exact Ha].
Qed.

(** X13.  A search for a term that is not blank either returns or throws
    a [TypeError], and it throws in two cases only.  The filter meets a
    product it cannot read (a title or a description that is not a
    string, a subtitle that is neither a string nor falsy): the new term
    is already stored, the filtered list and the page are as they were.
    Or the card of a product found cannot be built: the term and the list
    found are stored, the button that clears the search is shown, and the
    grid is as it was. *)
Theorem handleSearch_failure (searchTerm : string) (st : Store) :
  toLowerCase (trim searchTerm) <> ""%string ->
  (fst (handleSearch searchTerm st) = Ok tt \/
   fst (handleSearch searchTerm st) = Throw TypeError) /\
  (fst (handleSearch searchTerm st) = Throw TypeError ->
   (snd (handleSearch searchTerm st)
    = searched st (toLowerCase (trim searchTerm)) (filteredProducts st) [] /\
    exists p, In p (products st) /\ ~ searchable p)
   \/
   (exists found,
      filter_result (matches (toLowerCase (trim searchTerm))) (products st)
      = Ok found /\
      snd (handleSearch searchTerm st)
      = searched st (toLowerCase (trim searchTerm)) found
          [EvClearSearchHidden false] /\
      exists p, In p found /\ sanitizeProductData p = Throw TypeError)).
Proof.
  fold (normal searchTerm). intros Hne.
  rewrite handleSearch_run.
  destruct (nonempty (normal searchTerm)) eqn:Hn; cbn [negb].
  2:{ destruct (normal searchTerm); [now elim Hne | discriminate]. }
  destruct (filter_result (matches (normal searchTerm)) (products st))
    as [found|e] eqn:Hf; cbn [fst snd].
  - unfold render_outcome. cbn [searched filteredProducts].
    destruct (map_result createProductCard found) as [cards|e] eqn:Hcards;
      cbn [fst snd].
    + split; [now left | discriminate].
    + pose proof (render_throws _ Hcards) as ->.
      split; [now right|]. intros _. right. exists found.
      split; [reflexivity|]. split; [reflexivity|].
      apply map_result_throws in Hcards as (p & Hin & Hp). eauto.
  - apply filter_result_throws in Hf as (p & Hin & Hp).
    pose proof (matches_throws _ _ Hp) as ->.
    split; [now right|]. intros _. left. split; [reflexivity|].
    exists p. split; [exact Hin|]. intros Hs.
    destruct (@matches_spec (normal searchTerm) p Hs) as (b & Hb & _);
      [apply toLowerCase_idempotent | exact Hne | congruence].
Qed.

Lemma handleSearch_failure_witness :
  (fst (handleSearch "cup" numbered_store) = Ok tt \/
   fst (handleSearch "cup" numbered_store) = Throw TypeError) /\
  (fst (handleSearch "cup" numbered_store) = Throw TypeError ->
   (snd (handleSearch "cup" numbered_store)
    = searched numbered_store (toLowerCase (trim "cup"))
        (filteredProducts numbered_store) [] /\
    exists p, In p (products numbered_store) /\ ~ searchable p)
   \/
   (exists found,
      filter_result (matches (toLowerCase (trim "cup")))
        (products numbered_store)
      = Ok found /\
      snd (handleSearch "cup" numbered_store)
      = searched numbered_store (toLowerCase (trim "cup")) found
          [EvClearSearchHidden false] /\
      exists p, In p found /\ sanitizeProductData p = Throw TypeError)).
Proof.
  apply (@handleSearch_failure "cup" numbered_store).
  vm_compute. discriminate.
Defined.

(** ** The search: the page *)

(** X14.  The events of a search for a term that is not blank, when it
    returns: the button that clears the search is shown, the list found is
    rendered and the counter updated, and the panel of no results comes
    last, exactly when nothing was found; the list rendered is the
    filtered list of the controller. *)
Theorem handleSearch_events (searchTerm : string) (st : Store) :
  toLowerCase (trim searchTerm) <> ""%string ->
  fst (handleSearch searchTerm st) = Ok tt ->
  trace (snd (handleSearch searchTerm st))
  = trace st
    ++ EvClearSearchHidden false
    :: show_events (filteredProducts (snd (handleSearch searchTerm st)))
    ++ match filteredProducts (snd (handleSearch searchTerm st)) with
       | [] => [EvShowNoResults]
       | _ :: _ => []
       end.
Proof.
  fold (normal searchTerm). intros Hne.
  rewrite handleSearch_run.
  destruct (nonempty (normal searchTerm)) eqn:Hn; cbn [negb].
  2:{ destruct (normal searchTerm); [now elim Hne | discriminate]. }
  destruct (filter_result (matches (normal searchTerm)) (products st))
    as [found|e] eqn:Hf; cbn [fst snd]; [|discriminate].
  unfold render_outcome. cbn [searched filteredProducts].
  destruct (map_result createProductCard found); cbn [fst snd];
    [|discriminate].
  intros _. unfold searched, add_events.
  cbn [trace filteredProducts products isLoading currentSearchTerm].
  rewrite <- ?app_assoc. cbn [app].
  destruct found; reflexivity.
Qed.

Lemma handleSearch_events_witness :
  trace (snd (handleSearch "green" mugs_store))
  = trace mugs_store
    ++ EvClearSearchHidden false
    :: show_events (filteredProducts (snd (handleSearch "green" mugs_store)))
    ++ match filteredProducts (snd (handleSearch "green" mugs_store)) with
       | [] => [EvShowNoResults]
       | _ :: _ => []
       end.
Proof.
  apply (@handleSearch_events "green" mugs_store).
  - vm_compute. discriminate.
  - vm_compute. reflexivity.
Defined.

(** ** The search: narrowing *)

Lemma Substring_trans (a b s : string) :
  Substring a b -> Substring b s -> Substring a s.
Proof.
  intros (x & y & ->) (x' & y' & ->).
  exists (x' ++ x)%string, (y ++ y')%string.
  induction x' as [|c r IH]; cbn [String.append].
  - induction x as [|c r IH]; cbn [String.append]; [|now rewrite IH].
    induction a as [|c r IH]; cbn [String.append]; [reflexivity|].
    now rewrite IH.
  - now rewrite IH.
Qed.

Lemma includes_narrow (a b s : string) :
  Substring a b -> includes s b = true -> includes s a = true.
Proof.
  intros Hab Hb. apply includes_spec. apply includes_spec in Hb.
  eapply Substring_trans; eassumption.
Qed.

Lemma matches_narrow (a b : string) (p : value) (rb : bool) :
  Substring a b ->
  matches b p = Ok rb ->
  exists ra, matches a p = Ok ra /\ (rb = true -> ra = true).
Proof.
  intros Hab. unfold matches.
  destruct (get p "title") as [vt|]; cbn [and_then]; [|discriminate].
  destruct (call_toLowerCase vt) as [t|]; cbn [and_then]; [|discriminate].
  destruct (includes t a) eqn:Eta; [eauto|].
  destruct (includes t b) eqn:Etb.
  { rewrite (includes_narrow _ Hab Etb) in Eta. discriminate. }
  destruct (get p "subtitle") as [vs|]; cbn [and_then]; [|discriminate].
  destruct (truthy vs).
  - destruct (call_toLowerCase vs) as [s|]; cbn [and_then]; [|discriminate].
    destruct (includes s a) eqn:Esa; [eauto|].
    destruct (includes s b) eqn:Esb.
    { rewrite (includes_narrow _ Hab Esb) in Esa. discriminate. }
    destruct (get p "description") as [vd|]; cbn [and_then]; [|discriminate].
    destruct (call_toLowerCase vd) as [d|]; cbn [and_then]; [|discriminate].
    intros [= <-]. eexists. split; [reflexivity|].
    now apply includes_narrow.
  - cbn [and_then].
    destruct (get p "description") as [vd|]; cbn [and_then]; [|discriminate].
    destruct (call_toLowerCase vd) as [d|]; cbn [and_then]; [|discriminate].
    intros [= <-]. eexists. split; [reflexivity|].
    now apply includes_narrow.
Qed.

Lemma filter_result_narrow (f g : value -> result bool) (l fb : list value) :
  (forall p rb, g p = Ok rb ->
                exists ra, f p = Ok ra /\ (rb = true -> ra = true)) ->
  filter_result g l = Ok fb ->
  exists fa, filter_result f l = Ok fa /\ filter_result g fa = Ok fb.
Proof.
  intros Hfg. revert fb. induction l as [|x r IH]; intros fb.
  - cbn. intros [= <-]. now exists [].
  - cbn [filter_result].
    destruct (g x) as [rb|] eqn:Hg; cbn [and_then]; [|discriminate].
    destruct (filter_result g r) as [rest|]; cbn [and_then]; [|discriminate].
    intros [= <-].
    destruct (Hfg x rb Hg) as (ra & -> & Himp). cbn [and_then].
    destruct (IH rest eq_refl) as (fa & -> & Hfa). cbn [and_then].
    destruct ra.
    + eexists. split; [reflexivity|]. cbn [filter_result].
      rewrite Hg, Hfa. reflexivity.
    + eexists. split; [reflexivity|].
      destruct rb; [now specialize (Himp eq_refl) | exact Hfa].
Qed.

(** X15.  Narrowing a search: when a term that is not blank occurs, in
    its normal form, within a second term, and the search for the second
    term returns, then the filter of the search for the first does not
    throw, and what the second finds is what the filter of the second term
    keeps of the products the first finds, in the same order.  The search
    for the first term returns when the cards of the products it finds
    can be built, and throws the [TypeError] of the render when one
    cannot: it may find a product the second search did not have to
    render. *)
Theorem handleSearch_narrows (shorter longer : string) (st : Store) :
  toLowerCase (trim shorter) <> ""%string ->
  Substring (toLowerCase (trim shorter)) (toLowerCase (trim longer)) ->
  fst (handleSearch longer st) = Ok tt ->
  filter_result (matches (toLowerCase (trim shorter))) (products st)
  = Ok (filteredProducts (snd (handleSearch shorter st))) /\
  filter_result (matches (toLowerCase (trim longer)))
    (filteredProducts (snd (handleSearch shorter st)))
  = Ok (filteredProducts (snd (handleSearch longer st))) /\
  (renders (filteredProducts (snd (handleSearch shorter st))) ->
   fst (handleSearch shorter st) = Ok tt) /\
  (render_fails (filteredProducts (snd (handleSearch shorter st))) ->
   fst (handleSearch shorter st) = Throw TypeError).
Proof.
  fold (normal shorter) (normal longer). intros Hne Hsub.
  assert (Hnl : nonempty (normal longer) = true).
  { destruct Hsub as (x & y & ->).
    destruct x; cbn; [|reflexivity].
    destruct (normal shorter); [now elim Hne | reflexivity]. }
  assert (Hns : nonempty (normal shorter) = true)
    by (destruct (normal shorter); [now elim Hne | reflexivity]).
  assert (Hlist : forall s extra,
             filteredProducts (snd (render_outcome s extra))
             = filteredProducts s).
  { intros s extra. unfold render_outcome.
    destruct (map_result createProductCard (filteredProducts s));
      reflexivity. }
  rewrite !handleSearch_run, Hnl, Hns. cbn [negb].
  destruct (filter_result (matches (normal longer)) (products st))
    as [fb|e] eqn:Hfb; cbn [fst snd]; [|discriminate].
  intros _.
  destruct (@filter_result_narrow (matches (normal shorter))
              (matches (normal longer)) (products st) fb)
    as (fa & Hfa & Hfab); [|exact Hfb|].
  { intros p rb. now apply matches_narrow. }
  rewrite Hfa, !Hlist. cbn [searched filteredProducts].
  split; [reflexivity|]. split; [exact Hfab|].
  unfold render_outcome, renders, render_fails.
  cbn [searched filteredProducts].
  destruct (map_result createProductCard fa) as [cards|e] eqn:Hcards;
    cbn [fst].
  - split; [reflexivity | discriminate].
  - split; [intros [c Hc]; discriminate | intros [= ->]; reflexivity].
Qed.

Lemma handleSearch_narrows_witness :
  filter_result (matches (toLowerCase (trim "mug"))) (products mugs_store)
  = Ok (filteredProducts (snd (handleSearch "mug" mugs_store))) /\
  filter_result (matches (toLowerCase (trim " Red Mug")))
    (filteredProducts (snd (handleSearch "mug" mugs_store)))
  = Ok (filteredProducts (snd (handleSearch " Red Mug" mugs_store))) /\
  (renders (filteredProducts (snd (handleSearch "mug" mugs_store))) ->
   fst (handleSearch "mug" mugs_store) = Ok tt) /\
  (render_fails (filteredProducts (snd (handleSearch "mug" mugs_store))) ->
   fst (handleSearch "mug" mugs_store) = Throw TypeError).
Proof.
  apply (@handleSearch_narrows "mug" " Red Mug" mugs_store).
  - vm_compute. discriminate.
  - exists "red "%string, ""%string. vm_compute. reflexivity.
  - vm_compute. reflexivity.
Defined.

(** ** escapeHtml and sanitizeProductData *)

Lemma escape_char_no_tag (c : ascii) : no_tag (escape_char c).
Proof. destruct c as [[] [] [] [] [] [] [] []]; split; reflexivity. Qed.

Lemma occurs_app (c : ascii) (s t : string) :
  occurs c (s ++ t) = occurs c s || occurs c t.
Proof.
  induction s as [|a r IH]; [reflexivity|].
  cbn [String.append occurs]. now rewrite IH, orb_assoc.
Qed.

Lemma escapeHtml_no_tag (text : string) : no_tag (escapeHtml text).
Proof.
  induction text as [|c r [IH1 IH2]]; [split; reflexivity|].
  cbn [escapeHtml]. destruct (escape_char_no_tag c) as [H1 H2].
  split; rewrite occurs_app; [now rewrite H1, IH1 | now rewrite H2, IH2].
Qed.

Lemma escapeHtml_plain (text : string) :
  (forall c, occurs c text = true -> plain_char c = true) ->
  escapeHtml text = text.
Proof.
  induction text as [|a r IH]; [reflexivity|].
  intros H. cbn [escapeHtml].
  assert (Ha : plain_char a = true).
  { apply H. cbn [occurs]. now rewrite Ascii.eqb_refl. }
  rewrite IH.
  - revert Ha. unfold plain_char, escape_char.
    destruct (code a =? 38)%N; [discriminate|].
    destruct (code a =? 60)%N; [discriminate|].
    destruct (code a =? 62)%N; [discriminate|].
    destruct (code a =? 160)%N; [discriminate|]. reflexivity.
  - intros c Hc. apply H. cbn [occurs]. rewrite Hc. apply orb_true_r.
Qed.

Lemma map_result_cons A B (f : A -> result B) (a : A) (r : list A) :
  map_result f (a :: r)
  = (b <- f a ;; bs <- map_result f r ;; Ok (b :: bs))%result.
Proof. reflexivity. Qed.

(** An array that converts to a string has elements that all do. *)
Lemma ToString_elements (items : list value) (s : string) :
  ToString (VArr items) = Ok s ->
  exists l, map_result ToString items = Ok l.
Proof.
  revert s. induction items as [|a r IH]; intros s H; [now exists []|].
  cbn [ToString] in H.
  destruct (match a with
            | VUndefined | VNull => Ok ""%string
            | _ => ToString a
            end) as [sa|ea] eqn:Ha; [|discriminate].
  assert (Hconv : exists sa', ToString a = Ok sa')
    by (destruct a; first [eexists; reflexivity | eexists; exact Ha]).
  destruct Hconv as [sa' Hsa].
  destruct r as [|b r'].
  - exists [sa']. rewrite map_result_cons, Hsa. reflexivity.
  - match type of H with
    | match ?j with _ => _ end = _ =>
        destruct j as [rest|er] eqn:Hj; [|discriminate]
    end.
    destruct (IH rest Hj) as [l Hl].
    exists (sa' :: l). rewrite map_result_cons, Hsa. cbn [and_then].
    rewrite Hl. reflexivity.
Qed.

(** A falsy value converts to a string. *)
Lemma falsy_converts (v : value) :
  truthy v = false -> exists s, ToString v = Ok s.
Proof. destruct v; try discriminate; intros _; eexists; reflexivity. Qed.

Ltac open_sanitized H :=
  unfold sanitizeProductData in H;
  repeat match type of H with
         | and_then ?r _ = Ok _ =>
             let E := fresh "G" in
             destruct r eqn:E; cbn [and_then] in H; [|discriminate]
         end;
  injection H as H.

(** X16.  [sanitizeProductData] throws nothing but a [TypeError], and it
    throws on [null] and [undefined].  On another product it returns when
    every property of the product converts to a string; and when it
    returns, the id, the title, the subtitle, the description, the price
    and the promotional price of the product convert to strings, and so
    do the entries of a gallery that is an array.  The title, the
    description and the subtitle of its result then hold neither [<] nor
    [>]; a title without [&], [<], [>] and no-break space, quotes
    included, is copied as it is; the id and the price are never [NaN].
    The entries of the gallery are converted to strings and not
    escaped. *)
Theorem sanitizeProductData_spec (product : value) :
  (forall e, sanitizeProductData product = Throw e -> e = TypeError) /\
  (nullish product = true -> sanitizeProductData product = Throw TypeError) /\
  (nullish product = false ->
   (forall k v, get product k = Ok v -> exists s, ToString v = Ok s) ->
   exists safeProduct, sanitizeProductData product = Ok safeProduct) /\
  (forall safeProduct,
     sanitizeProductData product = Ok safeProduct ->
     nullish product = false /\
     (forall k v,
        In k ["id"; "title"; "subtitle"; "description"; "price";
              "promotionalPrice"]%string ->
        get product k = Ok v -> exists s, ToString v = Ok s) /\
     no_tag (Safe.title safeProduct) /\
     no_tag (Safe.description safeProduct) /\
     (forall s, Safe.subtitle safeProduct = Some s -> no_tag s) /\
     (forall t, get product "title" = Ok (VStr t) ->
                (forall c, occurs c t = true -> plain_char c = true) ->
                Safe.title safeProduct = t) /\
     isNaN (Safe.id safeProduct) = false /\
     isNaN (Safe.price safeProduct) = false /\
     (forall urls, get product "gallery" = Ok (VArr urls) ->
                   map_result ToString urls
                   = Ok (Safe.gallery safeProduct))).
Proof.
  split; [apply sanitizeProductData_throws|].
  split; [destruct product; try discriminate; reflexivity|].
  split.
  - intros Hn Hconv.
    assert (Hget : forall k, exists v s,
               get product k = Ok v /\ ToString v = Ok s).
    { intros k.
      assert (exists v, get product k = Ok v) as [v Hv]
        by (destruct product; try discriminate; cbn; eauto).
      destruct (Hconv k v Hv) as [s Hs]. eauto. }
    assert (Hor : forall v s, ToString v = Ok s ->
               exists s', ToString (if truthy v then v else VStr "")
                          = Ok s').
    { intros v s Hs. destruct (truthy v); [eauto | now exists ""%string]. }
    assert (Hurls : forall v s, ToString v = Ok s ->
               exists urls,
                 match v with
                 | VArr urls => map_result ToString urls
                 | _ => Ok []
                 end = Ok urls)
      by (intros v s Hs; destruct v; eauto using ToString_elements).
    unfold sanitizeProductData, parseInt, parseFloat.
    destruct (Hget "id"%string) as (vid & sid & -> & Hi).
    cbn [and_then]. rewrite Hi. cbn [and_then].
    destruct (Hget "title"%string) as (vtitle & stitle & -> & Ht).
    cbn [and_then]. destruct (Hor _ _ Ht) as [stitle' ->]. cbn [and_then].
    destruct (Hget "subtitle"%string) as (vsub & ssub & -> & Hs).
    cbn [and_then]. rewrite Hs.
    destruct (Hget "description"%string) as (vdesc & sdesc & Hgd & Hd).
    destruct (Hor _ _ Hd) as [sdesc' Hd'].
    destruct (Hget "gallery"%string) as (vgal & sgal & Hgg & Hg).
    destruct (Hurls _ _ Hg) as [urls Hu].
    destruct (Hget "price"%string) as (vprice & sprice & Hgp & Hp).
    destruct (Hget "promotionalPrice"%string)
      as (vpromo & spromo & Hgq & Hq).
    destruct (truthy vsub); cbn [and_then];
      rewrite Hgd; cbn [and_then]; rewrite Hd'; cbn [and_then];
      rewrite Hgg; cbn [and_then]; rewrite Hu; cbn [and_then];
      rewrite Hgp; cbn [and_then]; rewrite Hp; cbn [and_then];
      rewrite Hgq; cbn [and_then]; rewrite Hq;
      destruct (truthy vpromo); cbn [and_then]; eauto.
  - intros safeProduct H. open_sanitized H. subst safeProduct.
    cbn [Safe.title Safe.description Safe.subtitle Safe.id Safe.price
         Safe.gallery].
    assert (Hor : forall v s,
               ToString (if truthy v then v else VStr "") = Ok s ->
               exists s', ToString v = Ok s').
    { intros v s Hs. destruct (truthy v) eqn:Hv; eauto using falsy_converts. }
    split; [destruct product; try discriminate; reflexivity|].
    split.
    { intros k v Hk Hkv. cbn [In] in Hk.
      destruct Hk as [<-|[<-|[<-|[<-|[<-|[<-|[]]]]]]];
        match goal with
        | G : get product _ = Ok ?w |- _ =>
            assert (w = v) as -> by congruence; clear G
        end.
      all: try (eapply Hor; eassumption).
      - unfold parseInt in *. destruct (ToString v); [eauto|discriminate].
      - destruct (truthy v) eqn:Htv; [|now apply falsy_converts].
        match goal with
        | G : and_then (ToString v) _ = _ |- _ =>
            destruct (ToString v); [eauto | discriminate]
        end.
      - unfold parseFloat in *. destruct (ToString v); [eauto|discriminate].
      - destruct (truthy v) eqn:Htv; [|now apply falsy_converts].
        unfold parseFloat in *.
        destruct (ToString v); [eauto | discriminate]. }
    split; [apply escapeHtml_no_tag|].
    split; [apply escapeHtml_no_tag|].
    split.
    { intros s Hs. subst.
      match goal with
      | G : (if truthy ?v then _ else _) = Ok (Some s) |- _ =>
          destruct (truthy v); [|discriminate];
          destruct (ToString v); cbn [and_then] in G; [|discriminate];
          injection G as <-; apply escapeHtml_no_tag
      end. }
    split.
    { intros t Ht Hplain.
      match goal with
      | G : get product "title" = Ok ?w |- _ =>
          assert (w = VStr t) as -> by congruence
      end.
      cbn [truthy] in *.
      destruct t as [|c r].
      - cbn in *. match goal with
                  | G : Ok ""%string = Ok ?s |- _ => injection G as <-
                  end. reflexivity.
      - cbn [nonempty ToString] in *.
        match goal with
        | G : Ok (String c r) = Ok ?s |- _ => injection G as <-
        end.
        now apply escapeHtml_plain. }
    split; [apply or_zero_not_nan|].
    split; [apply or_zero_not_nan|].
    intros urls Hu.
    match goal with
    | G : get product "gallery" = Ok ?w |- _ =>
        assert (w = VArr urls) as -> by congruence
    end.
    assumption.
Qed.

(** The markup of a title is escaped, the address of an image is not. *)
Lemma sanitizeProductData_markup :
  exists safeProduct,
    sanitizeProductData markup_entry = Ok safeProduct /\
    Safe.title safeProduct = "&lt;b&gt;Mug&lt;/b&gt; &amp; co"%string /\
    Safe.gallery safeProduct = ["x.png?a=1&b=<2>"%string].
Proof. eexists. split; [reflexivity|]. split; vm_compute; reflexivity. Qed.

(** ** openProductModal *)

Lemma find_result_none (f : value -> result bool) (l : list value) :
  Forall (fun p => f p = Ok false) l -> find_result f l = Ok None.
Proof.
  induction 1 as [|p r Hp _ IH]; [reflexivity|].
  cbn [find_result]. now rewrite Hp.
Qed.

(** X17.  The modal opens on a strict comparison of ids: on a list
    without [null] entries, [openProductModal] finds nothing, and leaves
    the store as it is, when the id asked for is [NaN] or when no product
    of the list has a number as its id; a list whose ids are strings never
    opens a modal. *)
Theorem openProductModal_strict_id (productId : number) (st : Store) :
  Forall (fun p => nullish p = false) (products st) ->
  isNaN productId = true \/
  Forall (fun p => forall x, get p "id" <> Ok (VNum x)) (products st) ->
  openProductModal productId st = (Ok None, st).
Proof.
  intros Hdef Hcase. unfold openProductModal. run.
  rewrite find_result_none; [reflexivity|].
  destruct Hcase as [Hnan | Hids].
  - eapply Forall_impl; [|exact Hdef]. intros p Hp. cbn beta in *.
    destruct p; try discriminate; cbn [get and_then]; f_equal;
      try reflexivity.
    unfold strict_equal_number. destruct (lookup "id" props); try reflexivity.
    destruct productId; try discriminate.
    unfold SFeqb, SFcompare. now destruct x.
  - rewrite Forall_forall in Hdef, Hids. apply Forall_forall.
    intros p Hin. specialize (Hdef p Hin). specialize (Hids p Hin).
    cbn beta in *.
    destruct p; try discriminate; cbn [get and_then]; f_equal;
      try reflexivity.
    unfold strict_equal_number.
    destruct (lookup "id" props) eqn:Hid; try reflexivity.
    elim (Hids x). cbn [get]. now rewrite Hid.
Qed.

Lemma openProductModal_strict_id_witness :
  openProductModal (of_Z 1) string_id_store = (Ok None, string_id_store).
Proof.
  apply (@openProductModal_strict_id (of_Z 1) string_id_store).
  - vm_compute. repeat constructor.
  - right. vm_compute. repeat constructor. discriminate.
Defined.





(** ** fetchProductById: the product found *)

(** X19.  [fetchProductById] returns a product exactly when the id
    converts to a string, the network answers the request for that id
    with a success status and a JSON body that [transformProduct]
    accepts, and the product is the transform of the body: the test of
    the public flag that follows discards nothing, a transformed product
    being public already.  The id of the product is not compared with the
    id asked for. *)
Theorem fetchProductById_found net (productId : value) (st : Store)
    (p : Product) :
  fst (fetchProductById net productId st) = Ok (Some p) <->
  exists text response apiProduct,
    ToString productId = Ok text /\
    net (by_id_request text) = Answer response /\
    ok response = true /\
    body response = Some apiProduct /\
    transformProduct apiProduct = Some p.
Proof.
  unfold fetchProductById. run.
  destruct (ToString productId) as [text|e] eqn:Htext; run.
  2:{ split; [discriminate | now intros (t & r & a & [=] & _)]. }
  run.
  destruct (net (by_id_request text)) as [|r] eqn:Hnet; run.
  { split; [discriminate|].
    intros (t & r & a & [= <-] & Hn & _). congruence. }
  destruct (ok r) eqn:Hok; run.
  2:{ split.
      - destruct (status r =? 404)%Z; run; discriminate.
      - intros (t & r' & a & [= <-] & Hn & Hok' & _). congruence. }
  destruct (body r) as [apiProduct|] eqn:Hbody; run.
  2:{ split; [discriminate|].
      intros (t & r' & a & [= <-] & Hn & _ & Hb & _). congruence. }
  destruct (transformProduct apiProduct) as [q|] eqn:Hq; run.
  2:{ split; [discriminate|].
      intros (t & r' & a & [= <-] & Hn & _ & Hb & Ht). congruence. }
  pose proof (proj1 (transformProduct_Some apiProduct q) Hq)
    as (_ & _ & _ & _ & _ & Hpub).
  rewrite Hpub. run. split.
  - intros [= <-]. exists text, r, apiProduct. auto.
  - intros (t & r' & a & [= <-] & Hn & _ & Hb & Ht).
    rewrite Hnet in Hn. injection Hn as <-.
    rewrite Hbody in Hb. injection Hb as <-. congruence.
Qed.

(** ** Whole numbers: the id and the rating *)

Local Open Scope Z_scope.

(** Rounding never lowers the exponent. *)
Lemma binary_round_aux_exponent (s s' : bool) (mx ex : Z) (l : location)
    (m : positive) (e : Z) :
  0 <= mx ->
  binary_round_aux prec emax s mx ex l = S754_finite s' m e -> ex <= e.
Proof.
  intros Hmx. unfold binary_round_aux, shr_fexp.
  pose proof (@shr_spec (shr_record_of_loc mx l) ex
                (fexp prec emax (Zdigits2 mx + ex) - ex)) as H1.
  rewrite shr_record_of_loc_m in H1. specialize (H1 Hmx).
  destruct (shr (shr_record_of_loc mx l) ex
              (fexp prec emax (Zdigits2 mx + ex) - ex)) as [mrs1 e1].
  cbn [fst snd] in H1. destruct H1 as [Hm1 He1].
  assert (Hm1pos : 0 <= shr_m mrs1)
    by (rewrite Hm1; apply Z.div_pos; [lia | apply Z.pow_pos_nonneg; lia]).
  set (m2 := round_nearest_even (shr_m mrs1) (loc_of_shr_record mrs1)).
  assert (Hm2 : m2 = shr_m mrs1 \/ m2 = shr_m mrs1 + 1)
    by apply round_nearest_even_bounds.
  assert (Hm2pos : 0 <= m2) by lia.
  pose proof (@shr_spec (shr_record_of_loc m2 loc_Exact) e1
                (fexp prec emax (Zdigits2 m2 + e1) - e1)) as H3.
  rewrite shr_record_of_loc_m in H3. specialize (H3 Hm2pos).
  destruct (shr (shr_record_of_loc m2 loc_Exact) e1
              (fexp prec emax (Zdigits2 m2 + e1) - e1)) as [mrs3 e3].
  cbn [fst snd] in H3. destruct H3 as [Hm3 He3].
  destruct (shr_m mrs3); try discriminate.
  destruct (e3 <=? emax - prec); try discriminate.
  intros [= _ _ <-]. lia.
Qed.

(** A mantissa that is already at the exponent of the format is kept. *)
Lemma binary_round_aux_exact (s : bool) (m : positive) (ex : Z) :
  fexp prec emax (Zdigits2 (Zpos m) + ex) = ex ->
  ex <= 971 ->
  binary_round_aux prec emax s (Zpos m) ex loc_Exact = S754_finite s m ex.
Proof.
  intros H Hle. unfold binary_round_aux, shr_fexp.
  rewrite H, Z.sub_diag.
  cbn [shr shr_record_of_loc shr_m loc_of_shr_record round_nearest_even].
  rewrite H, Z.sub_diag. cbn [shr shr_record_of_loc shr_m].
  replace (ex <=? emax - prec) with true; [reflexivity|].
  symmetry. apply Z.leb_le. change (emax - prec) with 971. exact Hle.
Qed.

(** The rounding of a positive integer is a whole number or an
    infinity. *)
Lemma binary_round_whole (s : bool) (p : positive) :
  binary_round prec emax s p 0 = S754_infinity s \/
  exists m e,
    binary_round prec emax s p 0 = S754_finite s m e /\
    exists z, 0 < z /\ Zpos m * 2 ^ (e + 1074) = z * 2 ^ 1074.
Proof.
  destruct (binary_round_cases s p 0) as (Hvalid & Hshape & Hnz).
  destruct Hshape as [Hz | [Hinf | (m & e & Hfin)]];
    [now elim Hnz; [lia|] | now left | right].
  exists m, e. split; [exact Hfin|].
  rewrite Hfin in Hvalid. apply valid_finite in Hvalid as (He & _).
  revert Hfin. unfold binary_round.
  change (Zpos (digits2_pos p)) with (Zdigits2 (Zpos p)).
  pose proof (Zdigits2_pos (m := Zpos p) eq_refl) as Hd.
  rewrite Z.add_0_r, fexp_eq.
  destruct (Z_lt_le_dec (Zdigits2 (Zpos p) - 53) 0) as [Hlt | Hge].
  - replace (Z.max (Zdigits2 (Zpos p) - 53) (-1074))
      with (Zdigits2 (Zpos p) - 53) by lia.
    pose proof (@shl_align_value p 0 (Zdigits2 (Zpos p) - 53) ltac:(lia))
      as [Hv Hez].
    destruct (shl_align p 0 (Zdigits2 (Zpos p) - 53)) as [mz ez].
    cbn [fst snd] in Hv, Hez. subst ez.
    rewrite binary_round_aux_exact.
    + intros [= <- <-]. exists (Zpos p). split; [lia|].
      rewrite Hv.
      replace (2 ^ 1074)
        with (2 ^ (0 - (Zdigits2 (Zpos p) - 53))
              * 2 ^ (Zdigits2 (Zpos p) - 53 + 1074)).
      * symmetry. apply Z.mul_assoc.
      * rewrite <- Z.pow_add_r by lia. f_equal. lia.
    + rewrite Hv, Zdigits2_mul_pow2 by lia. rewrite fexp_eq. lia.
    + lia.
  - assert (Hal : shl_align p 0 (Z.max (Zdigits2 (Zpos p) - 53) (-1074))
                  = (p, 0)).
    { unfold shl_align.
      destruct (Z.max (Zdigits2 (Zpos p) - 53) (-1074) - 0) eqn:E;
        try reflexivity; lia. }
    rewrite Hal. intros Hfin.
    apply binary_round_aux_exponent in Hfin; [|lia].
    exists (Zpos m * 2 ^ e). split.
    + apply Z.mul_pos_pos; [lia | apply Z.pow_pos_nonneg; lia].
    + rewrite Z.pow_add_r by lia. apply Z.mul_assoc.
Qed.

Lemma parseInt_str_whole (s : string) :
  match parseInt_str s with
  | S754_finite _ m e =>
      exists z, 0 < z /\ Zpos m * 2 ^ (e + 1074) = z * 2 ^ 1074
  | _ => True
  end.
Proof.
  unfold parseInt_str.
  destruct (scan_sign (trimStart s)) as [neg s1].
  destruct (if startsWith s1 "0x" || startsWith s1 "0X" then _ else _)
    as [[v n] r].
  destruct (n =? 0); [exact I|].
  destruct v as [|p|p]; try exact I.
  destruct (binary_round_whole neg p) as [-> | (m & e & -> & Hz)];
    [exact I | exact Hz].
Qed.

Lemma parseInt_whole (v : value) (x : number) :
  parseInt v = Ok x ->
  match x with
  | S754_finite _ m e =>
      exists z, 0 < z /\ Zpos m * 2 ^ (e + 1074) = z * 2 ^ 1074
  | _ => True
  end.
Proof.
  unfold parseInt. destruct (ToString v) as [s|]; [|discriminate].
  intros [= <-]. apply parseInt_str_whole.
Qed.

(** X20.  The id of a product returned by [transformProduct] is a whole
    number that is at least 1, or [Infinity] (the id of a record whose
    digits exceed the range of the format); its rating, when it has one,
    is a whole number that is not zero, or an infinity. *)
Theorem transformProduct_whole_id (apiProduct : value) (p : Product) :
  transformProduct apiProduct = Some p ->
  (id p = infinity false \/
   (whole (id p) /\ 2 ^ 1074 <= rank (id p))) /\
  (forall x, rating p = Some x ->
     (exists neg, x = infinity neg) \/
     (whole x /\ num_truthy x = true)).
Proof.
  intros H. apply transformProduct_Some in H as [H Hinv].
  destruct Hinv as (Hid & _).
  open_transformed H. subst p. cbn [id rating] in *.
  split.
  - revert Hid. unfold or_zero.
    match goal with
    | G : parseInt _ = Ok ?n |- context [num_truthy ?n] =>
        pose proof (parseInt_whole _ G) as Hw; clear G;
        destruct n as [neg | neg | | neg m e]
    end; cbn [num_truthy]; try discriminate.
    + destruct neg; [discriminate | now left].
    + destruct neg; [discriminate|]. intros _. right.
      destruct Hw as (z & Hz & Heq). split.
      * exists z. exact Heq.
      * cbn [rank]. rewrite Heq.
        assert (0 < 2 ^ 1074) by (apply Z.pow_pos_nonneg; lia). nia.
  - intros x. unfold or_null.
    match goal with
    | G : parseInt _ = Ok ?n |- context [num_truthy ?n] =>
        pose proof (parseInt_whole _ G) as Hw; clear G;
        destruct n as [neg | neg | | neg m e]
    end; cbn [num_truthy]; try discriminate; intros [= <-].
    + left. now exists neg.
    + right. split; [|reflexivity].
      destruct Hw as (z & _ & Heq). exists z. exact Heq.
Qed.

Lemma transformProduct_whole_id_witness :
  transformProduct padded_record = Some padded_product /\
  (id padded_product = infinity false \/
   (whole (id padded_product) /\ 2 ^ 1074 <= rank (id padded_product))) /\
  (forall x, rating padded_product = Some x ->
     (exists neg, x = infinity neg) \/
     (whole x /\ num_truthy x = true)).
Proof.
  split; [vm_compute; reflexivity|].
  apply (@transformProduct_whole_id padded_record padded_product).
  vm_compute; reflexivity.
Defined.

Local Close Scope Z_scope.
